(** * Meeting-minutes backend: transcription jobs, transcript assembly, parser

    A shallow embedding of [app/backend/transcribe.py],
    [app/backend/main.py], [app/backend/summarize.py] and
    [app/backend/telemetry.py].

    - Python [str] values that the code inspects character by character
      (segment texts, transcript files) are lists of Unicode code points
      ([pystr]); identifiers, paths and messages are [string]. The path
      of an upload is built as pathlib builds it on a POSIX system.
    - The [jobs] dictionary is a [gmap string job]; the nested
      dictionaries it holds are records.
    - [run_transcription], [transcribe_audio] and the endpoints are
      programs of a state-and-exception monad over the process state;
      every assignment to a field of a job is logged, so that the states
      a job passes through can be replayed.
    - The exceptions are those of class [Exception]. What the file
      system, the libraries and the interpreter decide (whether a file
      can be opened, written or removed, what a stage returns or
      raises, the text of a [KeyError]) is a field of the environment. *)

From Stdlib Require Import ZArith NArith Ascii String List Bool Lia.
From stdpp Require Import gmap strings list fin_maps pretty.

Local Open Scope list_scope.

(* ===================================================================== *)
(** * Python strings                                                       *)
(* ===================================================================== *)

Module Py.

(** A [str] is a sequence of code points. *)
Definition pystr := list N.

Definition of_string (s : string) : pystr :=
  map N_of_ascii (list_ascii_of_string s).

(** [str.isspace] on one character, which is also what [str.strip()] and
    the regular-expression class [\s] consult (CPython's
    [Py_UNICODE_ISSPACE]). *)
Definition is_space (c : N) : bool :=
  ((9 <=? c) && (c <=? 13)
   || (28 <=? c) && (c <=? 32)
   || (c =? 133) || (c =? 160) || (c =? 5760)
   || (8192 <=? c) && (c <=? 8202)
   || (c =? 8232) || (c =? 8233) || (c =? 8239) || (c =? 8287)
   || (c =? 12288))%N.

Fixpoint lstrip (s : pystr) : pystr :=
  match s with
  | c :: r => if is_space c then lstrip r else s
  | [] => []
  end.

Definition rstrip (s : pystr) : pystr := rev (lstrip (rev s)).

(** [s.strip()] *)
Definition strip (s : pystr) : pystr := rstrip (lstrip s).

(** Truth value of a [str]: non-empty. *)
Definition truthy (s : pystr) : bool :=
  match s with [] => false | _ :: _ => true end.

Fixpoint span (p : N -> bool) (s : pystr) : pystr * pystr :=
  match s with
  | c :: r => if p c then let '(a, b) := span p r in (c :: a, b) else ([], s)
  | [] => ([], [])
  end.

Fixpoint strip_prefix (pre s : pystr) : option pystr :=
  match pre, s with
  | [], _ => Some s
  | p :: pre', c :: s' => if (p =? c)%N then strip_prefix pre' s' else None
  | _ :: _, [] => None
  end.

End Py.

(* ===================================================================== *)
(** * transcribe.py: transcript lines and the final conversion loop        *)
(* ===================================================================== *)

Module Transcribe.
Import Py.

(** The dictionaries [{"speaker": ..., "text": ...}] the module returns. *)
Record TranscriptLine := mkLine { speaker : pystr; text : pystr }.

(** A segment of [result["segments"]] as the conversion loop reads it:
    only the keys "speaker" and "text" are looked up, each with
    [dict.get], so each may be missing. *)
Record segment := mkSeg { seg_speaker : option pystr; seg_text : option pystr }.

Definition UNKNOWN : pystr := of_string "UNKNOWN".

(** One iteration of [for segment in result["segments"]: ...]. *)
Definition convert_step (transcript : list TranscriptLine) (seg : segment)
  : list TranscriptLine :=
  let speaker := default UNKNOWN (seg_speaker seg) in
  let text := strip (default [] (seg_text seg)) in
  if truthy text then transcript ++ [mkLine speaker text] else transcript.

(** The loop "Convert to our format" of [transcribe_audio]. *)
Definition convert_segments (segments : list segment) : list TranscriptLine :=
  fold_left convert_step segments [].

(** What the loop keeps and what it makes of a kept segment. *)
Definition seg_trimmed (seg : segment) : pystr :=
  strip (default [] (seg_text seg)).

Definition seg_kept (seg : segment) : bool := truthy (seg_trimmed seg).

Definition seg_line (seg : segment) : TranscriptLine :=
  mkLine (default UNKNOWN (seg_speaker seg)) (seg_trimmed seg).

(** ** The regular expression of [parse_transcript_file]

    A backtracking matcher for the constructs the pattern uses: literal
    characters, the classes [\d], [\s] and [.], greedy repetition of a
    class, and capturing groups around a repetition. *)

Inductive atom := Lit (c : N) | Digit | Space | Dot.

Inductive node :=
| Single (a : atom)
| Repeat (lo : nat) (a : atom).   (* [a*] is [Repeat 0 a], [a+] is [Repeat 1 a] *)

(** A pattern is a sequence of nodes, each marked as captured or not. *)
Definition pattern := list (bool * node).

Section Regex.

(** [\d] on a [str] pattern is Unicode category Nd, a table of the
    interpreter ([Py_UNICODE_ISDECIMAL]) that the repository does not
    contain: it is a parameter. *)
Variable is_decimal : N -> bool.

Definition atom_ok (a : atom) (c : N) : bool :=
  match a with
  | Lit x => (x =? c)%N
  | Digit => is_decimal c
  | Space => is_space c
  | Dot => negb (c =? 10)%N         (* any character except a newline *)
  end.

(** Length of the longest prefix of [s] made of characters of class [a]. *)
Fixpoint run_length (a : atom) (s : pystr) : nat :=
  match s with
  | c :: r => if atom_ok a c then S (run_length a r) else 0
  | [] => 0
  end.

Definition push (cap : bool) (g : pystr) (groups : list pystr) : list pystr :=
  if cap then g :: groups else groups.

(** Greedy repetition: try the longest run first, then give characters
    back one at a time while the rest of the pattern [k] fails. *)
Fixpoint backtrack (k : pystr -> option (list pystr)) (cap : bool)
    (lo n : nat) (s : pystr) : option (list pystr) :=
  let attempt :=
    if lo <=? n then push cap (take n s) <$> k (drop n s) else None in
  match attempt with
  | Some groups => Some groups
  | None => match n with
            | O => None
            | S n' => backtrack k cap lo n' s
            end
  end.

(** [re.match]: the pattern is anchored at the start of [s] only; the
    result lists the captured groups in order. *)
Fixpoint re_match (p : pattern) (s : pystr) : option (list pystr) :=
  match p with
  | [] => Some []
  | (cap, Single a) :: p' =>
      match s with
      | c :: s' => if atom_ok a c then push cap [c] <$> re_match p' s' else None
      | [] => None
      end
  | (cap, Repeat lo a) :: p' =>
      backtrack (re_match p') cap lo (run_length a s) s
  end.

Definition lits (s : string) : pattern :=
  map (fun c => (false, Single (Lit c))) (of_string s).

(** [r"\[SPEAKER_(\d+)\]:\s*(.+)"] *)
Definition speaker_pattern : pattern :=
  lits "[SPEAKER_" ++ [(true, Repeat 1 Digit)] ++ lits "]:"
  ++ [(false, Repeat 0 Space); (true, Repeat 1 Dot)].

(** ** Reading the file

    [open(file_path, "r", encoding="utf-8")] decodes the file and, in
    universal-newlines mode, turns "\r\n" and "\r" into "\n"; iterating
    over the file yields the lines with their terminating "\n". The
    decoded content is the input of the model. *)
Fixpoint translate_newlines (s : pystr) : pystr :=
  match s with
  | [] => []
  | c :: r =>
      if (c =? 13)%N then
        10%N :: match r with
                | d :: r' => if (d =? 10)%N then translate_newlines r'
                             else translate_newlines r
                | [] => []
                end
      else c :: translate_newlines r
  end.

Fixpoint split_lines (cur : pystr) (s : pystr) : list pystr :=
  match s with
  | [] => match cur with [] => [] | _ :: _ => [cur] end
  | c :: r => if (c =? 10)%N then (cur ++ [c]) :: split_lines [] r
              else split_lines (cur ++ [c]) r
  end.

Definition file_lines (content : pystr) : list pystr :=
  split_lines [] (translate_newlines content).

(** The body of [for line in f]. *)
Definition parse_step (transcript : list TranscriptLine) (line : pystr)
  : list TranscriptLine :=
  let line := strip line in
  if negb (truthy line) then transcript
  else match re_match speaker_pattern line with
       | Some [speaker_id; rest] =>
           let text := strip rest in
           if truthy text
           then transcript ++ [mkLine (of_string "SPEAKER_" ++ speaker_id) text]
           else transcript
       | _ => transcript
       end.

(** [parse_transcript_file], on the decoded content of the file. *)
Definition parse_transcript_file (content : pystr) : list TranscriptLine :=
  fold_left parse_step (file_lines content) [].

(** ** The line format, in the words of the specification

    A line contributes a transcript line when, once trimmed, it reads
    [[SPEAKER_<digits>]:<text>] with at least one digit and a text that is
    not blank; the speaker is [SPEAKER_<digits>] and the text is trimmed. *)
Definition spec_line (line : pystr) : option TranscriptLine :=
  match strip_prefix (of_string "[SPEAKER_") (strip line) with
  | Some r =>
      let '(digits, r') := span is_decimal r in
      match digits, strip_prefix (of_string "]:") r' with
      | _ :: _, Some t =>
          if truthy (strip t)
          then Some (mkLine (of_string "SPEAKER_" ++ digits) (strip t))
          else None
      | _, _ => None
      end
  | None => None
  end.

End Regex.

Definition line_list (o : option TranscriptLine) : list TranscriptLine :=
  match o with Some x => [x] | None => [] end.

(** A line as the iteration over the file yields it: free of line feeds
    but for a possible last character. *)
Definition line_shape (l : pystr) : Prop :=
  exists b, ~ In 10%N b /\ (l = b ++ [10%N] \/ l = b).

(** The decimal digits among the ASCII characters. *)
Definition ascii_digit (c : N) : bool := ((48 <=? c) && (c <=? 57))%N.

Definition example_text : pystr :=
  of_string "[SPEAKER_01]: Hello world" ++ [10; 10]%N
  ++ of_string "[SPEAKER_02]:  " ++ [10]%N
  ++ of_string "not a match line" ++ [10]%N
  ++ of_string "[SPEAKER_01]: Second".

End Transcribe.

(* ===================================================================== *)
(** * The process state and the monad of the backend                       *)
(* ===================================================================== *)

Module Runtime.
Import Py Transcribe.

(** Exceptions (subclasses of [Exception]) the code raises or meets: an
    exception of one of four classes made from its message, a [KeyError]
    raised for a string key, an [HTTPException] made from a status code
    and a detail. *)
Inductive exn :=
| ImportError (msg : string)
| RuntimeError (msg : string)
| KeyError (key : string)
| OSError (msg : string)
| HTTPException (status_code : Z) (detail : string)
| OtherError (msg : string).

(** What [str(e)] takes from outside the repository: [repr] of a string,
    which is the text of the [KeyError] raised for it, and the [__str__]
    of Starlette's [HTTPException]. *)
Record Texts := mkTexts {
  repr : string -> string;
  http_exception_str : Z -> string -> string
}.

(** [str(e)]: an exception made from its message alone shows the message. *)
Definition str_exn (X : Texts) (e : exn) : string :=
  match e with
  | ImportError m | RuntimeError m | OSError m | OtherError m => m
  | KeyError k => repr X k
  | HTTPException c d => http_exception_str X c d
  end.

Inductive result (A : Type) :=
| Ok (a : A)
| Raise (e : exn).
Arguments Ok {A} a.
Arguments Raise {A} e.

(** The value of the "status" key. *)
Inductive status_t := pending | processing | completed | failed.

(** The dictionary stored at [jobs[job_id]]. *)
Record job := mkJob {
  status : status_t;
  progress : Z;
  message : string;
  file_path : string;
  transcript : option (list TranscriptLine);
  error : option string
}.

(** An assignment [jobs[job_id][key] = value]. *)
Inductive write :=
| SetStatus (s : status_t)
| SetProgress (p : Z)
| SetMessage (m : string)
| SetTranscript (t : list TranscriptLine)
| SetError (e : string).

Definition apply_write (w : write) (j : job) : job :=
  match w with
  | SetStatus s => mkJob s (progress j) (message j) (file_path j) (transcript j) (error j)
  | SetProgress p => mkJob (status j) p (message j) (file_path j) (transcript j) (error j)
  | SetMessage m => mkJob (status j) (progress j) m (file_path j) (transcript j) (error j)
  | SetTranscript t => mkJob (status j) (progress j) (message j) (file_path j) (Some t) (error j)
  | SetError e => mkJob (status j) (progress j) (message j) (file_path j) (transcript j) (Some e)
  end.

(** The external calls of the pipeline, in the order of the source. *)
Inductive stage :=
| StImport | StLoadModel | StLoadAudio | StTranscribe | StLoadAlignModel
| StAlign | StDiarizationPipeline | StDiarize | StAssignSpeakers.

Inductive event :=
| EvNew (job_id : string) (j : job)        (* jobs[job_id] = {...} *)
| EvSet (job_id : string) (w : write)      (* jobs[job_id][key] = value *)
| EvCall (st : stage).                     (* an external call was made *)

(** The state of the process: the module-level [jobs], the upload
    directory, the number of identifiers drawn from [uuid.uuid4], the
    tasks handed to [BackgroundTasks], and what happened so far. *)
Record sys := mkSys {
  jobs : gmap string job;
  fs : gmap string (list N);
  uuids_drawn : nat;
  tasks : list (string * string);
  log : list event
}.

Definition M (A : Type) : Type := sys -> result A * sys.

Definition ret {A} (a : A) : M A := fun s => (Ok a, s).

Definition raise {A} (e : exn) : M A := fun s => (Raise e, s).

Definition bind {A B} (m : M A) (k : A -> M B) : M B :=
  fun s => match m s with
           | (Ok a, s') => k a s'
           | (Raise e, s') => (Raise e, s')
           end.

(** [try: m except Exception as e: h e] *)
Definition try_except {A} (m : M A) (h : exn -> M A) : M A :=
  fun s => match m s with
           | (Ok a, s') => (Ok a, s')
           | (Raise e, s') => h e s'
           end.

Definition lift {A} (r : result A) : M A := fun s => (r, s).

Definition emit (ev : event) : M unit :=
  fun s => (Ok tt, mkSys (jobs s) (fs s) (uuids_drawn s) (tasks s) (log s ++ [ev])).

Definition set_jobs (js : gmap string job) : M unit :=
  fun s => (Ok tt, mkSys js (fs s) (uuids_drawn s) (tasks s) (log s)).

Definition set_fs (f : gmap string (list N)) : M unit :=
  fun s => (Ok tt, mkSys (jobs s) f (uuids_drawn s) (tasks s) (log s)).

Definition draw_uuid : M nat :=
  fun s => (Ok (uuids_drawn s),
            mkSys (jobs s) (fs s) (S (uuids_drawn s)) (tasks s) (log s)).

Definition add_task (job_id path : string) : M unit :=
  fun s => (Ok tt, mkSys (jobs s) (fs s) (uuids_drawn s)
                         (tasks s ++ [(job_id, path)]) (log s)).

Definition get_sys : M sys := fun s => (Ok s, s).

End Runtime.

Declare Scope py_scope.
Delimit Scope py_scope with py.
Notation "x <- m ;; k" := (Runtime.bind m (fun x => k))
  (at level 100, m at next level, right associativity) : py_scope.
Notation "m ;; k" := (Runtime.bind m (fun _ => k))
  (at level 100, right associativity) : py_scope.

Local Open Scope py_scope.
Local Open Scope string_scope.

(* ===================================================================== *)
(** * The environment of the process                                       *)
(* ===================================================================== *)

(** Everything the two modules obtain from outside the repository: the
    configuration variables, the random identifiers, the file system's
    verdict on opening a file for writing, on writing and closing it (an
    error comes with the number of bytes that had reached the file) and
    on removing a file that is there, the texts of exceptions, and the
    WhisperX and torch entry points. The values WhisperX passes between
    its own functions are opaque. *)
Record Env := mkEnv {
  WHISPER_MODEL : string;
  WHISPER_DEVICE : string;
  WHISPER_BATCH_SIZE : Z;
  WHISPER_LANGUAGE : string;
  HF_TOKEN : option string;
  uuid4 : nat -> string;
  open_error : string -> option Runtime.exn;
  write_error : string -> list N -> option (Runtime.exn * nat);
  remove_error : string -> option Runtime.exn;
  texts : Runtime.Texts;
  Model : Type;
  Audio : Type;
  Asr : Type;
  AlignModel : Type;
  Aligned : Type;
  Diarizer : Type;
  Diarization : Type;
  import_whisperx : Runtime.result unit;
  cuda_is_available : bool;
  load_model : string -> string -> string -> string -> Runtime.result Model;
  load_audio : string -> Runtime.result Audio;
  model_transcribe : Model -> Audio -> Z -> string -> Runtime.result Asr;
  load_align_model : string -> string -> Runtime.result AlignModel;
  align : Asr -> AlignModel -> Audio -> string -> Runtime.result Aligned;
  DiarizationPipeline : string -> string -> Runtime.result Diarizer;
  diarize : Diarizer -> Audio -> Runtime.result Diarization;
  assign_word_speakers :
    Diarization -> Aligned -> Runtime.result (list Transcribe.segment)
}.

(* ===================================================================== *)
(** * transcribe.py: [transcribe_audio]                                    *)
(* ===================================================================== *)

Module Pipeline.
Import Py Transcribe Runtime.

Section WithEnv.
Variable E : Env.

(** An external call: it is recorded, then returns or raises. *)
Definition call {A} (st : stage) (r : result A) : M A :=
  emit (EvCall st) ;; lift r.

(** [if progress_callback: progress_callback(p, msg)] *)
Definition report (progress_callback : option (Z -> string -> M unit))
    (p : Z) (msg : string) : M unit :=
  match progress_callback with
  | Some f => f p msg
  | None => ret tt
  end.

Definition transcribe_audio (file_path : string)
    (progress_callback : option (Z -> string -> M unit))
  : M (list TranscriptLine) :=
  try_except (call StImport (import_whisperx E))
    (fun e => match e with
              | ImportError _ =>
                  raise (RuntimeError
                    "WhisperX nicht installiert. Installieren Sie mit: uv sync --extra whisperx")
              | _ => raise e
              end) ;;
  let device :=
    if String.eqb (WHISPER_DEVICE E) "auto"
    then (if cuda_is_available E then "cuda" else "cpu")
    else WHISPER_DEVICE E in
  let compute_type := if String.eqb device "cuda" then "float16" else "int8" in
  report progress_callback 5
    ("Lade WhisperX Modell (" ++ WHISPER_MODEL E ++ ")...") ;;
  model <- call StLoadModel
             (load_model E (WHISPER_MODEL E) device compute_type (WHISPER_LANGUAGE E)) ;;
  report progress_callback 15 "Lade Audio..." ;;
  audio <- call StLoadAudio (load_audio E file_path) ;;
  report progress_callback 25 "Transkription läuft..." ;;
  result <- call StTranscribe
              (model_transcribe E model audio (WHISPER_BATCH_SIZE E) (WHISPER_LANGUAGE E)) ;;
  report progress_callback 50 "Alignment läuft..." ;;
  model_a <- call StLoadAlignModel (load_align_model E (WHISPER_LANGUAGE E) device) ;;
  result <- call StAlign (align E result model_a audio device) ;;
  report progress_callback 65 "Sprechererkennung läuft..." ;;
  match HF_TOKEN E with
  | Some (String c t as hf_token) =>
      diarize_model <- call StDiarizationPipeline (DiarizationPipeline E hf_token device) ;;
      diarize_segments <- call StDiarize (diarize E diarize_model audio) ;;
      report progress_callback 85 "Segmente werden zusammengeführt..." ;;
      segments <- call StAssignSpeakers
                    (assign_word_speakers E diarize_segments result) ;;
      report progress_callback 95 "Transkript wird erstellt..." ;;
      ret (convert_segments segments)
  | _ =>
      raise (RuntimeError
        ("HuggingFace Token nicht gesetzt. "
         ++ "Setzen Sie die HF_TOKEN Umgebungsvariable. "
         ++ "Token erstellen unter: https://huggingface.co/settings/tokens"))
  end.

End WithEnv.
End Pipeline.

(* ===================================================================== *)
(** * main.py: the endpoints and the background task                       *)
(* ===================================================================== *)

Module Main.
Import Py Transcribe Runtime Pipeline.

(** The response model of both transcription endpoints. *)
Record TranscriptionJob := mkResponse {
  r_job_id : string;
  r_status : status_t;
  r_progress : Z;
  r_message : string;
  r_transcript : option (list TranscriptLine);
  r_error : option string
}.

(** What the endpoint reads of the uploaded file; [read] is what
    [await audio.read()] returns or raises. *)
Record UploadFile := mkUpload {
  content_type : option string;
  filename : string;
  read : result (list N)
}.

Definition allowed_types : list string :=
  ["audio/mpeg"; "audio/wav"; "audio/mp4"; "audio/x-m4a"; "audio/mp3"].

Definition allowed_suffixes : list string := [".mp3"; ".wav"; ".m4a"].

(** [audio.content_type not in allowed_types]; a missing content type is
    [None], which is in no list of strings. *)
Definition type_not_allowed (ct : option string) : bool :=
  match ct with
  | Some t => negb (existsb (String.eqb t) allowed_types)
  | None => true
  end.

(** [s.endswith(suffix)] *)
Definition endswith (s suffix : string) : bool :=
  (String.length suffix <=? String.length s)%nat
  && String.eqb
       (substring (String.length s - String.length suffix) (String.length suffix) s)
       suffix.

(** [jobs[job_id][key] = value]: the job is looked up first. *)
Definition setitem (job_id : string) (w : write) : M unit :=
  s <- get_sys ;;
  match jobs s !! job_id with
  | Some j => set_jobs (<[job_id := apply_write w j]> (jobs s)) ;;
              emit (EvSet job_id w)
  | None => raise (KeyError job_id)
  end.

(** [s.split(sep)], with the part read so far in [part]. *)
Fixpoint split_at (sep : ascii) (part s : string) : list string :=
  match s with
  | EmptyString => [part]
  | String c rest =>
      if Ascii.eqb c sep then part :: split_at sep EmptyString rest
      else split_at sep (part ++ String c EmptyString) rest
  end.

(** [posixpath.join(a, b)] *)
Definition posix_join (a b : string) : string :=
  if String.prefix "/" b then b
  else if String.eqb a "" || endswith a "/" then a ++ b
  else a ++ "/" ++ b.

(** [posixpath.splitroot(p)] without the drive, which is always empty:
    the root and the rest. Exactly two leading slashes are a root of
    their own. *)
Definition splitroot (p : string) : string * string :=
  match p with
  | String c1 r1 =>
      if Ascii.eqb c1 "/" then
        match r1 with
        | String c2 r2 =>
            if Ascii.eqb c2 "/" then
              match r2 with
              | String c3 _ => if Ascii.eqb c3 "/" then ("/", r1) else ("//", r2)
              | EmptyString => ("//", r2)
              end
            else ("/", r1)
        | EmptyString => ("/", r1)
        end
      else ("", p)
  | EmptyString => ("", p)
  end.

(** [str(PurePosixPath(a) / b)]: the two are joined, the root is split
    off, and of the parts between slashes the empty ones and the dots
    are dropped. *)
Definition path_str (a b : string) : string :=
  let '(root, rest) := splitroot (posix_join a b) in
  let parts :=
    List.filter (fun x => negb (String.eqb x "") && negb (String.eqb x "."))
                (split_at "/" EmptyString rest) in
  match root ++ String.concat "/" parts with
  | EmptyString => "."
  | shown => shown
  end.

(** [str(UPLOAD_DIR / f"{job_id}_{audio.filename}")] *)
Definition upload_path (job_id name : string) : string :=
  path_str "uploads" (job_id ++ "_" ++ name).

(** A string without a slash. *)
Fixpoint no_slash (s : string) : bool :=
  match s with
  | EmptyString => true
  | String c rest => negb (Ascii.eqb c "/") && no_slash rest
  end.

Section WithEnv.
Variable E : Env.

(** [os.remove(path)]: also a file that is there may not be removable. *)
Definition os_remove (path : string) : M unit :=
  s <- get_sys ;;
  match fs s !! path with
  | Some _ =>
      match remove_error E path with
      | Some e => raise e
      | None => set_fs (delete path (fs s))
      end
  | None =>
      raise (OSError ("[Errno 2] No such file or directory: " ++ repr (texts E) path))
  end.

(** [with open(file_path, "wb") as f: content = await audio.read();
    f.write(content)]. Opening the file creates or empties it; when
    reading the upload raises it stays empty, and when writing raises it
    holds what had been written. *)
Definition write_file (path : string) (audio : UploadFile) : M unit :=
  match open_error E path with
  | Some e => raise e
  | None =>
      s <- get_sys ;;
      set_fs (<[path := []]> (fs s)) ;;
      match read audio with
      | Raise e => raise e
      | Ok content =>
          s <- get_sys ;;
          match write_error E path content with
          | Some (e, n) => set_fs (<[path := take n content]> (fs s)) ;; raise e
          | None => set_fs (<[path := content]> (fs s))
          end
      end
  end.

Definition run_transcription (job_id file_path : string) : M unit :=
  try_except
    (setitem job_id (SetStatus processing) ;;
     setitem job_id (SetProgress 10) ;;
     setitem job_id (SetMessage "Transkription wird vorbereitet...") ;;
     let progress_callback (progress : Z) (message : string) : M unit :=
       setitem job_id (SetProgress progress) ;;
       setitem job_id (SetMessage message) in
     transcript <- transcribe_audio E file_path (Some progress_callback) ;;
     setitem job_id (SetStatus completed) ;;
     setitem job_id (SetProgress 100) ;;
     setitem job_id (SetMessage "Transkription abgeschlossen") ;;
     setitem job_id (SetTranscript transcript) ;;
     try_except (os_remove file_path) (fun _ => ret tt))
    (fun e =>
       setitem job_id (SetStatus failed) ;;
       setitem job_id (SetError (str_exn (texts E) e)) ;;
       setitem job_id (SetMessage ("Fehler: " ++ str_exn (texts E) e))).

Definition start_transcription (audio : UploadFile) : M TranscriptionJob :=
  if type_not_allowed (content_type audio)
     && negb (existsb (endswith (filename audio)) allowed_suffixes)
  then raise (HTTPException 400 "Ungültiger Dateityp. Erlaubt: MP3, WAV, M4A")
  else
    n <- draw_uuid ;;
    let job_id := uuid4 E n in
    let file_path := upload_path job_id (filename audio) in
    write_file file_path audio ;;
    s <- get_sys ;;
    let j := mkJob pending 0 "Audio hochgeladen" file_path None None in
    set_jobs (<[job_id := j]> (jobs s)) ;;
    emit (EvNew job_id j) ;;
    add_task job_id file_path ;;
    ret (mkResponse job_id pending 0 "Transkription gestartet" None None).

End WithEnv.

Definition get_transcription_status (job_id : string) : M TranscriptionJob :=
  s <- get_sys ;;
  match jobs s !! job_id with
  | None => raise (HTTPException 404 "Job nicht gefunden")
  | Some job =>
      ret (mkResponse job_id (status job) (progress job) (message job)
             (match transcript job with
              | Some ((_ :: _) as lines) => Some (map (fun line => line) lines)
              | _ => None
              end)
             (error job))
  end.

End Main.

(* ===================================================================== *)
(** * The life of one job, replayed from the log                           *)
(* ===================================================================== *)

Module Lifecycle.
Import Py Transcribe Runtime Pipeline Main.

(** The field assignments to [job_id] among the events. *)
Definition job_writes (job_id : string) (evs : list event) : list write :=
  omap (fun ev => match ev with
                  | EvSet i w => if decide (i = job_id) then Some w else None
                  | _ => None
                  end) evs.

(** The external calls among the events. *)
Definition calls (evs : list event) : list stage :=
  omap (fun ev => match ev with EvCall st => Some st | _ => None end) evs.

Definition replay (ws : list write) (j : job) : job :=
  fold_left (fun j w => apply_write w j) ws j.

(** The record after each prefix of the writes: every state the record
    is ever in, in order. *)
Fixpoint points (j : job) (ws : list write) : list job :=
  j :: match ws with
       | [] => []
       | w :: ws' => points (apply_write w j) ws'
       end.

(** The record [start_transcription] creates. *)
Definition initial_job (path : string) : job :=
  mkJob pending 0 "Audio hochgeladen" path None None.

(** A process state holding just this job. *)
Definition solo (job_id path : string) : sys :=
  mkSys {[ job_id := initial_job path ]} ∅ 0 [] [].

(** What the background task of a job does, in order: the log of
    [run_transcription] run on its own. *)
Definition script (E : Env) (job_id path : string) : list event :=
  log (run_transcription E job_id path (solo job_id path)).2.

(** [true] when the task of the job reaches [os.remove]. *)
Definition succeeds (E : Env) (job_id path : string) : bool :=
  match status (replay (job_writes job_id (script E job_id path)) (initial_job path)) with
  | completed => true
  | _ => false
  end.

Definition present {A} (o : option A) : bool :=
  match o with Some _ => true | None => false end.

Definition terminal (s : status_t) : bool :=
  match s with completed | failed => true | _ => false end.

(** Transcript and error agree with the status. *)
Definition consistent (j : job) : bool :=
  match status j with
  | completed => present (transcript j) && negb (present (error j))
  | failed => present (error j) && negb (present (transcript j))
  | pending | processing => negb (present (transcript j)) && negb (present (error j))
  end.

(** The part of [consistent] that holds between any two assignments. *)
Definition never_contradictory (j : job) : bool :=
  match status j with
  | completed => negb (present (error j))
  | failed => negb (present (transcript j))
  | pending | processing => negb (present (transcript j)) && negb (present (error j))
  end.

(** The values assigned to "progress", in order. *)
Definition progress_writes (ws : list write) : list Z :=
  omap (fun w => match w with SetProgress p => Some p | _ => None end) ws.

Fixpoint non_decreasing (l : list Z) : bool :=
  match l with
  | a :: (b :: _) as r => (a <=? b)%Z && non_decreasing r
  | _ => true
  end.

(** What [transcribe_audio] returns or raises; it depends neither on the
    callback nor on the state. *)
Definition pipeline_outcome (E : Env) (path : string)
  : result (list TranscriptLine) :=
  (transcribe_audio E path None (mkSys ∅ ∅ 0 [] [])).1.

(** The three assignments that open [run_transcription]. *)
Definition prelude (job_id : string) : list event :=
  [EvSet job_id (SetStatus processing);
   EvSet job_id (SetProgress 10);
   EvSet job_id (SetMessage "Transkription wird vorbereitet...")].

Definition checkpoint (job_id : string) (p : Z) (msg : string) : list event :=
  [EvSet job_id (SetProgress p); EvSet job_id (SetMessage msg)].

(** The calls and checkpoints of a run in which every stage succeeds, up
    to the return of [transcribe_audio]. *)
Definition full_body (E : Env) (job_id : string) : list event :=
  [EvCall StImport]
  ++ checkpoint job_id 5 ("Lade WhisperX Modell (" ++ WHISPER_MODEL E ++ ")...")
  ++ [EvCall StLoadModel]
  ++ checkpoint job_id 15 "Lade Audio..."
  ++ [EvCall StLoadAudio]
  ++ checkpoint job_id 25 "Transkription läuft..."
  ++ [EvCall StTranscribe]
  ++ checkpoint job_id 50 "Alignment läuft..."
  ++ [EvCall StLoadAlignModel; EvCall StAlign]
  ++ checkpoint job_id 65 "Sprechererkennung läuft..."
  ++ [EvCall StDiarizationPipeline; EvCall StDiarize]
  ++ checkpoint job_id 85 "Segmente werden zusammengeführt..."
  ++ [EvCall StAssignSpeakers]
  ++ checkpoint job_id 95 "Transkript wird erstellt...".

(** The closing assignments: lines 191-194 on success, 203-205 on failure. *)
Definition ending (E : Env) (job_id : string) (r : result (list TranscriptLine))
  : list event :=
  match r with
  | Ok t =>
      [EvSet job_id (SetStatus completed);
       EvSet job_id (SetProgress 100);
       EvSet job_id (SetMessage "Transkription abgeschlossen");
       EvSet job_id (SetTranscript t)]
  | Raise e =>
      [EvSet job_id (SetStatus failed);
       EvSet job_id (SetError (str_exn (texts E) e));
       EvSet job_id (SetMessage ("Fehler: " ++ str_exn (texts E) e))]
  end.

(** A computation is local to a job when, on every state that holds the
    job, it returns the same result, logs the same events, changes no
    other job, and leaves the record of the job as the replay of the
    assignments it logged. *)
Definition local {A} (job_id : string) (m : M A) : Prop :=
  exists (r : result A) (evs : list event)
         (g : gmap string (list N) -> gmap string (list N)),
    forall s j, jobs s !! job_id = Some j ->
      m s = (r, mkSys (<[job_id := replay (job_writes job_id evs) j]> (jobs s))
                      (g (fs s)) (uuids_drawn s) (tasks s) (log s ++ evs)).

(** The events a task of [job_id] can log: assignments to its own record
    and external calls. *)
Definition own (job_id : string) (ev : event) : Prop :=
  match ev with
  | EvSet i _ => i = job_id
  | EvCall _ => True
  | EvNew _ _ => False
  end.

(** The assignments among the events, whatever the job. *)
Definition writes_of (evs : list event) : list write :=
  omap (fun ev => match ev with EvSet _ w => Some w | _ => None end) evs.

(** The assignments of a task that got through [n] events of the full
    run before the pipeline returned or raised [r]. *)
Definition writes_upto (E : Env) (job_id : string) (n : nat)
    (r : result (list TranscriptLine)) : list write :=
  writes_of (prelude job_id) ++ writes_of (take n (full_body E job_id))
  ++ writes_of (ending E job_id r).

Definition stage_order : list stage :=
  [StImport; StLoadModel; StLoadAudio; StTranscribe; StLoadAlignModel;
   StAlign; StDiarizationPipeline; StDiarize; StAssignSpeakers].

(** The two errors [transcribe_audio] raises itself (lines 50 and 112). *)
Definition whisperx_missing : exn :=
  RuntimeError
    "WhisperX nicht installiert. Installieren Sie mit: uv sync --extra whisperx".

Definition token_error : exn :=
  RuntimeError
    ("HuggingFace Token nicht gesetzt. "
     ++ "Setzen Sie die HF_TOKEN Umgebungsvariable. "
     ++ "Token erstellen unter: https://huggingface.co/settings/tokens").














End Lifecycle.

(* ===================================================================== *)
(** * The server: endpoints and background tasks interleaved               *)
(* ===================================================================== *)

(** The endpoints run on the event loop and each background task on a
    worker thread. One step of the server is a whole call of an endpoint
    or one event of one task: an item assignment of a dictionary is the
    unit a task cannot be interrupted in. The deletion of the upload is
    not a step of this model. *)
Module Server.
Import Py Transcribe Runtime Pipeline Main Lifecycle.

Record conc := mkConc {
  state : sys;
  todo : gmap string (list event)     (* what each task has left to do *)
}.

Definition boot : conc := mkConc (mkSys ∅ ∅ 0 [] []) ∅.

(** One event of the task of a job, performed on the process state. *)
Definition perform (ev : event) (s : sys) : sys :=
  match ev with
  | EvSet job_id w => (setitem job_id w s).2
  | _ => (emit ev s).2
  end.

(** A request to [POST /api/transcribe]: on success the task that was
    handed to [BackgroundTasks] is started. *)
Definition submit (E : Env) (audio : UploadFile) (c : conc) : conc :=
  match start_transcription E audio (state c) with
  | (Ok _, s') =>
      match last (tasks s') with
      | Some (job_id, path) =>
          mkConc s' (<[job_id := script E job_id path]> (todo c))
      | None => mkConc s' (todo c)
      end
  | (Raise _, s') => mkConc s' (todo c)
  end.

(** The task of [job_id] performs its next event, if it has one. *)
Definition advance (job_id : string) (c : conc) : conc :=
  match todo c !! job_id with
  | Some (ev :: evs) => mkConc (perform ev (state c)) (<[job_id := evs]> (todo c))
  | _ => c
  end.

(** A request to [GET /api/transcribe/{job_id}]. *)
Definition poll (job_id : string) (c : conc) : result TranscriptionJob * conc :=
  let '(r, s') := get_transcription_status job_id (state c) in
  (r, mkConc s' (todo c)).

Inductive step (E : Env) : conc -> conc -> Prop :=
| step_submit audio c : step E c (submit E audio c)
| step_advance job_id c : step E c (advance job_id c)
| step_poll job_id c : step E c (poll job_id c).2.

Definition reachable (E : Env) (c : conc) : Prop := rtc (step E) boot c.

Fixpoint advance_n (n : nat) (job_id : string) (c : conc) : conc :=
  match n with
  | O => c
  | S n' => advance_n n' job_id (advance job_id c)
  end.

(** What holds of every state of the server: the identifiers of the
    jobs were drawn from [uuid4]; every record is the replay, on the
    record of its creation, of the part of its own task's script that
    has been performed; only existing jobs have tasks. *)
Definition inv (E : Env) (c : conc) : Prop :=
  (forall id j, jobs (state c) !! id = Some j ->
     exists k, (k < uuids_drawn (state c))%nat /\ id = uuid4 E k)
  /\ (forall id j, jobs (state c) !! id = Some j ->
       exists performed rest,
         todo c !! id = Some rest
         /\ script E id (file_path j) = (performed ++ rest)%list
         /\ j = replay (job_writes id performed) (initial_job (file_path j)))
  /\ (forall id rest, todo c !! id = Some rest ->
       is_Some (jobs (state c) !! id)).

(** What a poller is shown of [job_id]. *)
Definition seen (job_id : string) (c : conc) : result TranscriptionJob :=
  (poll job_id c).1.

End Server.

(* ===================================================================== *)
(** * A concrete environment                                               *)
(* ===================================================================== *)

Module Sample.
Import Py Transcribe Runtime Pipeline Main Lifecycle Server.

Fixpoint tally (n : nat) : string :=
  match n with
  | O => "job"
  | S n' => String "+"%char (tally n')
  end.

(** [repr] as it is on a string of letters, digits and punctuation
    without quotes or backslashes, and the text of an [HTTPException]
    as status and detail. *)
Definition plain_texts : Texts :=
  mkTexts (fun key => "'" ++ key ++ "'") (fun code detail => pretty code ++ ": " ++ detail).

Definition two_segments : list segment :=
  [mkSeg (Some (of_string "SPEAKER_00")) (Some (of_string " Guten Morgen. "));
   mkSeg None (Some (of_string "  "));
   mkSeg None (Some (of_string "Danke."))].

(** Every stage succeeds and the token is set. *)
Definition E_ok : Env :=
  mkEnv "large-v2" "auto" 16 "de" (Some "hf_token")
        tally (fun _ => None) (fun _ _ => None) (fun _ => None) plain_texts
        unit unit unit unit unit unit unit
        (Ok tt) false
        (fun _ _ _ _ => Ok tt) (fun _ => Ok tt) (fun _ _ _ _ => Ok tt)
        (fun _ _ => Ok tt) (fun _ _ _ _ => Ok tt)
        (fun _ _ => Ok tt) (fun _ _ => Ok tt)
        (fun _ _ => Ok two_segments).

(** As [E_ok], but no HuggingFace token is set. *)
Definition E_no_token : Env :=
  mkEnv "large-v2" "auto" 16 "de" None
        tally (fun _ => None) (fun _ _ => None) (fun _ => None) plain_texts
        unit unit unit unit unit unit unit
        (Ok tt) false
        (fun _ _ _ _ => Ok tt) (fun _ => Ok tt) (fun _ _ _ _ => Ok tt)
        (fun _ _ => Ok tt) (fun _ _ _ _ => Ok tt)
        (fun _ _ => Ok tt) (fun _ _ => Ok tt)
        (fun _ _ => Ok two_segments).

Definition sitzung : UploadFile :=
  mkUpload (Some "audio/mpeg") "sitzung.mp3" (Ok [73; 68; 51]%N).

(** The first submission on a fresh server, and what it leaves. *)
Definition job1 : string := "job".
Definition path1 : string := "uploads/job_sitzung.mp3".
Definition started : sys := (start_transcription E_ok sitzung (state boot)).2.
Definition response1 : TranscriptionJob :=
  mkResponse job1 pending 0 "Transkription gestartet" None None.
Definition started_no_token : sys :=
  (start_transcription E_no_token sitzung (state boot)).2.
(** The server after the first submission and 27 events of its task:
    the status has just been set to completed (line 191). *)
Definition mid_update : conc := advance_n 27 job1 (submit E_ok sitzung boot).

(** One event later, and at the end of the task. *)
Definition next_update : conc := advance job1 mid_update.
Definition finished : conc := advance_n 3 job1 mid_update.

Definition seen_mid_update : TranscriptionJob :=
  mkResponse job1 completed 95 "Transkript wird erstellt..." None None.

Definition seen_next_update : TranscriptionJob :=
  mkResponse job1 completed 100 "Transkript wird erstellt..." None None.

(** Two states that hold the same job but for the path of its upload. *)
Definition done_job (path : string) : job :=
  mkJob completed 100 "Transkription abgeschlossen" path
        (Some [mkLine (of_string "SPEAKER_00") (of_string "Guten Morgen.")]) None.

Definition holding (j : job) : sys := mkSys {[ job1 := j ]} ∅ 1 [] [].

Definition notes_txt : UploadFile :=
  mkUpload (Some "text/plain") "notes.txt" (Ok [104; 105]%N).

End Sample.

(* ===================================================================== *)
(** * The status machine and further sample environments                   *)
(* ===================================================================== *)

Module Machine.
Import Py Transcribe Runtime Pipeline Main Lifecycle Server Sample.

(** The changes of status between two successive states of a record:
    none, pending to processing, processing to a terminal status. *)
Definition allowed_step (a b : status_t) : bool :=
  match a, b with
  | pending, pending | processing, processing
  | completed, completed | failed, failed => true
  | pending, processing => true
  | processing, completed | processing, failed => true
  | _, _ => false
  end.

Fixpoint chain {A} (ok : A -> A -> bool) (l : list A) : bool :=
  match l with
  | a :: (b :: _) as r => ok a b && chain ok r
  | _ => true
  end.

Definition in_percent (p : Z) : bool := ((0 <=? p) && (p <=? 100))%Z.

(** As [E_ok], but every segment comes back without words. *)
Definition E_silent : Env :=
  mkEnv "large-v2" "auto" 16 "de" (Some "hf_token")
        tally (fun _ => None) (fun _ _ => None) (fun _ => None) plain_texts
        unit unit unit unit unit unit unit
        (Ok tt) false
        (fun _ _ _ _ => Ok tt) (fun _ => Ok tt) (fun _ _ _ _ => Ok tt)
        (fun _ _ => Ok tt) (fun _ _ _ _ => Ok tt)
        (fun _ _ => Ok tt) (fun _ _ => Ok tt)
        (fun _ _ => Ok [mkSeg (Some (of_string "SPEAKER_00")) (Some (of_string "   "));
                        mkSeg None None]).

(** WhisperX is not installed. *)
Definition E_no_whisperx : Env :=
  mkEnv "large-v2" "auto" 16 "de" (Some "hf_token")
        tally (fun _ => None) (fun _ _ => None) (fun _ => None) plain_texts
        unit unit unit unit unit unit unit
        (Raise (ImportError "No module named 'whisperx'")) false
        (fun _ _ _ _ => Ok tt) (fun _ => Ok tt) (fun _ _ _ _ => Ok tt)
        (fun _ _ => Ok tt) (fun _ _ _ _ => Ok tt)
        (fun _ _ => Ok tt) (fun _ _ => Ok tt)
        (fun _ _ => Ok two_segments).

(** The upload directory cannot be written. *)
Definition E_read_only : Env :=
  mkEnv "large-v2" "auto" 16 "de" (Some "hf_token")
        tally (fun _ => Some (OSError "Read-only file system"))
        (fun _ _ => None) (fun _ => None) plain_texts
        unit unit unit unit unit unit unit
        (Ok tt) false
        (fun _ _ _ _ => Ok tt) (fun _ => Ok tt) (fun _ _ _ _ => Ok tt)
        (fun _ _ => Ok tt) (fun _ _ _ _ => Ok tt)
        (fun _ _ => Ok tt) (fun _ _ => Ok tt)
        (fun _ _ => Ok two_segments).

(** As [E_ok], but the upload directory does not let a file be removed. *)
Definition E_locked : Env :=
  mkEnv "large-v2" "auto" 16 "de" (Some "hf_token")
        tally (fun _ => None) (fun _ _ => None)
        (fun path =>
           Some (OSError ("[Errno 13] Permission denied: " ++ repr plain_texts path)))
        plain_texts
        unit unit unit unit unit unit unit
        (Ok tt) false
        (fun _ _ _ _ => Ok tt) (fun _ => Ok tt) (fun _ _ _ _ => Ok tt)
        (fun _ _ => Ok tt) (fun _ _ _ _ => Ok tt)
        (fun _ _ => Ok tt) (fun _ _ => Ok tt)
        (fun _ _ => Ok two_segments).

Definition started_locked : sys :=
  (start_transcription E_locked sitzung (state boot)).2.

(** As [E_ok], but the disk is full after two bytes of a file. *)
Definition E_disk_full : Env :=
  mkEnv "large-v2" "auto" 16 "de" (Some "hf_token")
        tally (fun _ => None)
        (fun _ _ => Some (OSError "[Errno 28] No space left on device", 2%nat))
        (fun _ => None) plain_texts
        unit unit unit unit unit unit unit
        (Ok tt) false
        (fun _ _ _ _ => Ok tt) (fun _ => Ok tt) (fun _ _ _ _ => Ok tt)
        (fun _ _ => Ok tt) (fun _ _ _ _ => Ok tt)
        (fun _ _ => Ok tt) (fun _ _ => Ok tt)
        (fun _ _ => Ok two_segments).

(** An upload whose name ends in a slash, and one that cannot be read. *)
Definition slash_mp3 : UploadFile :=
  mkUpload (Some "audio/mpeg") "x.mp3/" (Ok [1; 2]%N).

Definition unreadable : UploadFile :=
  mkUpload (Some "audio/mpeg") "sitzung.mp3" (Raise (OSError "read failed")).

Definition started_slash : sys :=
  (start_transcription E_ok slash_mp3 (state boot)).2.

Definition started_silent : sys :=
  (start_transcription E_silent sitzung (state boot)).2.

Definition started_no_whisperx : sys :=
  (start_transcription E_no_whisperx sitzung (state boot)).2.

(** An allowed suffix with a content type outside the list, and the
    reverse. *)
Definition octet_mp3 : UploadFile :=
  mkUpload (Some "application/octet-stream") "aufnahme.mp3" (Ok [1; 2]%N).

Definition mpeg_bin : UploadFile :=
  mkUpload (Some "audio/mpeg") "aufnahme.bin" (Ok [1; 2]%N).

End Machine.

(* ===================================================================== *)
(** * The transcript file format, written out                              *)
(* ===================================================================== *)

(** The format [parse_transcript_file] reads, "[SPEAKER_XX]: text" with
    one transcript line per line of the file, as a writer would emit it. *)
Module Format.
Import Py Transcribe.
Local Open Scope list_scope.

Definition format_line (l : TranscriptLine) : pystr :=
  of_string "[" ++ speaker l ++ of_string "]: " ++ text l.

Definition format_transcript (ls : list TranscriptLine) : pystr :=
  concat (map (fun l => format_line l ++ [10%N]) ls).

(** A text as the pipeline and the parser produce it: not empty, without
    white space at either end. *)
Definition trimmed (s : pystr) : Prop := s <> [] /\ strip s = s.

(** A transcript line the format can carry: the speaker is "SPEAKER_"
    and decimal digits, the text is trimmed and has no line break. *)
Definition writable (is_decimal : N -> bool) (l : TranscriptLine) : Prop :=
  exists digits,
    speaker l = of_string "SPEAKER_" ++ digits
    /\ digits <> []
    /\ forallb is_decimal digits = true
    /\ trimmed (text l)
    /\ ~ In 10%N (text l) /\ ~ In 13%N (text l).

Definition hallo : TranscriptLine :=
  mkLine (of_string "SPEAKER_00") (of_string "Guten Morgen, Herr Vorsitzender.").

Definition antwort : TranscriptLine :=
  mkLine (of_string "SPEAKER_12") (of_string "Danke.").

End Format.

(* ===================================================================== *)
(** * summarize.py and the summary endpoint of main.py                     *)
(* ===================================================================== *)

Module Summarize.
Import Py Transcribe Runtime.
Local Open Scope list_scope.

(** String literals of the source that hold letters beyond ASCII are
    written as they are and decoded from UTF-8. *)
Definition utf8_step (st : nat * N * pystr) (b : N) : nat * N * pystr :=
  let '(need, acc, out) := st in
  match need with
  | S k =>
      let acc' := (acc * 64 + (b - 128))%N in
      match k with
      | O => (O, 0%N, out ++ [acc'])
      | S _ => (k, acc', out)
      end
  | O =>
      if (b <? 128)%N then (O, 0%N, out ++ [b])
      else if (b <? 224)%N then (1, (b - 192)%N, out)
      else if (b <? 240)%N then (2, (b - 224)%N, out)
      else (3, (b - 240)%N, out)
  end.

Definition lit (s : string) : pystr :=
  (fold_left utf8_step (of_string s) (O, 0%N, [])).2.

(** [str(n)] for an integer. *)
Definition str_int (n : Z) : pystr := of_string (pretty n).

(** [sep.join(parts)] *)
Fixpoint join (sep : pystr) (parts : list pystr) : pystr :=
  match parts with
  | [] => []
  | [p] => p
  | p :: rest => p ++ sep ++ join sep rest
  end.

(** The keyword arguments of [client.chat.completions.create] together
    with those of the client; the temperature is kept as the literal of
    the source. *)
Record chat_request := mkChat {
  base_url : pystr;
  api_key : pystr;
  model : pystr;
  messages : list (pystr * pystr);      (* role, content *)
  max_tokens : Z;
  temperature : string
}.

(** What the module obtains from outside: its two configuration
    variables, the import of the client library, the chat service,
    which answers a request with the contents of the choices of the
    response or raises, and the texts of exceptions. *)
Record LLM := mkLLM {
  LLM_BASE_URL : pystr;
  LLM_MODEL : pystr;
  import_openai : result unit;
  chat : chat_request -> result (list (option pystr));
  llm_texts : Texts
}.

(** Computations that send chat requests: the state is the list of the
    requests sent so far. *)
Definition L (A : Type) : Type := list chat_request -> result A * list chat_request.

Definition lret {A} (a : A) : L A := fun sent => (Ok a, sent).
Definition lraise {A} (e : exn) : L A := fun sent => (Raise e, sent).
Definition lbind {A B} (m : L A) (k : A -> L B) : L B :=
  fun sent => match m sent with
              | (Ok a, sent') => k a sent'
              | (Raise e, sent') => (Raise e, sent')
              end.
Definition ltry {A} (m : L A) (h : exn -> L A) : L A :=
  fun sent => match m sent with
              | (Ok a, sent') => (Ok a, sent')
              | (Raise e, sent') => h e sent'
              end.

Definition system_prompt : pystr :=
  lit "Du bist ein Experte für die Erstellung von Sitzungsprotokollen für deutsche Kommunalverwaltungen.

Deine Aufgabe ist es, aus einem Transkript eines Tagesordnungspunktes (TOP) eine prägnante Zusammenfassung zu erstellen.

Regeln:
- Schreibe in sachlichem, amtlichem Deutsch
- Fasse die wichtigsten Diskussionspunkte zusammen
- Erwähne getroffene Beschlüsse oder Abstimmungsergebnisse
- Nenne wichtige Positionen der Teilnehmer (ohne Namen, nur Funktionen wenn bekannt)
- Halte die Zusammenfassung auf 3-5 Absätze
- Vermeide wörtliche Zitate, paraphrasiere stattdessen
- Beginne direkt mit dem Inhalt, keine Einleitung wie "
  ++ [34%N] ++ lit "In dieser Sitzung..." ++ [34%N; 10%N].

Definition user_prompt (top_title transcript_text : pystr) : pystr :=
  lit "Erstelle eine Zusammenfassung für folgenden Tagesordnungspunkt:

TOP: " ++ top_title ++ lit "

Transkript:
" ++ transcript_text ++ lit "

Zusammenfassung:".

Section WithLLM.
Variable W : LLM.

(** The request [summarize_segment] sends for a title and a text. *)
Definition request_for (top_title transcript_text : pystr) : chat_request :=
  mkChat (LLM_BASE_URL W) (of_string "ollama") (LLM_MODEL W)
         [(of_string "system", system_prompt);
          (of_string "user", user_prompt top_title transcript_text)]
         1024 "0.3".

(** [client.chat.completions.create(...)]: the request is sent, then the
    service answers or raises. *)
Definition create (req : chat_request) : L (list (option pystr)) :=
  fun sent => (chat W req, sent ++ [req]).

Definition summarize_segment (top_title transcript_text : pystr) : L pystr :=
  lbind
    (ltry (fun sent => (import_openai W, sent))
       (fun e => match e with
                 | ImportError _ =>
                     lraise (RuntimeError
                       "OpenAI client nicht installiert. Installieren Sie mit: uv add openai")
                 | _ => lraise e
                 end))
    (fun _ =>
       lbind (create (request_for top_title transcript_text))
         (fun choices =>
            match choices with
            | [] => lraise (OtherError "list index out of range")
            | content :: _ =>
                (* [content or ""] *)
                lret (match content with
                      | Some ((_ :: _) as c) => c
                      | _ => []
                      end)
            end)).

(** [tops[top_idx] if top_idx < len(tops) else f"TOP {top_idx + 1}"],
    with the indexing of Python lists: a negative index counts from the
    end, an index before the start raises [IndexError]. *)
Definition top_title_for (tops : list pystr) (top_idx : Z) : result pystr :=
  if (top_idx <? Z.of_nat (length tops))%Z then
    let i := if (top_idx <? 0)%Z then (top_idx + Z.of_nat (length tops))%Z
             else top_idx in
    if (i <? 0)%Z then Raise (OtherError "list index out of range")
    else match tops !! Z.to_nat i with
         | Some t => Ok t
         | None => Raise (OtherError "list index out of range")
         end
  else Ok (of_string "TOP " ++ str_int (top_idx + 1)).

(** [d[k] = v] on a dictionary kept in insertion order. *)
Fixpoint dict_set (d : list (Z * pystr)) (k : Z) (v : pystr) : list (Z * pystr) :=
  match d with
  | [] => [(k, v)]
  | (k', v') :: d' => if (k' =? k)%Z then (k, v) :: d' else (k', v') :: dict_set d' k v
  end.

(** The loop of [summarize_all_segments] over [segments.items()]. *)
Fixpoint summarize_items (tops : list pystr) (items : list (Z * pystr))
    (summaries : list (Z * pystr)) : L (list (Z * pystr)) :=
  match items with
  | [] => lret summaries
  | (top_idx, transcript_text) :: rest =>
      if truthy (strip transcript_text) then
        match top_title_for tops top_idx with
        | Raise e => lraise e
        | Ok top_title =>
            lbind (summarize_segment top_title transcript_text)
              (fun summary =>
                 summarize_items tops rest (dict_set summaries top_idx summary))
        end
      else summarize_items tops rest summaries
  end.

Definition summarize_all_segments (tops : list pystr)
    (segments : list (Z * pystr)) : L (list (Z * pystr)) :=
  summarize_items tops segments [].

(** main.py: the request model and the endpoint [POST /api/summarize]. *)
Record SummarizeRequest := mkSummarize {
  top_title : pystr;
  lines : list TranscriptLine
}.

Definition generate_summary (request : SummarizeRequest) : L pystr :=
  match lines request with
  | [] => lraise (HTTPException 400 "Keine Zeilen zum Zusammenfassen")
  | _ :: _ =>
      let text :=
        join [10%N]
          (map (fun line => speaker line ++ of_string ": " ++ text line)
               (lines request)) in
      ltry (summarize_segment (top_title request) text)
        (fun e =>
           lraise (HTTPException 500
                     ("Fehler bei der Zusammenfassung: "
                      ++ str_exn (llm_texts W) e)%string))
  end.

End WithLLM.

(** The text the endpoint hands to [summarize_segment]. *)
Definition joined (request : SummarizeRequest) : pystr :=
  join [10%N]
    (map (fun line => speaker line ++ of_string ": " ++ text line)
         (lines request)).

(** The title of an agenda item whose index is not negative. *)
Definition title_of (tops : list pystr) (top_idx : Z) : pystr :=
  match tops !! Z.to_nat top_idx with
  | Some t => t
  | None => of_string "TOP " ++ str_int (top_idx + 1)
  end.

(** The segments with text, which are the ones summarized. *)
Definition spoken (item : Z * pystr) : bool := truthy (strip item.2).

(** A service that answers every request with one choice. *)
Definition always_answers (W : LLM) : Prop :=
  import_openai W = Ok tt
  /\ forall req, exists content more, chat W req = Ok (content :: more).

(** What [summarize_segment] returns for the answer of the service. *)
Definition summary_of (W : LLM) (req : chat_request) : pystr :=
  match chat W req with
  | Ok (Some ((_ :: _) as c) :: _) => c
  | _ => []
  end.

(** The request sent, and the entry of the result, for a segment. *)
Definition request_of (W : LLM) (tops : list pystr) (item : Z * pystr)
  : chat_request :=
  request_for W (title_of tops item.1) item.2.

Definition entry_of (W : LLM) (tops : list pystr) (item : Z * pystr)
  : Z * pystr :=
  (item.1, summary_of W (request_of W tops item)).

Definition W_echo : LLM :=
  mkLLM (of_string "http://localhost:11434/v1") (of_string "qwen3:8b") (Ok tt)
        (fun req => Ok [Some (of_string "Der Rat beschliesst den Haushalt.")])
        (mkTexts (fun key => "'" ++ key ++ "'")%string
                 (fun code detail => pretty code ++ ": " ++ detail)%string).

Definition W_down : LLM :=
  mkLLM (of_string "http://localhost:11434/v1") (of_string "qwen3:8b") (Ok tt)
        (fun req => Raise (OtherError "Connection error."))
        (mkTexts (fun key => "'" ++ key ++ "'")%string
                 (fun code detail => pretty code ++ ": " ++ detail)%string).

Definition haushalt : SummarizeRequest :=
  mkSummarize (of_string "Haushalt 2025")
    [mkLine (of_string "SPEAKER_00") (of_string "Wir kommen zum Haushalt.");
     mkLine (of_string "SPEAKER_01") (of_string "Ich beantrage die Abstimmung.")].

Definition tagesordnung : list pystr :=
  [of_string "Eroeffnung"; of_string "Haushalt 2025"].

Definition abschnitte : list (Z * pystr) :=
  [(0%Z, of_string "Die Sitzung ist eroeffnet.");
   (1%Z, of_string "   ");
   (2%Z, of_string "Verschiedenes wurde besprochen.")].

End Summarize.

(* ===================================================================== *)
(** * telemetry.py                                                         *)
(* ===================================================================== *)

Module Telemetry.
Import Py Runtime.
Local Open Scope list_scope.

(** A request built with [urllib.request.Request]; the body stands for
    the UTF-8 bytes of the text it holds. *)
Record http_request := mkHttp {
  url : string;
  body : pystr;
  headers : list (string * string);
  method : string;
  timeout : Z
}.

Inductive level := DEBUG | INFO | WARNING.

(** What the functions of the module act on: the files under the backup
    directory, the requests made to the webhook, and the records handed
    to the logger. *)
Record world := mkWorld {
  files : gmap string pystr;
  posts : list http_request;
  logged : list (level * string)
}.

Definition T (A : Type) : Type := world -> result A * world.

Definition tret {A} (a : A) : T A := fun w => (Ok a, w).
Definition traise {A} (e : exn) : T A := fun w => (Raise e, w).
Definition tbind {A B} (m : T A) (k : A -> T B) : T B :=
  fun w => match m w with
           | (Ok a, w') => k a w'
           | (Raise e, w') => (Raise e, w')
           end.
Definition ttry {A} (m : T A) (h : exn -> T A) : T A :=
  fun w => match m w with
           | (Ok a, w') => (Ok a, w')
           | (Raise e, w') => h e w'
           end.
Definition tlift {A} (r : result A) : T A := fun w => (r, w).
Definition log_at (l : level) (msg : string) : T unit :=
  fun w => (Ok tt, mkWorld (files w) (posts w) (logged w ++ [(l, msg)])).

(** The UTF-8 codec refuses a text that holds a surrogate code point. *)
Definition encodable (s : pystr) : bool :=
  forallb (fun c => negb ((55296 <=? c) && (c <=? 57343))%N) s.

Section WithFloat.
(** Python floats are only stored and passed on. *)
Variable float : Type.

Record TelemetryEvent := mkEvent {
  timestamp : string;
  app_version : string;
  gpu_name : option string;
  gpu_vram_gb : option float;
  device_type : string;
  whisper_model : option string;
  whisper_batch_size : option Z;
  audio_duration_seconds : option float;
  transcription_duration_seconds : option float;
  transcript_line_count : option Z;
  transcript_char_count : option Z;
  llm_model : option string;
  system_prompt : option string;
  top_count : option Z;
  summarization_duration_seconds : option float;
  protocol_char_count : option Z;
  success : bool;
  error : option string
}.

(** What the module obtains from outside: its configuration, the clock,
    [json.dumps], the file system's verdict on creating the directory
    and opening the backup file, the texts of exceptions,
    [urlopen] (building the request and opening it: it answers with the
    status of the response or raises), and torch. *)
Record Host := mkHost {
  TELEMETRY_WEBHOOK_URL : string;
  APP_VERSION : string;
  now_utc_iso : string;                  (* datetime.now(timezone.utc).isoformat() *)
  today : string;                        (* datetime.now().strftime('%Y%m%d') *)
  json_dumps : TelemetryEvent -> result pystr;
  mkdir_error : option exn;
  open_append_error : string -> option exn;
  codec_message : pystr -> string;       (* str(UnicodeEncodeError) *)
  host_texts : Texts;
  urlopen : http_request -> result Z;
  is_url_error : exn -> bool;            (* isinstance(e, urllib.error.URLError) *)
  import_torch : result unit;
  cuda_available : result bool;
  device_name : result string;
  total_memory : result Z;
  gigabytes : Z -> float                 (* round(vram_bytes / (1024**3), 1) *)
}.

Variable H : Host.

(** [TelemetryEvent()] with its default factories. *)
Definition new_event : TelemetryEvent :=
  mkEvent (now_utc_iso H) (APP_VERSION H) None None "cpu" None None
          None None None None None None None None None true None.

Definition get_gpu_info : T (option string * option float * string) :=
  ttry
    (tbind (tlift (import_torch H)) (fun _ =>
     tbind (tlift (cuda_available H)) (fun available =>
     if available : bool then
       tbind (tlift (device_name H)) (fun name =>
       tbind (tlift (total_memory H)) (fun vram_bytes =>
       tret (Some name, Some (gigabytes H vram_bytes), "cuda"%string)))
     else tret (None, None, "cpu"%string))))
    (fun e =>
       tbind (log_at WARNING
                ("Failed to get GPU info: " ++ str_exn (host_texts H) e)%string)
         (fun _ => tret (None, None, "cpu"%string))).

(** [s.encode("utf-8")], also done by a file opened with this encoding. *)
Definition encode_utf8 (s : pystr) : result pystr :=
  if encodable s then Ok s else Raise (OtherError (codec_message H s)).

Definition backup_file : string :=
  ("telemetry_backup/telemetry_" ++ today H ++ ".jsonl")%string.

(** [open(path, "a")]: the file is created when it is not there. *)
Definition open_append (path : string) : T unit :=
  fun w => match open_append_error H path with
           | Some e => (Raise e, w)
           | None =>
               (Ok tt, mkWorld (<[path := default [] (files w !! path)]> (files w))
                               (posts w) (logged w))
           end.

Definition write_append (path : string) (data : pystr) : T unit :=
  fun w => match encode_utf8 data with
           | Ok data =>
               (Ok tt, mkWorld (<[path := default [] (files w !! path) ++ data]> (files w))
                               (posts w) (logged w))
           | Raise e => (Raise e, w)
           end.

Definition _save_backup (event : TelemetryEvent) : T unit :=
  ttry
    (tbind (tlift (match mkdir_error H with Some e => Raise e | None => Ok tt end))
       (fun _ =>
     tbind (open_append backup_file) (fun _ =>
     tbind (tlift (json_dumps H event)) (fun text =>
     tbind (write_append backup_file (text ++ [10%N])) (fun _ =>
     log_at INFO ("Telemetry backup saved to " ++ backup_file)%string)))))
    (fun e => log_at WARNING
                ("Failed to save telemetry backup: " ++ str_exn (host_texts H) e)%string).

Definition post (req : http_request) : T Z :=
  fun w => (urlopen H req, mkWorld (files w) (posts w ++ [req]) (logged w)).

Definition _send_to_webhook (event : TelemetryEvent) : T bool :=
  match TELEMETRY_WEBHOOK_URL H with
  | EmptyString =>
      tbind (log_at DEBUG "Telemetry webhook URL not configured, skipping send")
        (fun _ => tret false)
  | String _ _ =>
      ttry
        (tbind (tlift (json_dumps H event)) (fun text =>
         tbind (tlift (encode_utf8 text)) (fun data =>
         tbind (post (mkHttp (TELEMETRY_WEBHOOK_URL H) data
                             [("Content-Type", "application/json")] "POST" 10))
           (fun status =>
              if (status =? 200)%Z then
                tbind (log_at INFO "Telemetry sent successfully") (fun _ => tret true)
              else
                tbind (log_at WARNING
                         ("Telemetry webhook returned status " ++ pretty status)%string)
                  (fun _ => tret false)))))
        (fun e =>
           (* both handlers log a warning and return False *)
           tbind (log_at WARNING
                    ((if is_url_error H e
                      then "Failed to send telemetry (network error): "
                      else "Failed to send telemetry: ")
                     ++ str_exn (host_texts H) e)%string)
             (fun _ => tret false))
  end.

(** The function [_send] that [send_telemetry] runs on its thread. *)
Definition _send (event : TelemetryEvent) : T unit :=
  tbind (_save_backup event) (fun _ =>
  tbind (_send_to_webhook event) (fun _ => tret tt)).

(** [TelemetryCollector._set_hardware_info] *)
Definition _set_hardware_info (event : TelemetryEvent) : T TelemetryEvent :=
  tbind get_gpu_info (fun info =>
    let '(name, vram_gb, device) := info in
    tret (mkEvent (timestamp event) (app_version event) name vram_gb device
            (whisper_model event) (whisper_batch_size event)
            (audio_duration_seconds event) (transcription_duration_seconds event)
            (transcript_line_count event) (transcript_char_count event)
            (llm_model event) (system_prompt event) (top_count event)
            (summarization_duration_seconds event) (protocol_char_count event)
            (success event) (error event))).

(** [TelemetryCollector()]: the collector is the event it holds. *)
Definition TelemetryCollector : T TelemetryEvent := _set_hardware_info new_event.

(** The setters of a collector, with their arguments. *)
Inductive setter :=
| set_whisper_config (model : string) (batch_size : Z)
| set_transcription_metrics (audio_duration transcription_duration : float)
    (line_count char_count : Z)
| set_summarization_metrics (model prompt : string) (tops : Z)
    (summarization_duration : float) (protocol_chars : Z)
| set_error (message : string).

Definition call_setter (event : TelemetryEvent) (c : setter) : TelemetryEvent :=
  match c with
  | set_whisper_config model batch_size =>
      mkEvent (timestamp event) (app_version event) (gpu_name event)
        (gpu_vram_gb event) (device_type event)
        (Some model) (Some batch_size)
        (audio_duration_seconds event) (transcription_duration_seconds event)
        (transcript_line_count event) (transcript_char_count event)
        (llm_model event) (system_prompt event) (top_count event)
        (summarization_duration_seconds event) (protocol_char_count event)
        (success event) (error event)
  | set_transcription_metrics audio transcription line_count char_count =>
      mkEvent (timestamp event) (app_version event) (gpu_name event)
        (gpu_vram_gb event) (device_type event)
        (whisper_model event) (whisper_batch_size event)
        (Some audio) (Some transcription) (Some line_count) (Some char_count)
        (llm_model event) (system_prompt event) (top_count event)
        (summarization_duration_seconds event) (protocol_char_count event)
        (success event) (error event)
  | set_summarization_metrics model prompt tops duration chars =>
      mkEvent (timestamp event) (app_version event) (gpu_name event)
        (gpu_vram_gb event) (device_type event)
        (whisper_model event) (whisper_batch_size event)
        (audio_duration_seconds event) (transcription_duration_seconds event)
        (transcript_line_count event) (transcript_char_count event)
        (Some model) (Some prompt) (Some tops) (Some duration) (Some chars)
        (success event) (error event)
  | set_error message =>
      mkEvent (timestamp event) (app_version event) (gpu_name event)
        (gpu_vram_gb event) (device_type event)
        (whisper_model event) (whisper_batch_size event)
        (audio_duration_seconds event) (transcription_duration_seconds event)
        (transcript_line_count event) (transcript_char_count event)
        (llm_model event) (system_prompt event) (top_count event)
        (summarization_duration_seconds event) (protocol_char_count event)
        false (Some message)
  end.

(** The messages of the calls of [set_error] among some calls, in order. *)
Definition error_messages (calls : list setter) : list string :=
  omap (fun c => match c with set_error message => Some message | _ => None end) calls.

End WithFloat.

Arguments mkEvent {float}.
Arguments _set_hardware_info {float}.
Arguments TelemetryCollector {float}.
Arguments call_setter {float}.
Arguments error_messages {float}.
Arguments set_error {float}.
Arguments set_whisper_config {float}.
Arguments new_event {float}.
Arguments get_gpu_info {float}.
Arguments encode_utf8 {float}.
Arguments backup_file {float}.
Arguments _save_backup {float}.
Arguments _send_to_webhook {float}.
Arguments _send {float}.

Definition empty_world : world := mkWorld ∅ [] [].

(** A host with a webhook that answers 200 and a writable directory; the
    events are written as their time stamp. *)
Definition host_ok : Host unit :=
  mkHost unit "https://example.org/hook" "0.1.0" "2025-01-01T00:00:00+00:00" "20250101"
         (fun ev => Ok (of_string (timestamp unit ev)))
         None (fun _ => None) (fun _ => "surrogates not allowed")
         (mkTexts (fun key => "'" ++ key ++ "'")%string
                  (fun code detail => pretty code ++ ": " ++ detail)%string)
         (fun _ => Ok 200%Z) (fun _ => false)
         (Raise (ImportError "No module named 'torch'")) (Ok false)
         (Ok "none") (Ok 0%Z) (fun _ => tt).

(** No webhook is configured and the webhook host is unreachable. *)
Definition host_offline : Host unit :=
  mkHost unit "" "0.1.0" "2025-01-01T00:00:00+00:00" "20250101"
         (fun ev => Ok (of_string (timestamp unit ev)))
         None (fun _ => None) (fun _ => "surrogates not allowed")
         (mkTexts (fun key => "'" ++ key ++ "'")%string
                  (fun code detail => pretty code ++ ": " ++ detail)%string)
         (fun _ => Raise (OSError "unreachable")) (fun _ => true)
         (Raise (ImportError "No module named 'torch'")) (Ok false)
         (Ok "none") (Ok 0%Z) (fun _ => tt).

End Telemetry.

(* ===================================================================== *)
(** * Facts about Python strings                                           *)
(* ===================================================================== *)

Module PyFacts.
Import Py.
Local Open Scope list_scope.

Lemma lstrip_suffix (s : pystr) : exists p, s = p ++ lstrip s.
Proof.
  induction s as [|c r [p Hp]]; simpl.
  - exists []. reflexivity.
  - destruct (is_space c).
    + exists (c :: p). simpl. congruence.
    + exists []. reflexivity.
Qed.

Lemma lstrip_In (s : pystr) (c : N) : In c (lstrip s) -> In c s.
Proof.
  destruct (lstrip_suffix s) as [p Hp]. intros Hc.
  rewrite Hp. apply in_or_app. right. exact Hc.
Qed.

Lemma rstrip_In (s : pystr) (c : N) : In c (rstrip s) -> In c s.
Proof.
  unfold rstrip. intros Hc.
  apply in_rev in Hc. apply lstrip_In in Hc. apply in_rev in Hc. exact Hc.
Qed.

Lemma strip_In (s : pystr) (c : N) : In c (strip s) -> In c s.
Proof.
  unfold strip. intros Hc. apply lstrip_In. apply rstrip_In. exact Hc.
Qed.

Lemma lstrip_idem (s : pystr) : lstrip (lstrip s) = lstrip s.
Proof.
  induction s as [|c r IH]; simpl; [reflexivity|].
  destruct (is_space c) eqn:Hc; [exact IH|].
  simpl. rewrite Hc. reflexivity.
Qed.

Lemma strip_lstrip (s : pystr) : strip (lstrip s) = strip s.
Proof. unfold strip. rewrite lstrip_idem. reflexivity. Qed.

(** A string of blanks trims to nothing. *)
Lemma lstrip_blank (s : pystr) :
  forallb is_space s = true -> lstrip s = [].
Proof.
  induction s as [|c r IH]; simpl; [reflexivity|].
  destruct (is_space c); simpl; [exact IH | discriminate].
Qed.

Lemma strip_blank (s : pystr) : forallb is_space s = true -> strip s = [].
Proof. intros H. unfold strip. rewrite lstrip_blank by exact H. reflexivity. Qed.

(** Trimming a line read from a file removes its line feed: what is left
    holds none. *)
Lemma lstrip_line (b : pystr) :
  ~ In 10%N b ->
  lstrip (b ++ [10%N]) = [] \/
  exists b', lstrip (b ++ [10%N]) = b' ++ [10%N] /\ ~ In 10%N b'.
Proof.
  induction b as [|c r IH]; intros Hb; simpl.
  - left. reflexivity.
  - destruct (is_space c).
    + apply IH. intros H. apply Hb. right. exact H.
    + right. exists (c :: r). split; [reflexivity | exact Hb].
Qed.

Lemma rstrip_line (b : pystr) : rstrip (b ++ [10%N]) = rstrip b.
Proof. unfold rstrip. rewrite rev_app_distr. reflexivity. Qed.

Lemma strip_line_no_newline (b : pystr) :
  ~ In 10%N b -> ~ In 10%N (strip (b ++ [10%N])).
Proof.
  intros Hb. unfold strip.
  destruct (lstrip_line b Hb) as [-> | (b' & -> & Hb')].
  - simpl. tauto.
  - rewrite rstrip_line. intros H. apply Hb'. apply rstrip_In. exact H.
Qed.

Lemma strip_prefix_In (pre s r : pystr) (c : N) :
  strip_prefix pre s = Some r -> In c r -> In c s.
Proof.
  revert s. induction pre as [|p pre IH]; intros s; simpl.
  - intros [= ->]. tauto.
  - destruct s as [|x s']; [discriminate|].
    destruct (p =? x)%N; [|discriminate].
    intros H Hc. right. eapply IH; eassumption.
Qed.

Lemma span_ext (p q : N -> bool) (s : pystr) :
  (forall c, In c s -> p c = q c) -> span p s = span q s.
Proof.
  induction s as [|c r IH]; intros H; simpl; [reflexivity|].
  rewrite <- (H c) by (left; reflexivity).
  rewrite IH by (intros x Hx; apply H; right; exact Hx).
  reflexivity.
Qed.

Lemma span_In_r (p : N -> bool) (s a b : pystr) (c : N) :
  span p s = (a, b) -> In c b -> In c s.
Proof.
  revert a b. induction s as [|x r IH]; intros a b; simpl.
  - intros [= <- <-]. tauto.
  - destruct (p x).
    + destruct (span p r) as [a' b'] eqn:Hs. intros [= <- <-] Hc.
      right. eapply IH; [reflexivity | exact Hc].
    + intros [= <- <-]. tauto.
Qed.

End PyFacts.

(* ===================================================================== *)
(** * The conversion loop and the parser                                   *)
(* ===================================================================== *)

Module TranscribeFacts.
Import Py Transcribe PyFacts.
Local Open Scope list_scope.
Local Open Scope nat_scope.

Lemma convert_fold (segs : list segment) (acc : list TranscriptLine) :
  fold_left convert_step segs acc
  = acc ++ map seg_line (List.filter seg_kept segs).
Proof.
  revert acc. induction segs as [|seg segs IH]; intros acc; simpl.
  - rewrite app_nil_r. reflexivity.
  - rewrite IH. unfold convert_step, seg_kept, seg_line, seg_trimmed.
    destruct (truthy (strip (default [] (seg_text seg)))); simpl.
    + rewrite <- app_assoc. reflexivity.
    + reflexivity.
Qed.

Lemma filter_split_length {A} (f : A -> bool) (l : list A) :
  length (List.filter f l) + length (List.filter (fun x => negb (f x)) l)
  = length l.
Proof.
  induction l as [|x l IH]; simpl; [reflexivity|].
  destruct (f x); simpl; lia.
Qed.

(** C4. The final assembly keeps, in order, exactly the segments whose
    trimmed text is not empty: the number of lines is the number of
    segments minus the number of those with empty trimmed text; each line
    carries the trimmed text of its segment, and the speaker of the
    segment or "UNKNOWN" when the segment has none. *)
Theorem convert_segments_spec (segs : list segment) :
  convert_segments segs = map seg_line (List.filter seg_kept segs)
  /\ length (convert_segments segs)
     = length segs - length (List.filter (fun s => negb (seg_kept s)) segs)
  /\ (forall seg,
        text (seg_line seg) = strip (default [] (seg_text seg))
        /\ (seg_kept seg = false <-> strip (default [] (seg_text seg)) = [])
        /\ (seg_speaker seg = None -> speaker (seg_line seg) = of_string "UNKNOWN")
        /\ (forall sp, seg_speaker seg = Some sp -> speaker (seg_line seg) = sp)).
Proof.
  assert (Heq : convert_segments segs = map seg_line (List.filter seg_kept segs)).
  { unfold convert_segments. rewrite convert_fold. reflexivity. }
  split; [exact Heq|]. split.
  - rewrite Heq, length_map.
    pose proof (filter_split_length seg_kept segs). lia.
  - intros seg. unfold seg_line, seg_kept, seg_trimmed. simpl.
    split; [reflexivity|]. split; [|split].
    + destruct (strip (default [] (seg_text seg))); simpl; split; congruence.
    + intros ->. reflexivity.
    + intros sp ->. reflexivity.
Qed.

Section RegexFacts.
Variable is_decimal : N -> bool.
Hypothesis decimal_ascii :
  forall c, (c < 128)%N -> is_decimal c = ascii_digit c.

Local Abbreviation re_match := (re_match is_decimal).
Local Abbreviation run_length := (run_length is_decimal).

Lemma bracket_not_decimal : is_decimal 93 = false.
Proof. rewrite decimal_ascii by reflexivity. reflexivity. Qed.

(** Literal characters are matched one by one, with no choice. *)
Lemma re_match_literals (pre : pystr) (p : pattern) (s : pystr) :
  re_match (map (fun c => (false, Single (Lit c))) pre ++ p) s
  = match strip_prefix pre s with
    | Some r => re_match p r
    | None => None
    end.
Proof.
  revert s. induction pre as [|x pre IH]; intros s; [reflexivity|].
  destruct s as [|c s']; [reflexivity|].
  change (re_match (map _ (x :: pre) ++ p) (c :: s'))
    with (if (x =? c)%N
          then push false [c] <$> re_match (map (fun c => (false, Single (Lit c))) pre ++ p) s'
          else None).
  simpl strip_prefix. destruct (x =? c)%N; [|reflexivity].
  rewrite IH. destruct (strip_prefix pre s') as [r|]; [|reflexivity].
  destruct (re_match p r); reflexivity.
Qed.

Lemma backtrack_none k cap lo n s :
  (forall m, m <= n -> k (drop m s) = None) ->
  backtrack k cap lo n s = None.
Proof.
  induction n as [|n IH]; intros H; simpl.
  - rewrite (H 0) by lia. destruct (lo <=? 0); reflexivity.
  - rewrite (H (S n)) by lia. rewrite IH by (intros m Hm; apply H; lia).
    destruct (lo <=? S n); reflexivity.
Qed.

(** When the rest of the pattern fails after every shorter run, the
    longest run decides. *)
Lemma backtrack_longest k cap lo n s :
  (forall m, m < n -> k (drop m s) = None) ->
  backtrack k cap lo n s
  = if lo <=? n then push cap (take n s) <$> k (drop n s) else None.
Proof.
  intros H. destruct n as [|n]; simpl.
  - destruct (lo <=? 0); [|reflexivity].
    destruct (push cap (take 0 s) <$> k (drop 0 s)); reflexivity.
  - rewrite (backtrack_none k cap lo n s) by (intros m Hm; apply H; lia).
    destruct (lo <=? S n); [|reflexivity].
    destruct (push cap (take (S n) s) <$> k (drop (S n) s)); reflexivity.
Qed.

(** When the rest of the pattern always succeeds, the longest run is
    taken. *)
Lemma backtrack_last k cap lo n s :
  (forall u, k u = Some []) ->
  backtrack k cap lo n s
  = if lo <=? n then Some (push cap (take n s) []) else None.
Proof.
  intros Hk. induction n as [|n IH]; simpl; rewrite Hk.
  - destruct (lo <=? 0); reflexivity.
  - destruct (lo <=? S n) eqn:Hlo; [reflexivity|].
    rewrite IH. apply Nat.leb_gt in Hlo.
    destruct (lo <=? n) eqn:Hn; [|reflexivity].
    apply Nat.leb_le in Hn. lia.
Qed.

Lemma span_run (a : atom) (s : pystr) :
  span (atom_ok is_decimal a) s = (take (run_length a s) s, drop (run_length a s) s).
Proof.
  induction s as [|c r IH]; simpl; [reflexivity|].
  destruct (atom_ok is_decimal a c); [|reflexivity].
  rewrite IH. reflexivity.
Qed.

Lemma run_drop_head (a : atom) (s : pystr) (m : nat) :
  m < run_length a s ->
  exists c r, drop m s = c :: r /\ atom_ok is_decimal a c = true.
Proof.
  revert m. induction s as [|c r IH]; intros m; simpl; [lia|].
  destruct (atom_ok is_decimal a c) eqn:Hc; [|lia].
  destruct m as [|m]; intros Hm.
  - exists c, r. split; [reflexivity | exact Hc].
  - apply IH. lia.
Qed.

Lemma run_dot_all (s : pystr) :
  ~ In 10%N s -> run_length Dot s = length s.
Proof.
  induction s as [|c r IH]; intros H; simpl; [reflexivity|].
  destruct (c =? 10)%N eqn:Hc.
  - apply N.eqb_eq in Hc. subst c. exfalso. apply H. left. reflexivity.
  - simpl. rewrite IH; [reflexivity|]. intros Hr. apply H. right. exact Hr.
Qed.

Lemma drop_run_space (s : pystr) : drop (run_length Space s) s = lstrip s.
Proof.
  induction s as [|c r IH]; simpl; [reflexivity|].
  destruct (is_space c); [exact IH | reflexivity].
Qed.

Lemma run_space_blank (s : pystr) :
  lstrip s = [] -> run_length Space s = length s /\ forallb is_space s = true.
Proof.
  induction s as [|c r IH]; simpl; [tauto|].
  destruct (is_space c); [|discriminate].
  intros H. destruct (IH H) as [-> ->]. tauto.
Qed.

Lemma backtrack_step k cap lo n s :
  backtrack k cap lo (S n) s
  = match (if lo <=? S n then push cap (take (S n) s) <$> k (drop (S n) s) else None) with
    | Some groups => Some groups
    | None => backtrack k cap lo n s
    end.
Proof. reflexivity. Qed.

Lemma backtrack_hit k cap lo n s g :
  lo <= n -> k (drop n s) = Some g ->
  backtrack k cap lo n s = Some (push cap (take n s) g).
Proof.
  intros Hlo Hk. apply Nat.leb_le in Hlo.
  destruct n; simpl; rewrite Hlo, Hk; reflexivity.
Qed.

Lemma span_digits (s : pystr) :
  span is_decimal s = (take (run_length Digit s) s, drop (run_length Digit s) s).
Proof.
  induction s as [|c r IH]; simpl; [reflexivity|].
  destruct (is_decimal c); [|reflexivity].
  rewrite IH. reflexivity.
Qed.

(** [(.+)] at the end of the pattern, on a text without line feed. *)
Lemma re_match_dot_plus (u : pystr) :
  ~ In 10%N u ->
  re_match [(true, Repeat 1 Dot)] u
  = match u with [] => None | _ :: _ => Some [u] end.
Proof.
  intros Hu.
  change (re_match [(true, Repeat 1 Dot)] u)
    with (backtrack (re_match []) true 1 (run_length Dot u) u).
  rewrite backtrack_last by reflexivity.
  rewrite run_dot_all by exact Hu. destruct u as [|c r]; [reflexivity|].
  simpl. rewrite firstn_all. reflexivity.
Qed.

Lemma In_drop (m : nat) (s : pystr) (c : N) : In c (drop m s) -> In c s.
Proof.
  revert s. induction m as [|m IH]; intros [|x s]; simpl; try tauto.
  intros H. right. apply IH. exact H.
Qed.

(** [\s*(.+)] at the end of the pattern: either nothing is left to
    match, or the group trims to what the whole rest trims to. *)
Lemma re_match_tail (t : pystr) :
  ~ In 10%N t ->
  (t = [] /\ re_match [(false, Repeat 0 Space); (true, Repeat 1 Dot)] t = None)
  \/ exists g, re_match [(false, Repeat 0 Space); (true, Repeat 1 Dot)] t = Some [g]
               /\ strip g = strip t.
Proof.
  intros Ht.
  change (re_match [(false, Repeat 0 Space); (true, Repeat 1 Dot)] t)
    with (backtrack (re_match [(true, Repeat 1 Dot)]) false 0 (run_length Space t) t).
  destruct (lstrip t) as [|c r] eqn:Hl.
  - destruct (run_space_blank t Hl) as [Hn Hb]. rewrite Hn.
    destruct t as [|x t' _] using rev_ind.
    + left. split; reflexivity.
    + right. exists [x].
      assert (Hx : ~ In 10%N [x]).
      { intros [Hx | []]. apply Ht. apply in_or_app. right. left. exact Hx. }
      rewrite length_app, Nat.add_1_r. simpl length.
      rewrite backtrack_step.
      rewrite drop_ge by (rewrite length_app; simpl; lia).
      rewrite (re_match_dot_plus []) by (simpl; tauto).
      simpl. rewrite (backtrack_hit _ false 0 (length t') _ [[x]]).
      * split; [reflexivity|].
        rewrite (strip_blank (t' ++ [x])) by exact Hb.
        rewrite forallb_app in Hb. apply andb_prop in Hb as [_ Hb].
        rewrite strip_blank by exact Hb. reflexivity.
      * lia.
      * rewrite drop_app_length. apply (re_match_dot_plus [x]). exact Hx.
  - right. exists (c :: r). split.
    + erewrite backtrack_hit; [reflexivity | lia |].
      rewrite drop_run_space, Hl. apply (re_match_dot_plus (c :: r)).
      intros H. apply Ht. rewrite <- Hl in H. apply lstrip_In. exact H.
    + rewrite <- Hl. apply strip_lstrip.
Qed.

(** One iteration of the parser's loop does what the line format says. *)
Lemma parse_step_spec (acc : list TranscriptLine) (line : pystr) :
  ~ In 10%N (strip line) ->
  parse_step is_decimal acc line = acc ++ line_list (spec_line is_decimal line).
Proof.
  intros Hnl. unfold parse_step, spec_line.
  destruct (strip line) as [|c0 l0] eqn:Hline.
  { simpl. rewrite app_nil_r. reflexivity. }
  set (l := c0 :: l0) in *. change (negb (truthy l)) with false. cbv iota.
  unfold speaker_pattern, lits. rewrite re_match_literals.
  destruct (strip_prefix (of_string "[SPEAKER_") l) as [r|] eqn:Hr;
    [| simpl; rewrite app_nil_r; reflexivity].
  rewrite span_digits.
  change ([(true, Repeat 1 Digit)] ++ ?x) with ((true, Repeat 1 Digit) :: x).
  set (rest := map _ (of_string "]:") ++ _).
  change (re_match ((true, Repeat 1 Digit) :: rest) r)
    with (backtrack (re_match rest) true 1 (run_length Digit r) r).
  assert (Hrest : forall u, re_match rest u
            = match strip_prefix (of_string "]:") u with
              | Some t => re_match [(false, Repeat 0 Space); (true, Repeat 1 Dot)] t
              | None => None
              end).
  { intros u. unfold rest. apply re_match_literals. }
  rewrite backtrack_longest.
  2:{ intros m Hm. destruct (run_drop_head Digit r m Hm) as (c & r' & -> & Hc).
      rewrite Hrest. change (of_string "]:") with [93%N; 58%N].
      cbn [strip_prefix]. simpl in Hc.
      destruct (93 =? c)%N eqn:E; [|reflexivity].
      apply N.eqb_eq in E. subst c. rewrite bracket_not_decimal in Hc. discriminate. }
  destruct (run_length Digit r) as [|n] eqn:Hn.
  { simpl. rewrite app_nil_r. reflexivity. }
  change (1 <=? S n) with true. cbv iota.
  destruct r as [|d r']; [discriminate Hn|].
  change (take (S n) (d :: r')) with (d :: take n r').
  rewrite Hrest.
  destruct (strip_prefix (of_string "]:") (drop (S n) (d :: r'))) as [t|] eqn:Ht;
    [| simpl; rewrite app_nil_r; reflexivity].
  assert (Htnl : ~ In 10%N t).
  { intros H. apply Hnl. eapply strip_prefix_In; [exact Hr|].
    eapply In_drop. eapply strip_prefix_In; [exact Ht | exact H]. }
  destruct (re_match_tail t Htnl) as [[-> ->] | (g & -> & Hg)].
  - simpl. rewrite app_nil_r. reflexivity.
  - simpl. rewrite Hg. destruct (truthy (strip t)); simpl.
    + reflexivity.
    + rewrite app_nil_r. reflexivity.
Qed.

Lemma parse_fold (ls : list pystr) (acc : list TranscriptLine) :
  Forall (fun l => ~ In 10%N (strip l)) ls ->
  fold_left (parse_step is_decimal) ls acc = acc ++ omap (spec_line is_decimal) ls.
Proof.
  intros H. revert acc. induction H as [|l ls Hl _ IH]; intros acc; simpl.
  - rewrite app_nil_r. reflexivity.
  - rewrite IH, parse_step_spec by exact Hl.
    destruct (spec_line is_decimal l); simpl.
    + rewrite <- app_assoc. reflexivity.
    + rewrite app_nil_r. reflexivity.
Qed.

End RegexFacts.

Lemma split_lines_shape (s cur : pystr) :
  ~ In 10%N cur -> Forall line_shape (split_lines cur s).
Proof.
  revert cur. induction s as [|c r IH]; intros cur Hcur; simpl.
  - destruct cur as [|x cur']; constructor; [|constructor].
    exists (x :: cur'). split; [exact Hcur | right; reflexivity].
  - destruct (c =? 10)%N eqn:Hc.
    + apply N.eqb_eq in Hc. subst c. constructor.
      * exists cur. split; [exact Hcur | left; reflexivity].
      * apply IH. simpl. tauto.
    + apply N.eqb_neq in Hc. apply IH. intros H.
      apply in_app_or in H as [H | [H | []]]; [exact (Hcur H) | congruence].
Qed.

Lemma line_shape_strip (l : pystr) : line_shape l -> ~ In 10%N (strip l).
Proof.
  intros (b & Hb & [-> | ->]).
  - apply strip_line_no_newline. exact Hb.
  - intros H. apply Hb. apply strip_In. exact H.
Qed.

Lemma file_lines_strip (content : pystr) :
  Forall (fun l => ~ In 10%N (strip l)) (file_lines content).
Proof.
  unfold file_lines.
  eapply Forall_impl; [apply split_lines_shape; simpl; tauto|].
  intros l. apply line_shape_strip.
Qed.

(** The line format consults the digit table on the characters of the
    line only. *)
Lemma spec_line_ext (d d' : N -> bool) (l : pystr) :
  (forall c, In c l -> d c = d' c) -> spec_line d l = spec_line d' l.
Proof.
  intros H. unfold spec_line.
  destruct (strip_prefix (of_string "[SPEAKER_") (strip l)) as [r|] eqn:Hr;
    [|reflexivity].
  rewrite (span_ext d d' r); [reflexivity|].
  intros c Hc. apply H. apply strip_In. eapply strip_prefix_In; eassumption.
Qed.

Lemma omap_spec_line_ext (d d' : N -> bool) (ls : list pystr) :
  Forall (fun l => forall c, In c l -> d c = d' c) ls ->
  omap (spec_line d) ls = omap (spec_line d') ls.
Proof.
  induction 1 as [|l ls Hl _ IH]; [reflexivity|].
  change (omap (spec_line d) (l :: ls))
    with (match spec_line d l with
          | Some y => y :: omap (spec_line d) ls
          | None => omap (spec_line d) ls
          end).
  rewrite (spec_line_ext d d' l Hl), IH. reflexivity.
Qed.

Lemma example_lines_ascii :
  forallb (forallb (fun c => c <? 128)%N) (file_lines example_text) = true.
Proof. vm_compute. reflexivity. Qed.

(** C5. Whatever the interpreter's table of decimal digits beyond ASCII,
    the parser returns, in the order of the lines of the file, one
    transcript line for every line that, once trimmed, reads
    [[SPEAKER_<digits>]:<text>] with a text that is not blank, with
    speaker [SPEAKER_<digits>] and the trimmed text, and nothing for any
    other line; on the example of the specification it returns exactly
    the two lines of SPEAKER_01. *)
Theorem parse_transcript_file_spec (is_decimal : N -> bool) :
  (forall c, (c < 128)%N -> is_decimal c = ascii_digit c) ->
  (forall content,
     parse_transcript_file is_decimal content
     = omap (spec_line is_decimal) (file_lines content))
  /\ parse_transcript_file is_decimal example_text
     = [mkLine (of_string "SPEAKER_01") (of_string "Hello world");
        mkLine (of_string "SPEAKER_01") (of_string "Second")].
Proof.
  intros Hd.
  assert (Hgen : forall content,
     parse_transcript_file is_decimal content
     = omap (spec_line is_decimal) (file_lines content)).
  { intros content. unfold parse_transcript_file.
    rewrite (parse_fold is_decimal Hd) by apply file_lines_strip. reflexivity. }
  split; [exact Hgen|].
  rewrite Hgen. rewrite (omap_spec_line_ext is_decimal ascii_digit).
  - vm_compute. reflexivity.
  - pose proof example_lines_ascii as H.
    rewrite forallb_forall in H. apply List.Forall_forall. intros l Hl c Hc.
    specialize (H l Hl). rewrite forallb_forall in H.
    apply Hd. apply N.ltb_lt. apply H. exact Hc.
Qed.

Lemma parse_transcript_file_spec_witness :
  (forall c, (c < 128)%N -> ascii_digit c = ascii_digit c)
  /\ ((forall content,
        parse_transcript_file ascii_digit content
        = omap (spec_line ascii_digit) (file_lines content))
      /\ parse_transcript_file ascii_digit example_text
         = [mkLine (of_string "SPEAKER_01") (of_string "Hello world");
            mkLine (of_string "SPEAKER_01") (of_string "Second")]).
Proof.
  split; [reflexivity|].
  apply (parse_transcript_file_spec ascii_digit). reflexivity.
Defined.

End TranscribeFacts.

(* ===================================================================== *)
(** * The background task                                                  *)
(* ===================================================================== *)

Module RunFacts.
Import Py Transcribe Runtime Pipeline Main Lifecycle.
Local Open Scope list_scope.

Lemma job_writes_app id (a b : list event) :
  job_writes id (a ++ b) = job_writes id a ++ job_writes id b.
Proof. unfold job_writes. apply omap_app. Qed.

Lemma calls_app (a b : list event) : calls (a ++ b) = calls a ++ calls b.
Proof. unfold calls. apply omap_app. Qed.

Lemma replay_app (a b : list write) (j : job) :
  replay (a ++ b) j = replay b (replay a j).
Proof. unfold replay. apply fold_left_app. Qed.

Lemma job_writes_set id w : job_writes id [EvSet id w] = [w].
Proof. unfold job_writes. simpl. rewrite decide_True by reflexivity. reflexivity. Qed.

Section Local.
Variable id : string.

Lemma local_pure {A} (r : result A) : local id (lift r).
Proof.
  exists r, [], (fun f => f). intros [js f u t l] j Hj. simpl in *.
  unfold lift. simpl. rewrite app_nil_r, insert_id by exact Hj. reflexivity.
Qed.

Lemma local_ret {A} (a : A) : local id (ret a).
Proof. apply (local_pure (Ok a)). Qed.

Lemma local_raise {A} (e : exn) : local id (@raise A e).
Proof. apply (local_pure (Raise e)). Qed.

Lemma local_call_event (st : stage) : local id (emit (EvCall st)).
Proof.
  exists (Ok tt), [EvCall st], (fun f => f). intros [js f u t l] j Hj. simpl in *.
  unfold emit. simpl. rewrite insert_id by exact Hj. reflexivity.
Qed.

Lemma local_setitem (w : write) : local id (setitem id w).
Proof.
  exists (Ok tt), [EvSet id w], (fun f => f). intros [js f u t l] j Hj.
  cbn [jobs] in Hj. rewrite job_writes_set.
  unfold setitem, bind, get_sys, set_jobs, emit. cbn [jobs fs uuids_drawn tasks log].
  rewrite Hj. reflexivity.
Qed.

Lemma local_bind {A B} (m : M A) (k : A -> M B) :
  local id m -> (forall a, local id (k a)) -> local id (bind m k).
Proof.
  intros (r & evs & g & Hm) Hk. destruct r as [a|e].
  - destruct (Hk a) as (r' & evs' & g' & Hka).
    exists r', (evs ++ evs'), (fun f => g' (g f)). intros s j Hj.
    unfold bind. rewrite (Hm s j Hj).
    rewrite (Hka _ (replay (job_writes id evs) j)) by (simpl; apply lookup_insert_eq).
    simpl. rewrite insert_insert_eq, job_writes_app, replay_app, app_assoc.
    reflexivity.
  - exists (Raise e), evs, g. intros s j Hj.
    unfold bind. rewrite (Hm s j Hj). reflexivity.
Qed.

Lemma local_try_except {A} (m : M A) (h : exn -> M A) :
  local id m -> (forall e, local id (h e)) -> local id (try_except m h).
Proof.
  intros (r & evs & g & Hm) Hh. destruct r as [a|e].
  - exists (Ok a), evs, g. intros s j Hj.
    unfold try_except. rewrite (Hm s j Hj). reflexivity.
  - destruct (Hh e) as (r' & evs' & g' & Hhe).
    exists r', (evs ++ evs'), (fun f => g' (g f)). intros s j Hj.
    unfold try_except. rewrite (Hm s j Hj).
    rewrite (Hhe _ (replay (job_writes id evs) j)) by (simpl; apply lookup_insert_eq).
    simpl. rewrite insert_insert_eq, job_writes_app, replay_app, app_assoc.
    reflexivity.
Qed.

Lemma local_call {A} (st : stage) (r : result A) : local id (call st r).
Proof.
  unfold call. apply local_bind; [apply local_call_event|].
  intros _. apply local_pure.
Qed.

(** [try: os.remove(path) except: pass] removes the file if it is there
    and can be removed. *)
Lemma local_cleanup E (path : string) :
  local id (try_except (os_remove E path) (fun _ => ret tt)).
Proof.
  exists (Ok tt), [],
    (fun f => match remove_error E path with Some _ => f | None => delete path f end).
  intros [js f u t l] j Hj. simpl in *.
  unfold try_except, os_remove, bind, get_sys, set_fs, raise, ret. simpl.
  rewrite app_nil_r, insert_id by exact Hj.
  destruct (f !! path) eqn:Hp; simpl.
  - destruct (remove_error E path); reflexivity.
  - destruct (remove_error E path); [reflexivity|].
    rewrite delete_id by exact Hp. reflexivity.
Qed.

End Local.

Create HintDb local.
#[local] Hint Resolve local_ret local_raise local_setitem local_call
  local_cleanup local_pure : local.

Lemma local_transcribe_audio E id path cb :
  (forall p m, local id (cb p m)) ->
  local id (transcribe_audio E path (Some cb)).
Proof.
  intros Hcb. unfold transcribe_audio, report.
  apply local_bind.
  { apply local_try_except; [apply local_call|].
    intros []; auto with local. }
  intros _. apply local_bind; [apply Hcb|]. intros _.
  apply local_bind; [apply local_call|]. intros model.
  apply local_bind; [apply Hcb|]. intros _.
  apply local_bind; [apply local_call|]. intros audio.
  apply local_bind; [apply Hcb|]. intros _.
  apply local_bind; [apply local_call|]. intros result.
  apply local_bind; [apply Hcb|]. intros _.
  apply local_bind; [apply local_call|]. intros model_a.
  apply local_bind; [apply local_call|]. intros aligned.
  apply local_bind; [apply Hcb|]. intros _.
  destruct (HF_TOKEN E) as [[|c t]|]; auto with local.
  apply local_bind; [apply local_call|]. intros dm.
  apply local_bind; [apply local_call|]. intros ds.
  apply local_bind; [apply Hcb|]. intros _.
  apply local_bind; [apply local_call|]. intros segs.
  apply local_bind; [apply Hcb|]. intros _.
  apply local_ret.
Qed.

Lemma local_run_transcription E id path :
  local id (run_transcription E id path).
Proof.
  unfold run_transcription.
  apply local_try_except.
  - repeat (apply local_bind; [apply local_setitem | intros _]).
    apply local_bind.
    { apply local_transcribe_audio. intros p m.
      apply local_bind; [apply local_setitem | intros _; apply local_setitem]. }
    intros transcript.
    repeat (apply local_bind; [apply local_setitem | intros _]).
    apply local_cleanup.
  - intros e.
    repeat (apply local_bind; [apply local_setitem | intros _]).
    apply local_setitem.
Qed.

(** On any state that holds the job, the task logs its script and leaves
    the record as the replay of the script; nothing else changes but the
    upload directory. *)
Lemma run_transcription_frame E id path :
  exists r g, forall s j, jobs s !! id = Some j ->
    run_transcription E id path s
    = (r, mkSys (<[id := replay (job_writes id (script E id path)) j]> (jobs s))
                (g (fs s)) (uuids_drawn s) (tasks s)
                (log s ++ script E id path)).
Proof.
  destruct (local_run_transcription E id path) as (r & evs & g & H).
  assert (Hs : script E id path = evs).
  { unfold script.
    rewrite (H (solo id path) (initial_job path)) by apply lookup_singleton_eq.
    reflexivity. }
  rewrite Hs. exists r, g. exact H.
Qed.

Ltac exec :=
  cbv [run_transcription transcribe_audio bind try_except setitem get_sys
       set_jobs set_fs emit ret raise lift call report os_remove
       jobs fs log uuids_drawn tasks script pipeline_outcome solo fst snd app];
  rewrite ?lookup_insert_eq, ?lookup_singleton_eq.

Ltac pick_prefix :=
  first [ exists 0%nat; split; [reflexivity|]
        | exists 1%nat; split; [reflexivity|]
        | exists 3%nat; split; [reflexivity|]
        | exists 4%nat; split; [reflexivity|]
        | exists 6%nat; split; [reflexivity|]
        | exists 7%nat; split; [reflexivity|]
        | exists 9%nat; split; [reflexivity|]
        | exists 10%nat; split; [reflexivity|]
        | exists 12%nat; split; [reflexivity|]
        | exists 13%nat; split; [reflexivity|]
        | exists 14%nat; split; [reflexivity|]
        | exists 16%nat; split; [reflexivity|]
        | exists 17%nat; split; [reflexivity|]
        | exists 18%nat; split; [reflexivity|]
        | exists 20%nat; split; [reflexivity|]
        | exists 21%nat; split; [reflexivity|]
        | exists 23%nat; split; [reflexivity|] ].

(** The script of a task: the opening assignments, a prefix of the calls
    and checkpoints of a full run, and the closing assignments for what
    the pipeline returned or raised. When the pipeline returns, the
    prefix is the whole. *)
Lemma script_shape E id path :
  exists n,
    script E id path
    = prelude id ++ take n (full_body E id) ++ ending E id (pipeline_outcome E path)
    /\ (n <= 23)%nat
    /\ (forall t, pipeline_outcome E path = Ok t -> n = 23%nat).
Proof.
  exec.
  destruct (import_whisperx E) as [[]|e] eqn:H0.
  2:{ destruct e; exec; pick_prefix; (split; [lia | discriminate]). }
  exec. destruct (load_model E _ _ _ _) as [model|e] eqn:H1.
  2:{ exec; pick_prefix; (split; [lia | discriminate]). }
  exec. destruct (load_audio E _) as [audio|e] eqn:H2.
  2:{ exec; pick_prefix; (split; [lia | discriminate]). }
  exec. destruct (model_transcribe E _ _ _ _) as [result|e] eqn:H3.
  2:{ exec; pick_prefix; (split; [lia | discriminate]). }
  exec. destruct (load_align_model E _ _) as [model_a|e] eqn:H4.
  2:{ exec; pick_prefix; (split; [lia | discriminate]). }
  exec. destruct (align E _ _ _ _) as [aligned|e] eqn:H5.
  2:{ exec; pick_prefix; (split; [lia | discriminate]). }
  exec. destruct (HF_TOKEN E) as [[|c tok]|] eqn:H6.
  1,3: exec; pick_prefix; (split; [lia | discriminate]).
  exec. destruct (DiarizationPipeline E _ _) as [dm|e] eqn:H7.
  2:{ exec; pick_prefix; (split; [lia | discriminate]). }
  exec. destruct (diarize E _ _) as [ds|e] eqn:H8.
  2:{ exec; pick_prefix; (split; [lia | discriminate]). }
  exec. destruct (assign_word_speakers E _ _) as [segs|e] eqn:H9.
  2:{ exec; pick_prefix; (split; [lia | discriminate]). }
  exec. pick_prefix. split; [lia | reflexivity].
Qed.

Lemma job_writes_own id (evs : list event) :
  Forall (own id) evs -> job_writes id evs = writes_of evs.
Proof.
  induction 1 as [|ev evs Hev _ IH]; [reflexivity|].
  destruct ev as [i j|i w|st]; cbn [own] in Hev.
  - contradiction.
  - subst i. change (EvSet id w :: evs) with ([EvSet id w] ++ evs).
    rewrite job_writes_app, job_writes_set, IH. reflexivity.
  - exact IH.
Qed.

Lemma prelude_own id : Forall (own id) (prelude id).
Proof. repeat constructor. Qed.

Lemma full_body_own E id : Forall (own id) (full_body E id).
Proof. repeat constructor. Qed.

Lemma ending_own E id r : Forall (own id) (ending E id r).
Proof. destruct r; repeat constructor. Qed.

Lemma script_own E id path : Forall (own id) (script E id path).
Proof.
  destruct (script_shape E id path) as (n & -> & _).
  repeat apply Forall_app_2.
  - apply prelude_own.
  - apply Forall_take, full_body_own.
  - apply ending_own.
Qed.

(** The assignments of a task, by how far the pipeline got. *)
Lemma script_writes E id path :
  exists n,
    (n <= 23)%nat
    /\ job_writes id (script E id path)
       = writes_upto E id n (pipeline_outcome E path)
    /\ calls (script E id path) = calls (take n (full_body E id))
    /\ (forall t, pipeline_outcome E path = Ok t -> n = 23%nat)
    /\ script E id path
       = prelude id ++ take n (full_body E id) ++ ending E id (pipeline_outcome E path).
Proof.
  destruct (script_shape E id path) as (n & Hs & Hn & Hok).
  exists n. split; [exact Hn|]. split; [|split; [|split; [exact Hok | exact Hs]]].
  - rewrite job_writes_own by apply script_own. rewrite Hs.
    unfold writes_upto, writes_of. rewrite !omap_app. reflexivity.
  - rewrite Hs, !calls_app.
    destruct (pipeline_outcome E path); simpl; rewrite app_nil_r; reflexivity.
Qed.

(** What a run of the task does to a state that holds the job. *)
Lemma run_transcription_effect E id path s j :
  jobs s !! id = Some j ->
  let s' := (run_transcription E id path s).2 in
  log s' = log s ++ script E id path
  /\ jobs s' = <[id := replay (job_writes id (script E id path)) j]> (jobs s)
  /\ uuids_drawn s' = uuids_drawn s /\ tasks s' = tasks s.
Proof.
  intros Hj. destruct (run_transcription_frame E id path) as (r & g & H).
  simpl. rewrite (H s j Hj). simpl. repeat split; reflexivity.
Qed.

Lemma start_transcription_ok E audio s0 resp s :
  start_transcription E audio s0 = (Ok resp, s) ->
  let id := uuid4 E (uuids_drawn s0) in
  let path := upload_path id (filename audio) in
  r_job_id resp = id
  /\ jobs s = <[id := initial_job path]> (jobs s0)
  /\ (exists data, read audio = Ok data /\ fs s = <[path := data]> (fs s0))
  /\ uuids_drawn s = S (uuids_drawn s0)
  /\ tasks s = tasks s0 ++ [(id, path)]
  /\ log s = log s0 ++ [EvNew id (initial_job path)].
Proof.
  unfold start_transcription.
  destruct (type_not_allowed (content_type audio)
            && negb (existsb (endswith (filename audio)) allowed_suffixes)).
  { discriminate. }
  unfold bind, draw_uuid, write_file. cbn [uuids_drawn jobs fs tasks log].
  destruct (open_error E _); [discriminate|].
  unfold bind, get_sys, set_fs, set_jobs, emit, add_task, ret, raise.
  cbn [uuids_drawn jobs fs tasks log].
  destruct (read audio) as [data|e]; [|discriminate].
  destruct (write_error E _ data) as [[e n]|]; [discriminate|].
  cbn [uuids_drawn jobs fs tasks log].
  intros [= <- <-]. cbn [r_job_id jobs fs uuids_drawn tasks log].
  rewrite insert_insert_eq. repeat split; try reflexivity.
  exists data. split; reflexivity.
Qed.

(** C2, as the code has it. From the creation of a job by
    [start_transcription] to the last assignment of its task, the record
    never holds both a transcript and an error; while the status is
    pending or processing it holds neither, a completed record holds no
    error and a failed record no transcript; and once the task has made
    its last assignment, a completed record holds a transcript and a
    failed record an error. *)
Theorem record_settles_consistent E audio s0 resp s :
  start_transcription E audio s0 = (Ok resp, s) ->
  exists j0,
    jobs s !! r_job_id resp = Some j0
    /\ last (tasks s) = Some (r_job_id resp, file_path j0)
    /\ consistent j0 = true
    /\ let s' := (run_transcription E (r_job_id resp) (file_path j0) s).2 in
       let ws := job_writes (r_job_id resp) (drop (length (log s)) (log s')) in
       (forall j, In j (points j0 ws) -> never_contradictory j = true)
       /\ jobs s' !! r_job_id resp = Some (replay ws j0)
       /\ consistent (replay ws j0) = true.
Proof.
  intros Hstart.
  destruct (start_transcription_ok E audio s0 resp s Hstart)
    as (Hid & Hjobs & _ & _ & Htasks & _).
  set (id := uuid4 E (uuids_drawn s0)) in *.
  set (path := upload_path id (filename audio)) in *.
  rewrite Hid. exists (initial_job path).
  assert (Hj : jobs s !! id = Some (initial_job path)).
  { rewrite Hjobs. apply lookup_insert_eq. }
  split; [exact Hj|]. split; [rewrite Htasks; apply last_snoc|].
  split; [reflexivity|].
  change (file_path (initial_job path)) with path.
  destruct (run_transcription_effect E id path s _ Hj) as (Hlog & Hjobs' & _).
  cbv zeta. rewrite Hlog, drop_app_length, Hjobs', lookup_insert_eq.
  destruct (script_writes E id path) as (n & Hn & -> & _ & Hok & _).
  split; [|split; [reflexivity|]].
  - intros j Hj'. revert j Hj'. apply forallb_forall.
    destruct (pipeline_outcome E path) as [t|e].
    + rewrite (Hok t eq_refl). vm_compute. reflexivity.
    + clear Hok.
      do 24 (destruct n as [|n]; [vm_compute; reflexivity|]). exfalso. lia.
  - destruct (pipeline_outcome E path) as [t|e].
    + rewrite (Hok t eq_refl). vm_compute. reflexivity.
    + clear Hok.
      do 24 (destruct n as [|n]; [vm_compute; reflexivity|]). exfalso. lia.
Qed.

Import Server Sample.

Lemma record_settles_consistent_witness :
  start_transcription E_ok sitzung (state boot) = (Ok response1, started)
  /\ exists j0,
    jobs started !! r_job_id response1 = Some j0
    /\ last (tasks started) = Some (r_job_id response1, file_path j0)
    /\ consistent j0 = true
    /\ let s' := (run_transcription E_ok (r_job_id response1) (file_path j0) started).2 in
       let ws := job_writes (r_job_id response1) (drop (length (log started)) (log s')) in
       (forall j, In j (points j0 ws) -> never_contradictory j = true)
       /\ jobs s' !! r_job_id response1 = Some (replay ws j0)
       /\ consistent (replay ws j0) = true.
Proof.
  split; [reflexivity|].
  apply (record_settles_consistent E_ok sitzung (state boot) response1 started).
  reflexivity.
Defined.

(** C2, as stated, fails: in the run where every stage succeeds, the
    record passes through a state with status completed and no
    transcript (after line 191 and before line 194). *)
Lemma completed_before_transcript :
  ~ (forall j,
       In j (points (initial_job path1) (job_writes job1 (script E_ok job1 path1))) ->
       consistent j = true).
Proof.
  intros H.
  assert (Hex : existsb (fun j => negb (consistent j))
            (points (initial_job path1) (job_writes job1 (script E_ok job1 path1)))
          = true) by (vm_compute; reflexivity).
  apply existsb_exists in Hex as (j & Hj & Hneg).
  rewrite (H j Hj) in Hneg. discriminate.
Qed.

(** C1 fails on the code: the task sets the progress to 10 before the
    pipeline reports its first checkpoint, 5. In the run where every
    stage succeeds the values assigned to the progress of the job, after
    the 0 of its creation, are 10, 5, 15, 25, 50, 65, 85, 95, 100. *)
Theorem progress_drops_at_first_checkpoint :
  start_transcription E_ok sitzung (state boot) = (Ok response1, started)
  /\ progress <$> jobs started !! job1 = Some 0%Z
  /\ progress_writes
       (job_writes job1 (log (run_transcription E_ok job1 path1 started).2))
     = [10; 5; 15; 25; 50; 65; 85; 95; 100]%Z
  /\ non_decreasing
       (0%Z :: progress_writes
          (job_writes job1 (log (run_transcription E_ok job1 path1 started).2)))
     = false.
Proof. vm_compute. repeat split; reflexivity. Qed.

Ltac pick_member :=
  repeat first [ left; reflexivity | right ].




End RunFacts.

(* ===================================================================== *)
(** * The endpoints                                                        *)
(* ===================================================================== *)

Module MainFacts.
Import Py Transcribe Runtime Pipeline Main Lifecycle Server Sample.
Local Open Scope list_scope.

(** C8. A submission whose content type is not in the list of allowed
    types and whose file name ends in none of the allowed suffixes is
    answered with the HTTP error 400 and leaves the process state as it
    was: no identifier is drawn, no job is stored, no file is written and
    no task is scheduled. *)
Theorem unsupported_upload_rejected E audio s :
  type_not_allowed (content_type audio) = true ->
  (forall suffix, In suffix allowed_suffixes ->
                  endswith (filename audio) suffix = false) ->
  start_transcription E audio s
  = (Raise (HTTPException 400 "Ungültiger Dateityp. Erlaubt: MP3, WAV, M4A"), s).
Proof.
  intros Htype Hsuffix. unfold start_transcription. rewrite Htype.
  assert (Hex : existsb (endswith (filename audio)) allowed_suffixes = false).
  { unfold allowed_suffixes in *. simpl.
    rewrite !Hsuffix by (simpl; tauto). reflexivity. }
  rewrite Hex. reflexivity.
Qed.

Lemma unsupported_upload_rejected_witness :
  type_not_allowed (content_type notes_txt) = true
  /\ (forall suffix, In suffix allowed_suffixes ->
                     endswith (filename notes_txt) suffix = false)
  /\ start_transcription E_ok notes_txt started
     = (Raise (HTTPException 400 "Ungültiger Dateityp. Erlaubt: MP3, WAV, M4A"),
        started).
Proof.
  assert (Hsuffix : forall suffix, In suffix allowed_suffixes ->
                      endswith (filename notes_txt) suffix = false).
  { intros suffix [<- | [<- | [<- | []]]]; reflexivity. }
  split; [reflexivity|]. split; [exact Hsuffix|].
  apply (unsupported_upload_rejected E_ok notes_txt started);
    [reflexivity | exact Hsuffix].
Defined.

(** The status endpoint only reads. *)
Lemma get_transcription_status_reads job_id s :
  (get_transcription_status job_id s).2 = s.
Proof.
  unfold get_transcription_status, bind, get_sys.
  destruct (jobs s !! job_id); reflexivity.
Qed.

(** C10. The answer of the status endpoint is determined by the
    identifier and the status, progress, message, transcript and error
    of the record: two stores whose records for the identifier agree on
    these five fields get the same answer, whatever the paths of the
    uploads; the answer has no field for the path. *)
Theorem poll_independent_of_file_path job_id s1 s2 j1 j2 :
  jobs s1 !! job_id = Some j1 ->
  jobs s2 !! job_id = Some j2 ->
  status j1 = status j2 ->
  progress j1 = progress j2 ->
  message j1 = message j2 ->
  transcript j1 = transcript j2 ->
  error j1 = error j2 ->
  (get_transcription_status job_id s1).1 = (get_transcription_status job_id s2).1.
Proof.
  intros H1 H2 Hst Hpr Hmsg Htr Her.
  unfold get_transcription_status, bind, get_sys. cbn [fst snd].
  rewrite H1, H2. unfold ret. cbn [fst].
  rewrite Hst, Hpr, Hmsg, Htr, Her. reflexivity.
Qed.

Lemma poll_independent_of_file_path_witness :
  jobs (holding (done_job "uploads/a.mp3")) !! job1 = Some (done_job "uploads/a.mp3")
  /\ jobs (holding (done_job "elsewhere/b.wav")) !! job1 = Some (done_job "elsewhere/b.wav")
  /\ file_path (done_job "uploads/a.mp3") <> file_path (done_job "elsewhere/b.wav")
  /\ (get_transcription_status job1 (holding (done_job "uploads/a.mp3"))).1
     = (get_transcription_status job1 (holding (done_job "elsewhere/b.wav"))).1.
Proof.
  split; [reflexivity|]. split; [reflexivity|]. split; [discriminate|].
  apply (poll_independent_of_file_path job1 _ _
           (done_job "uploads/a.mp3") (done_job "elsewhere/b.wav"));
    reflexivity.
Defined.

End MainFacts.

(* ===================================================================== *)
(** * The server                                                           *)
(* ===================================================================== *)

Module ServerFacts.
Import Py Transcribe Runtime Pipeline Main Lifecycle Server Sample.
Import RunFacts MainFacts.
Local Open Scope list_scope.

Lemma file_path_apply_write w j : file_path (apply_write w j) = file_path j.
Proof. destruct w; reflexivity. Qed.

Lemma start_transcription_raise E audio s e s' :
  start_transcription E audio s = (Raise e, s') ->
  jobs s' = jobs s /\ tasks s' = tasks s /\ (uuids_drawn s <= uuids_drawn s')%nat.
Proof.
  unfold start_transcription.
  destruct (type_not_allowed (content_type audio)
            && negb (existsb (endswith (filename audio)) allowed_suffixes)).
  { intros [= _ <-]. auto. }
  unfold bind, draw_uuid, write_file. cbn [uuids_drawn jobs fs tasks log].
  destruct (open_error E _).
  - intros [= _ <-]. cbn. auto.
  - unfold bind, get_sys, set_fs, set_jobs, emit, add_task, ret, raise.
    cbn [uuids_drawn jobs fs tasks log].
    destruct (read audio) as [data|e0].
    + destruct (write_error E _ data) as [[e1 n]|];
        cbn [uuids_drawn jobs fs tasks log];
        [intros [= _ <-]; cbn; auto | discriminate].
    + intros [= _ <-]. cbn. auto.
Qed.

Lemma poll_reads job_id c : (poll job_id c).2 = c.
Proof.
  unfold poll.
  pose proof (get_transcription_status_reads job_id (state c)) as H.
  destruct (get_transcription_status job_id (state c)) as [r s'].
  simpl in *. subst s'. destruct c; reflexivity.
Qed.

Lemma inv_boot E : inv E boot.
Proof.
  repeat split; intros id x H; simpl in H; rewrite lookup_empty in H;
    discriminate.
Qed.

Lemma inv_submit E audio c : inv E c -> inv E (submit E audio c).
Proof.
  intros (I1 & I2 & I3). unfold submit.
  destruct (start_transcription E audio (state c)) as [[resp|e] s'] eqn:Hst.
  - destruct (start_transcription_ok E audio (state c) resp s' Hst)
      as (_ & Hjobs & _ & Hu & Htasks & _).
    rewrite Htasks, last_snoc.
    set (id0 := uuid4 E (uuids_drawn (state c))) in *.
    set (path := upload_path id0 (filename audio)) in *.
    repeat split; cbn [state todo].
    + intros id j. rewrite Hjobs, Hu. destruct (decide (id = id0)) as [->|Hne].
      * intros _. exists (uuids_drawn (state c)). split; [lia | reflexivity].
      * rewrite lookup_insert_ne by congruence. intros H.
        destruct (I1 id j H) as (k & Hk & ->). exists k. split; [lia | reflexivity].
    + intros id j. rewrite Hjobs. destruct (decide (id = id0)) as [->|Hne].
      * rewrite !lookup_insert_eq. intros [= <-].
        exists [], (script E id0 path). repeat split.
      * rewrite !lookup_insert_ne by congruence. apply I2.
    + intros id rest. rewrite Hjobs. destruct (decide (id = id0)) as [->|Hne].
      * rewrite !lookup_insert_eq. eauto.
      * rewrite !lookup_insert_ne by congruence. apply I3.
  - destruct (start_transcription_raise E audio (state c) e s' Hst)
      as (Hjobs & _ & Hu).
    repeat split; cbn [state todo]; rewrite Hjobs.
    + intros id j H. destruct (I1 id j H) as (k & Hk & ->).
      exists k. split; [lia | reflexivity].
    + apply I2.
    + apply I3.
Qed.

Lemma file_path_replay ws j : file_path (replay ws j) = file_path j.
Proof.
  revert j. induction ws as [|w ws IH]; intros j; [reflexivity|].
  change (replay (w :: ws) j) with (replay ws (apply_write w j)).
  rewrite IH. apply file_path_apply_write.
Qed.

(** One event of a task changes the record of its own job only. *)
Lemma advance_effect E c id ev evs :
  inv E c -> todo c !! id = Some (ev :: evs) ->
  exists j,
    jobs (state c) !! id = Some j
    /\ jobs (state (advance id c))
       = <[id := replay (job_writes id [ev]) j]> (jobs (state c))
    /\ uuids_drawn (state (advance id c)) = uuids_drawn (state c)
    /\ todo (advance id c) = <[id := evs]> (todo c).
Proof.
  intros (I1 & I2 & I3) Htodo.
  destruct (I3 id _ Htodo) as [j Hj]. exists j. split; [exact Hj|].
  destruct (I2 id j Hj) as (performed & rest & Hrest & Hscript & _).
  rewrite Htodo in Hrest. injection Hrest as <-.
  assert (Hown : own id ev).
  { pose proof (script_own E id (file_path j)) as H. rewrite Hscript in H.
    apply Forall_app in H as [_ H]. inversion H. assumption. }
  unfold advance. rewrite Htodo. cbn [state todo].
  destruct ev as [i j'|i w|st]; cbn [own] in Hown.
  - contradiction.
  - subst i. rewrite job_writes_set.
    unfold perform, setitem, bind, get_sys, set_jobs, emit.
    cbn [jobs fs uuids_drawn tasks log]. rewrite Hj. cbn. auto.
  - unfold perform, emit. cbn.
    change (replay (job_writes id [EvCall st]) j) with j.
    rewrite insert_id by exact Hj. auto.
Qed.

Lemma inv_advance E id c : inv E c -> inv E (advance id c).
Proof.
  intros Hinv.
  destruct (todo c !! id) as [[|ev evs]|] eqn:Htodo;
    try (unfold advance; rewrite Htodo; exact Hinv).
  destruct (advance_effect E c id ev evs Hinv Htodo) as (j & Hj & Hjobs & Hu & Ht).
  destruct Hinv as (I1 & I2 & I3).
  repeat split; rewrite ?Hjobs, ?Hu, ?Ht.
  - intros id' j'. destruct (decide (id' = id)) as [->|Hne].
    + intros _. exact (I1 id j Hj).
    + rewrite lookup_insert_ne by congruence. apply I1.
  - intros id' j'. destruct (decide (id' = id)) as [->|Hne].
    + rewrite !lookup_insert_eq. intros [= <-].
      destruct (I2 id j Hj) as (performed & rest & Hrest & Hscript & Hrec).
      rewrite Htodo in Hrest. injection Hrest as <-.
      exists (performed ++ [ev]), evs. rewrite file_path_replay.
      split; [reflexivity|]. split.
      * rewrite Hscript, <- app_assoc. reflexivity.
      * rewrite job_writes_app, replay_app, <- Hrec. reflexivity.
    + rewrite !lookup_insert_ne by congruence. apply I2.
  - intros id' rest. destruct (decide (id' = id)) as [->|Hne].
    + rewrite !lookup_insert_eq. eauto.
    + rewrite !lookup_insert_ne by congruence. apply I3.
Qed.

Lemma inv_step E c c' : inv E c -> step E c c' -> inv E c'.
Proof.
  intros Hinv Hstep. revert Hinv. destruct Hstep as [audio c|id c|id c]; intros Hinv.
  - apply inv_submit. exact Hinv.
  - apply inv_advance. exact Hinv.
  - rewrite poll_reads. exact Hinv.
Qed.

Lemma inv_steps E c c' : inv E c -> rtc (step E) c c' -> inv E c'.
Proof.
  intros Hinv Hsteps. induction Hsteps as [|c c1 c' Hstep _ IH]; [exact Hinv|].
  apply IH. eapply inv_step; eassumption.
Qed.

Lemma reachable_inv E c : reachable E c -> inv E c.
Proof. apply inv_steps, inv_boot. Qed.

Lemma reachable_submit E audio c : reachable E c -> reachable E (submit E audio c).
Proof. intros H. eapply rtc_r; [exact H | constructor]. Qed.

Lemma reachable_advance E id c : reachable E c -> reachable E (advance id c).
Proof. intros H. eapply rtc_r; [exact H | constructor]. Qed.

Lemma reachable_advance_n E n id c :
  reachable E c -> reachable E (advance_n n id c).
Proof.
  revert c. induction n as [|n IH]; intros c H; [exact H|].
  apply IH, reachable_advance, H.
Qed.

Lemma reachable_mid_update : reachable E_ok mid_update.
Proof.
  apply reachable_advance_n, reachable_submit. apply rtc_refl.
Qed.

(** C7, as the code has it. Whatever the interleaving of requests and
    tasks, the record of a job is the record of its creation with an
    initial part of the assignments of its own task applied, one
    assignment at a time: no other task writes to it, and what a poller
    finds is the record after some number of these assignments, possibly
    in the middle of an update of several fields. *)
Theorem record_follows_own_script E c id j :
  reachable E c ->
  jobs (state c) !! id = Some j ->
  exists performed rest,
    todo c !! id = Some rest
    /\ script E id (file_path j) = performed ++ rest
    /\ j = replay (job_writes id performed) (initial_job (file_path j)).
Proof.
  intros Hreach Hj. destruct (reachable_inv E c Hreach) as (_ & I2 & _).
  exact (I2 id j Hj).
Qed.

Lemma record_follows_own_script_witness :
  reachable E_ok mid_update
  /\ (exists j, jobs (state mid_update) !! job1 = Some j
      /\ exists performed rest,
           todo mid_update !! job1 = Some rest
           /\ script E_ok job1 (file_path j) = performed ++ rest
           /\ j = replay (job_writes job1 performed) (initial_job (file_path j))).
Proof.
  split; [exact reachable_mid_update|].
  eexists. split; [vm_compute; reflexivity|].
  apply (record_follows_own_script E_ok mid_update job1);
    [exact reachable_mid_update | vm_compute; reflexivity].
Defined.

(** C7, as stated, fails: between lines 191 and 194 a poller is shown a
    job with status completed, progress 95 and no transcript. *)
Lemma poller_sees_half_update :
  ~ (forall c id r,
       reachable E_ok c -> seen id c = Ok r -> r_status r = completed ->
       r_progress r = 100%Z /\ is_Some (r_transcript r)).
Proof.
  intros H.
  destruct (H mid_update job1 seen_mid_update reachable_mid_update) as [Hp _].
  - vm_compute. reflexivity.
  - reflexivity.
  - discriminate Hp.
Qed.

Lemma script_ends_terminal E id path j0 :
  terminal (status (replay (job_writes id (script E id path)) j0)) = true.
Proof.
  destruct (script_writes E id path) as (n & Hn & -> & _ & Hok & _).
  destruct j0 as [st pr msg fp tr er].
  destruct (pipeline_outcome E path) as [t|e].
  - rewrite (Hok t eq_refl). vm_compute. reflexivity.
  - clear Hok.
    do 24 (destruct n as [|n]; [vm_compute; reflexivity|]). exfalso. lia.
Qed.

Lemma seen_record id c j :
  jobs (state c) !! id = Some j ->
  seen id c
  = Ok (mkResponse id (status j) (progress j) (message j)
          (match transcript j with
           | Some ((_ :: _) as lines) => Some (map (fun line => line) lines)
           | _ => None
           end)
          (error j)).
Proof.
  intros Hj. unfold seen, poll, get_transcription_status, bind, get_sys.
  rewrite Hj. reflexivity.
Qed.

Lemma seen_same_record id c c' :
  jobs (state c') !! id = jobs (state c) !! id -> seen id c' = seen id c.
Proof.
  intros H. unfold seen, poll, get_transcription_status, bind, get_sys.
  rewrite H. destruct (jobs (state c) !! id); reflexivity.
Qed.

(** Once the task of a job has nothing left to do, no step of the server
    touches the record of the job. *)
Lemma finished_step E c c' id :
  Inj (=) (=) (uuid4 E) ->
  inv E c -> todo c !! id = Some [] -> step E c c' ->
  todo c' !! id = Some [] /\ jobs (state c') !! id = jobs (state c) !! id.
Proof.
  intros Hinj Hinv Htodo Hstep. revert Hinv Htodo.
  destruct Hstep as [audio c|id' c|id' c]; intros Hinv Htodo.
  - destruct Hinv as (I1 & _ & I3). unfold submit.
    destruct (start_transcription E audio (state c)) as [[resp|e] s'] eqn:Hst.
    + destruct (start_transcription_ok E audio (state c) resp s' Hst)
        as (_ & Hjobs & _ & _ & Htasks & _).
      rewrite Htasks, last_snoc. cbn [state todo]. rewrite Hjobs.
      destruct (I3 id _ Htodo) as [j Hj].
      destruct (I1 id j Hj) as (k & Hk & Hid).
      assert (Hne : uuid4 E (uuids_drawn (state c)) <> id).
      { rewrite Hid. intros Heq. apply Hinj in Heq. lia. }
      rewrite !lookup_insert_ne by exact Hne. auto.
    + destruct (start_transcription_raise E audio (state c) e s' Hst) as (Hjobs & _).
      cbn [state todo]. rewrite Hjobs. auto.
  - destruct (decide (id' = id)) as [->|Hne].
    + unfold advance. rewrite Htodo. auto.
    + destruct (todo c !! id') as [[|ev evs]|] eqn:Htodo';
        try solve [unfold advance; rewrite Htodo'; auto].
      destruct (advance_effect E c id' ev evs Hinv Htodo')
        as (j & _ & Hjobs & _ & Ht).
      rewrite Hjobs, Ht, !lookup_insert_ne by exact Hne. auto.
  - rewrite poll_reads. auto.
Qed.

Lemma finished_steps E c c' id :
  Inj (=) (=) (uuid4 E) ->
  inv E c -> todo c !! id = Some [] -> rtc (step E) c c' ->
  jobs (state c') !! id = jobs (state c) !! id.
Proof.
  intros Hinj Hinv Htodo Hsteps.
  induction Hsteps as [|c c1 c' Hstep _ IH]; [reflexivity|].
  destruct (finished_step E c c1 id Hinj Hinv Htodo Hstep) as [Htodo1 Hjobs1].
  rewrite <- Hjobs1. apply IH; [eapply inv_step; eassumption | exact Htodo1].
Qed.

(** C9, as the code has it. Once the task of a job has made its last
    assignment, the job has a terminal status and every later poll, after
    any further steps of the server, returns the same answer; a poll
    changes nothing. (Identifiers are taken to be drawn without
    repetition.) *)
Theorem finished_job_polls_stable E c c' id :
  Inj (=) (=) (uuid4 E) ->
  reachable E c ->
  todo c !! id = Some [] ->
  rtc (step E) c c' ->
  (exists r, seen id c = Ok r /\ terminal (r_status r) = true)
  /\ seen id c' = seen id c
  /\ (poll id c).2 = c /\ (poll id c').2 = c'.
Proof.
  intros Hinj Hreach Htodo Hsteps.
  pose proof (reachable_inv E c Hreach) as Hinv.
  split; [|split; [|split; apply poll_reads]].
  - destruct Hinv as (_ & I2 & I3).
    destruct (I3 id _ Htodo) as [j Hj].
    destruct (I2 id j Hj) as (performed & rest & Hrest & Hscript & Hrec).
    rewrite Htodo in Hrest. injection Hrest as <-. rewrite app_nil_r in Hscript.
    eexists. split; [apply (seen_record id c j Hj)|]. cbn [r_status].
    rewrite Hrec, <- Hscript. apply script_ends_terminal.
  - apply seen_same_record. eapply finished_steps; eassumption.
Qed.

Lemma tally_inj : Inj (=) (=) tally.
Proof.
  intros a. induction a as [|a IH]; intros [|b]; simpl; try discriminate.
  - reflexivity.
  - intros [= H]. f_equal. apply IH. exact H.
Qed.

Lemma finished_job_polls_stable_witness :
  Inj (=) (=) (uuid4 E_ok)
  /\ reachable E_ok finished
  /\ todo finished !! job1 = Some []
  /\ rtc (step E_ok) finished (submit E_ok sitzung finished)
  /\ (exists r, seen job1 finished = Ok r /\ terminal (r_status r) = true)
  /\ seen job1 (submit E_ok sitzung finished) = seen job1 finished
  /\ (poll job1 finished).2 = finished
  /\ (poll job1 (submit E_ok sitzung finished)).2 = submit E_ok sitzung finished.
Proof.
  assert (Hreach : reachable E_ok finished).
  { apply reachable_advance_n. exact reachable_mid_update. }
  assert (Hsteps : rtc (step E_ok) finished (submit E_ok sitzung finished)).
  { apply rtc_once. exact (step_submit E_ok sitzung finished). }
  split; [exact tally_inj|]. split; [exact Hreach|].
  split; [vm_compute; reflexivity|]. split; [exact Hsteps|].
  apply (finished_job_polls_stable E_ok finished (submit E_ok sitzung finished) job1);
    [exact tally_inj | exact Hreach | vm_compute; reflexivity | exact Hsteps].
Defined.

(** C9, as stated, fails: the status completed is assigned first (line
    191), so two successive polls of a job that already shows a terminal
    status differ, here in the progress. *)
Lemma terminal_status_before_last_write :
  ~ (forall c c' id r r',
       reachable E_ok c -> rtc (step E_ok) c c' ->
       seen id c = Ok r -> terminal (r_status r) = true ->
       seen id c' = Ok r' -> r = r').
Proof.
  intros H.
  assert (Hne : seen_mid_update = seen_next_update).
  { apply (H mid_update next_update job1).
    - exact reachable_mid_update.
    - apply rtc_once. exact (step_advance E_ok job1 mid_update).
    - vm_compute. reflexivity.
    - reflexivity.
    - vm_compute. reflexivity. }
  discriminate Hne.
Qed.

End ServerFacts.

(* ===================================================================== *)
(** * More about the background task                                       *)
(* ===================================================================== *)

Module RunExtras.
Import Py Transcribe Runtime Pipeline Main Lifecycle Server Sample Machine.
Import RunFacts MainFacts.
Local Open Scope list_scope.

(** The task run on a state that holds only its job: it returns, and the
    upload is removed exactly when the pipeline returned and the file
    system lets it be removed. *)
Lemma run_alone E id path (f : gmap string (list N)) :
  let out := run_transcription E id path
               (mkSys {[ id := initial_job path ]} f 0 [] []) in
  out.1 = Ok tt
  /\ fs out.2 = match pipeline_outcome E path, remove_error E path with
                | Ok _, None => delete path f
                | _, _ => f
                end.
Proof.
  cbv zeta. exec.
  destruct (import_whisperx E) as [[]|e] eqn:H0.
  2:{ destruct e; exec; split; reflexivity. }
  exec. destruct (load_model E _ _ _ _) as [model|e] eqn:H1.
  2:{ exec; split; reflexivity. }
  exec. destruct (load_audio E _) as [audio|e] eqn:H2.
  2:{ exec; split; reflexivity. }
  exec. destruct (model_transcribe E _ _ _ _) as [result|e] eqn:H3.
  2:{ exec; split; reflexivity. }
  exec. destruct (load_align_model E _ _) as [model_a|e] eqn:H4.
  2:{ exec; split; reflexivity. }
  exec. destruct (align E _ _ _ _) as [aligned|e] eqn:H5.
  2:{ exec; split; reflexivity. }
  exec. destruct (HF_TOKEN E) as [[|c tok]|] eqn:H6.
  1,3: exec; split; reflexivity.
  exec. destruct (DiarizationPipeline E _ _) as [dm|e] eqn:H7.
  2:{ exec; split; reflexivity. }
  exec. destruct (diarize E _ _) as [ds|e] eqn:H8.
  2:{ exec; split; reflexivity. }
  exec. destruct (assign_word_speakers E _ _) as [segs|e] eqn:H9.
  2:{ exec; split; reflexivity. }
  exec. destruct (f !! path) eqn:Hf; exec;
    destruct (remove_error E path); exec; split; try reflexivity.
  cbn. rewrite delete_id by exact Hf. reflexivity.
Qed.

(** The whole effect of the task on a state that holds its job. *)
Lemma run_transcription_exact E id path s j :
  jobs s !! id = Some j ->
  run_transcription E id path s
  = (Ok tt,
     mkSys (<[id := replay (job_writes id (script E id path)) j]> (jobs s))
           (match pipeline_outcome E path, remove_error E path with
            | Ok _, None => delete path (fs s)
            | _, _ => fs s
            end)
           (uuids_drawn s) (tasks s) (log s ++ script E id path)).
Proof.
  intros Hj. destruct (run_transcription_frame E id path) as (r & g & H).
  pose proof (run_alone E id path (fs s)) as [Hr Hg]. cbv zeta in Hr, Hg.
  rewrite (H (mkSys {[ id := initial_job path ]} (fs s) 0 [] []) (initial_job path))
    in Hr, Hg by apply lookup_singleton_eq.
  cbn [fst snd fs] in Hr, Hg. rewrite (H s j Hj), Hr, Hg. reflexivity.
Qed.



(** X: a task whose job is not in the store raises [KeyError] from its
    own handler, calls no stage and changes nothing. *)
Theorem task_of_missing_job_raises E id path s :
  jobs s !! id = None ->
  run_transcription E id path s = (Raise (KeyError id), s).
Proof.
  intros Hj.
  cbv [run_transcription try_except bind setitem get_sys raise]. rewrite Hj.
  cbv beta iota. rewrite Hj. reflexivity.
Qed.

Lemma task_of_missing_job_raises_witness :
  jobs (state boot) !! job1 = None
  /\ run_transcription E_ok job1 path1 (state boot) = (Raise (KeyError job1), state boot).
Proof.
  split; [reflexivity|].
  apply (task_of_missing_job_raises E_ok job1 path1 (state boot)). reflexivity.
Defined.

(** X: when the pipeline returns, the task returns, the job ends
    completed with progress 100 and the transcript the pipeline
    returned, and every stage has been called once in the order of the
    source. The removal of the upload is attempted and its failure is
    swallowed: the upload is gone when the file system lets it be
    removed, and when it does not, the upload directory is left as it
    was and the job is completed all the same. No other file is
    touched. *)
Theorem success_completes_and_cleanup_is_best_effort E id path s j t :
  jobs s !! id = Some j ->
  pipeline_outcome E path = Ok t ->
  let s' := (run_transcription E id path s).2 in
  (run_transcription E id path s).1 = Ok tt
  /\ jobs s' !! id
     = Some (mkJob completed 100 "Transkription abgeschlossen" (file_path j)
                   (Some t) (error j))
  /\ calls (drop (length (log s)) (log s')) = stage_order
  /\ (remove_error E path = None -> fs s' !! path = None)
  /\ (forall e, remove_error E path = Some e -> fs s' = fs s)
  /\ (forall other, other <> path -> fs s' !! other = fs s !! other).
Proof.
  intros Hj Hok. rewrite (run_transcription_exact E id path s j Hj). cbv zeta.
  cbn [fst snd jobs fs log]. rewrite Hok, drop_app_length, lookup_insert_eq.
  destruct (script_writes E id path) as (n & _ & Hw & Hc & Hn & _).
  rewrite Hw, Hc, Hok, (Hn t Hok). destruct j as [st pr msg fp tr er].
  split; [reflexivity|].
  split; [vm_compute; reflexivity|]. split; [vm_compute; reflexivity|].
  destruct (remove_error E path) as [e0|].
  - split; [discriminate|]. split; [reflexivity|]. reflexivity.
  - split; [intros _; apply lookup_delete_eq|]. split; [discriminate|].
    intros other Hne. apply lookup_delete_ne. congruence.
Qed.

Lemma success_completes_and_cleanup_is_best_effort_witness :
  (jobs started !! job1 = Some (initial_job path1)
   /\ pipeline_outcome E_ok path1 = Ok (convert_segments two_segments)
   /\ fs started !! path1 = Some [73; 68; 51]%N
   /\ fs (run_transcription E_ok job1 path1 started).2 !! path1 = None)
  /\ (jobs started_locked !! job1 = Some (initial_job path1)
      /\ pipeline_outcome E_locked path1 = Ok (convert_segments two_segments)
      /\ (run_transcription E_locked job1 path1 started_locked).1 = Ok tt
      /\ status <$> jobs (run_transcription E_locked job1 path1 started_locked).2 !! job1
         = Some completed
      /\ fs (run_transcription E_locked job1 path1 started_locked).2 !! path1
         = Some [73; 68; 51]%N).
Proof.
  split.
  - split; [reflexivity|]. split; [reflexivity|]. split; [reflexivity|].
    destruct (success_completes_and_cleanup_is_best_effort E_ok job1 path1 started
                (initial_job path1) (convert_segments two_segments) eq_refl eq_refl)
      as (_ & _ & _ & Hgone & _).
    exact (Hgone eq_refl).
  - split; [reflexivity|]. split; [reflexivity|].
    destruct (success_completes_and_cleanup_is_best_effort E_locked job1 path1
                started_locked (initial_job path1) (convert_segments two_segments)
                eq_refl eq_refl)
      as (Hr & Hjob & _ & _ & Hkept & _).
    split; [exact Hr|]. split; [rewrite Hjob; reflexivity|].
    rewrite (Hkept (OSError "[Errno 13] Permission denied: 'uploads/job_sitzung.mp3'")
               eq_refl).
    reflexivity.
Defined.

(** X: when the pipeline raises, the upload directory is left as it was:
    the upload of a failed job is not removed. *)
Theorem failure_keeps_upload E id path s j e :
  jobs s !! id = Some j ->
  pipeline_outcome E path = Raise e ->
  fs (run_transcription E id path s).2 = fs s.
Proof.
  intros Hj He. rewrite (run_transcription_exact E id path s j Hj).
  cbn [snd fs]. rewrite He. reflexivity.
Qed.

Lemma failure_keeps_upload_witness :
  jobs started_no_token !! job1 = Some (initial_job path1)
  /\ pipeline_outcome E_no_token path1 = Raise token_error
  /\ fs started_no_token !! path1 = Some [73; 68; 51]%N
  /\ fs (run_transcription E_no_token job1 path1 started_no_token).2
     = fs started_no_token.
Proof.
  split; [reflexivity|]. split; [reflexivity|]. split; [reflexivity|].
  apply (failure_keeps_upload E_no_token job1 path1 started_no_token
           (initial_job path1) token_error); reflexivity.
Defined.

(** X: the task of a job leaves every other job, the identifiers drawn
    and the scheduled tasks as they were; what it adds to the log are
    assignments to its own record and stage calls. *)
Theorem task_touches_own_job_only E id path s j :
  jobs s !! id = Some j ->
  let s' := (run_transcription E id path s).2 in
  (forall other, other <> id -> jobs s' !! other = jobs s !! other)
  /\ uuids_drawn s' = uuids_drawn s
  /\ tasks s' = tasks s
  /\ exists added, log s' = log s ++ added /\ Forall (own id) added.
Proof.
  intros Hj. rewrite (run_transcription_exact E id path s j Hj). cbv zeta.
  cbn [snd jobs uuids_drawn tasks log].
  split; [|split; [reflexivity|split; [reflexivity|]]].
  - intros other Hne. apply lookup_insert_ne. congruence.
  - exists (script E id path). split; [reflexivity | apply script_own].
Qed.

Lemma task_touches_own_job_only_witness :
  jobs started !! job1 = Some (initial_job path1)
  /\ let s' := (run_transcription E_ok job1 path1 started).2 in
     (forall other, other <> job1 -> jobs s' !! other = jobs started !! other)
     /\ uuids_drawn s' = uuids_drawn started
     /\ tasks s' = tasks started
     /\ exists added, log s' = log started ++ added /\ Forall (own job1) added.
Proof.
  split; [reflexivity|].
  apply (task_touches_own_job_only E_ok job1 path1 started (initial_job path1)).
  reflexivity.
Defined.

(** X: every value the progress of a job takes lies between 0 and 100;
    the values assigned are the initial 10 followed by strictly
    increasing checkpoints, and 100 is assigned exactly when the
    pipeline returns. *)
Theorem progress_in_range_and_rising_after_start E id path :
  let ws := job_writes id (script E id path) in
  (forall j, In j (points (initial_job path) ws) -> in_percent (progress j) = true)
  /\ exists rest,
       progress_writes ws = 10%Z :: rest
       /\ chain Z.ltb rest = true
       /\ (In 100%Z rest <-> exists t, pipeline_outcome E path = Ok t).
Proof.
  cbv zeta.
  destruct (script_writes E id path) as (n & Hn & -> & _ & Hok & _).
  destruct (pipeline_outcome E path) as [t|e].
  - rewrite (Hok t eq_refl). split.
    + apply forallb_forall. vm_compute. reflexivity.
    + eexists. split; [reflexivity|]. split; [vm_compute; reflexivity|].
      split; [eauto|]. intros _. vm_compute. pick_member.
  - clear Hok.
    do 24 (destruct n as [|n];
           [ split;
             [ apply forallb_forall; vm_compute; reflexivity
             | eexists; split; [reflexivity|]; split; [vm_compute; reflexivity|];
               split; [ vm_compute; intuition discriminate
                      | intros [t Ht]; discriminate Ht ] ] |]).
    exfalso. lia.
Qed.

(** X: the status of a job starts as pending, changes only from pending
    to processing and from processing to completed or failed, and ends
    terminal: completed exactly when the pipeline returns. *)
Theorem status_follows_the_machine E id path :
  let sts := map status (points (initial_job path)
                                (job_writes id (script E id path))) in
  chain allowed_step sts = true
  /\ head sts = Some pending
  /\ exists st, last sts = Some st /\ terminal st = true
                /\ (st = completed <-> exists t, pipeline_outcome E path = Ok t).
Proof.
  cbv zeta.
  destruct (script_writes E id path) as (n & Hn & -> & _ & Hok & _).
  destruct (pipeline_outcome E path) as [t|e].
  - rewrite (Hok t eq_refl).
    split; [vm_compute; reflexivity|]. split; [reflexivity|].
    exists completed. split; [vm_compute; reflexivity|]. split; [reflexivity|].
    split; eauto.
  - clear Hok.
    do 24 (destruct n as [|n];
           [ split; [vm_compute; reflexivity|]; split; [reflexivity|];
             exists failed; split; [vm_compute; reflexivity|];
             split; [reflexivity|];
             split; [discriminate | intros [t Ht]; discriminate Ht] |]).
    exfalso. lia.
Qed.

(** The script of a task when WhisperX cannot be imported. *)
Lemma script_without_whisperx E id path m :
  import_whisperx E = Raise (ImportError m) ->
  script E id path
  = prelude id ++ [EvCall StImport] ++ ending E id (Raise whisperx_missing)
  /\ pipeline_outcome E path = Raise whisperx_missing.
Proof. intros H. exec. rewrite H. exec. split; reflexivity. Qed.

(** X: when WhisperX cannot be imported, the [ImportError] is turned
    into a [RuntimeError] with the installation hint; the job fails with
    that text, its progress stays at 10, and no stage after the import
    is called. *)
Theorem missing_whisperx_fails_at_start E id path s j m :
  jobs s !! id = Some j ->
  import_whisperx E = Raise (ImportError m) ->
  let s' := (run_transcription E id path s).2 in
  pipeline_outcome E path = Raise whisperx_missing
  /\ jobs s' !! id
     = Some (mkJob failed 10
               "Fehler: WhisperX nicht installiert. Installieren Sie mit: uv sync --extra whisperx"
               (file_path j) (transcript j)
               (Some "WhisperX nicht installiert. Installieren Sie mit: uv sync --extra whisperx"))
  /\ calls (drop (length (log s)) (log s')) = [StImport].
Proof.
  intros Hj Him. rewrite (run_transcription_exact E id path s j Hj). cbv zeta.
  cbn [snd jobs log]. rewrite drop_app_length, lookup_insert_eq.
  destruct (script_without_whisperx E id path m Him) as [Hs Ho].
  split; [exact Ho|].
  rewrite job_writes_own by apply script_own. rewrite Hs.
  destruct j as [st pr msg fp tr er]. split; vm_compute; reflexivity.
Qed.

Lemma missing_whisperx_fails_at_start_witness :
  jobs started_no_whisperx !! job1 = Some (initial_job path1)
  /\ import_whisperx E_no_whisperx = Raise (ImportError "No module named 'whisperx'")
  /\ let s' := (run_transcription E_no_whisperx job1 path1 started_no_whisperx).2 in
     pipeline_outcome E_no_whisperx path1 = Raise whisperx_missing
     /\ jobs s' !! job1
        = Some (mkJob failed 10
                  "Fehler: WhisperX nicht installiert. Installieren Sie mit: uv sync --extra whisperx"
                  (file_path (initial_job path1)) (transcript (initial_job path1))
                  (Some "WhisperX nicht installiert. Installieren Sie mit: uv sync --extra whisperx"))
     /\ calls (drop (length (log started_no_whisperx)) (log s')) = [StImport].
Proof.
  split; [reflexivity|]. split; [reflexivity|].
  apply (missing_whisperx_fails_at_start E_no_whisperx job1 path1
           started_no_whisperx (initial_job path1) "No module named 'whisperx'");
    reflexivity.
Defined.

Ltac stopped_early k :=
  exec; split; [eexists; reflexivity|];
  split; [exists k; split; [lia | vm_compute; reflexivity]|];
  vm_compute; intuition discriminate.

(** X: without a HuggingFace token (unset or empty) the pipeline never
    returns a transcript and never calls the diarization or the merge:
    the stages called are an initial part of the first six; once the
    checkpoint 65 has been reported (the six stages succeeded) the
    pipeline raises the token error and the progress stays at 65. *)
Theorem missing_token_stops_before_diarization E id path :
  HF_TOKEN E = None \/ HF_TOKEN E = Some "" ->
  (exists e, pipeline_outcome E path = Raise e)
  /\ (exists k, (k <= 6)%nat /\ calls (script E id path) = take k stage_order)
  /\ (In 65%Z (progress_writes (writes_of (script E id path))) ->
      pipeline_outcome E path = Raise token_error
      /\ List.last (progress_writes (writes_of (script E id path))) 0%Z = 65%Z).
Proof.
  intros Htok. exec.
  destruct (import_whisperx E) as [[]|e] eqn:H0.
  2:{ destruct e; stopped_early 1%nat. }
  exec. destruct (load_model E _ _ _ _) as [model|e] eqn:H1.
  2:{ stopped_early 2%nat. }
  exec. destruct (load_audio E _) as [audio|e] eqn:H2.
  2:{ stopped_early 3%nat. }
  exec. destruct (model_transcribe E _ _ _ _) as [result|e] eqn:H3.
  2:{ stopped_early 4%nat. }
  exec. destruct (load_align_model E _ _) as [model_a|e] eqn:H4.
  2:{ stopped_early 5%nat. }
  exec. destruct (align E _ _ _ _) as [aligned|e] eqn:H5.
  2:{ stopped_early 6%nat. }
  exec. destruct Htok as [Htok|Htok]; rewrite Htok; exec;
    (split; [eexists; reflexivity|]);
    (split; [exists 6%nat; split; [lia | vm_compute; reflexivity]|]);
    intros _; split; vm_compute; reflexivity.
Qed.

Lemma missing_token_stops_before_diarization_witness :
  (HF_TOKEN E_no_token = None \/ HF_TOKEN E_no_token = Some "")
  /\ (exists e, pipeline_outcome E_no_token path1 = Raise e)
  /\ (exists k, (k <= 6)%nat
                /\ calls (script E_no_token job1 path1) = take k stage_order)
  /\ (In 65%Z (progress_writes (writes_of (script E_no_token job1 path1))) ->
      pipeline_outcome E_no_token path1 = Raise token_error
      /\ List.last (progress_writes (writes_of (script E_no_token job1 path1))) 0%Z
         = 65%Z).
Proof.
  split; [left; reflexivity|].
  apply (missing_token_stops_before_diarization E_no_token job1 path1).
  left. reflexivity.
Defined.

End RunExtras.

(* ===================================================================== *)
(** * More about the endpoints                                             *)
(* ===================================================================== *)

Module MainExtras.
Import Py Transcribe Runtime Pipeline Main Lifecycle Server Sample Machine.
Import RunFacts MainFacts ServerFacts.
Local Open Scope list_scope.

(** What a submission that passes the check of the type returns and
    leaves behind. *)
Lemma start_transcription_accepts E audio s :
  type_not_allowed (content_type audio)
  && negb (existsb (endswith (filename audio)) allowed_suffixes) = false ->
  let id := uuid4 E (uuids_drawn s) in
  let path := upload_path id (filename audio) in
  let stopped e f := (@Raise TranscriptionJob e,
                      mkSys (jobs s) f (S (uuids_drawn s)) (tasks s) (log s)) in
  start_transcription E audio s
  = match open_error E path with
    | Some e => stopped e (fs s)
    | None =>
        match read audio with
        | Raise e => stopped e (<[path := []]> (fs s))
        | Ok data =>
            match write_error E path data with
            | Some (e, n) => stopped e (<[path := take n data]> (fs s))
            | None =>
                (Ok (mkResponse id pending 0 "Transkription gestartet" None None),
                 mkSys (<[id := initial_job path]> (jobs s))
                       (<[path := data]> (fs s))
                       (S (uuids_drawn s))
                       (tasks s ++ [(id, path)])
                       (log s ++ [EvNew id (initial_job path)]))
            end
        end
    end.
Proof.
  intros Hguard. cbv zeta. unfold start_transcription. rewrite Hguard.
  unfold bind, draw_uuid, write_file. cbn [uuids_drawn jobs fs tasks log].
  destruct (open_error E _); [reflexivity|].
  unfold bind, get_sys, set_fs, set_jobs, emit, add_task, ret, raise.
  cbn [uuids_drawn jobs fs tasks log].
  destruct (read audio) as [data|e]; [|reflexivity].
  destruct (write_error E _ data) as [[e n]|];
    cbn [uuids_drawn jobs fs tasks log]; rewrite insert_insert_eq; reflexivity.
Qed.

Lemma append_empty (s : string) : (s ++ "")%string = s.
Proof. induction s as [|c s IH]; [reflexivity|]. exact (f_equal (String c) IH). Qed.

Lemma append_shift (a : string) (c : ascii) (b : string) :
  ((a ++ String c EmptyString) ++ b)%string = (a ++ String c b)%string.
Proof. induction a as [|x a IH]; [reflexivity|]. exact (f_equal (String x) IH). Qed.

Lemma split_at_no_slash (part s : string) :
  no_slash s = true -> split_at "/" part s = [(part ++ s)%string].
Proof.
  revert part. induction s as [|c s IH]; intros part Hs.
  - cbn [split_at]. rewrite append_empty. reflexivity.
  - cbn [no_slash] in Hs. apply andb_true_iff in Hs as [Hc Hs].
    cbn [split_at]. apply negb_true_iff in Hc. rewrite Hc.
    rewrite (IH _ Hs), append_shift. reflexivity.
Qed.

Lemma no_slash_app (a b : string) :
  no_slash a = true -> no_slash b = true -> no_slash (a ++ b) = true.
Proof.
  induction a as [|c a IH]; intros Ha Hb; [exact Hb|].
  change (no_slash (String c (a ++ b)) = true).
  cbn [no_slash] in *. apply andb_true_iff in Ha as [Hc Ha].
  rewrite Hc, (IH Ha Hb). reflexivity.
Qed.

(** The path of an upload when neither the identifier nor the name of
    the file holds a slash. *)
Lemma upload_path_plain (id name : string) :
  no_slash id = true -> no_slash name = true ->
  upload_path id name = ("uploads/" ++ id ++ "_" ++ name)%string.
Proof.
  intros Hid Hname.
  assert (Hb : no_slash (id ++ "_" ++ name) = true).
  { apply no_slash_app; [exact Hid|]. exact Hname. }
  unfold upload_path, path_str, posix_join.
  set (b := (id ++ "_" ++ name)%string) in *.
  assert (Hne : exists c r, b = String c r /\ Ascii.eqb c "/" = false
                            /\ (String.eqb b "." = false)).
  { unfold b. destruct id as [|c id'].
    - exists "_"%char, name. repeat split.
    - cbn [no_slash] in Hid. apply andb_true_iff in Hid as [Hc _].
      apply negb_true_iff in Hc.
      exists c, (id' ++ "_" ++ name)%string. split; [reflexivity|].
      split; [exact Hc|].
      change (String.eqb (String c (id' ++ "_" ++ name)) (String "." EmptyString)
              = false).
      cbn [String.eqb]. destruct (Ascii.eqb c "."); [|reflexivity].
      destruct id'; reflexivity. }
  destruct Hne as (c & r & Hbeq & Hc & Hdot).
  assert (Hpre : String.prefix "/" b = false).
  { rewrite Hbeq. cbn [String.prefix]. destruct (ascii_dec "/" c) as [<-|_].
    - discriminate Hc.
    - reflexivity. }
  rewrite Hpre.
  change (String.eqb "uploads" "" || endswith "uploads" "/") with false.
  cbv iota.
  assert (Hemp : String.eqb b "" = false) by (rewrite Hbeq; reflexivity).
  assert (Hroot : splitroot ("uploads" ++ "/" ++ b)
                  = (EmptyString, ("uploads/" ++ b)%string)) by reflexivity.
  rewrite Hroot.
  assert (Hsplit : split_at "/" EmptyString ("uploads/" ++ b)
                   = "uploads"%string :: split_at "/" EmptyString b) by reflexivity.
  rewrite Hsplit, (split_at_no_slash EmptyString b Hb).
  change (EmptyString ++ b)%string with b.
  cbn [List.filter]. rewrite Hemp, Hdot. reflexivity.
Qed.

(** X: a job that has just been submitted can be polled: the poll shows
    it pending with progress 0 and neither transcript nor error. What
    was read of the upload is stored under the path pathlib gives for
    the upload directory and "<job_id>_<filename>", which is
    "uploads/<job_id>_<filename>" when neither holds a slash; the
    record holds this path, and exactly one task, for this job and this
    path, has been added to the scheduled tasks. *)
Theorem submitted_job_polls_pending E audio s resp s' :
  start_transcription E audio s = (Ok resp, s') ->
  let id := r_job_id resp in
  let path := upload_path id (filename audio) in
  resp = mkResponse (uuid4 E (uuids_drawn s)) pending 0 "Transkription gestartet" None None
  /\ get_transcription_status id s'
     = (Ok (mkResponse id pending 0 "Audio hochgeladen" None None), s')
  /\ (exists data, read audio = Ok data /\ fs s' !! path = Some data)
  /\ file_path <$> jobs s' !! id = Some path
  /\ tasks s' = tasks s ++ [(id, path)]
  /\ (no_slash id = true -> no_slash (filename audio) = true ->
      path = ("uploads/" ++ id ++ "_" ++ filename audio)%string).
Proof.
  intros Hst.
  destruct (type_not_allowed (content_type audio)
            && negb (existsb (endswith (filename audio)) allowed_suffixes)) eqn:Hg.
  { unfold start_transcription in Hst. rewrite Hg in Hst. discriminate Hst. }
  rewrite (start_transcription_accepts E audio s Hg) in Hst. cbv zeta in Hst.
  destruct (open_error E _); [discriminate Hst|].
  destruct (read audio) as [data|e0]; [|discriminate Hst].
  destruct (write_error E _ data) as [[e0 n]|]; [discriminate Hst|].
  injection Hst as <- <-. cbv zeta. cbn [r_job_id fs tasks jobs].
  split; [reflexivity|]. split.
  { unfold get_transcription_status, bind, get_sys. cbn [jobs].
    rewrite lookup_insert_eq. reflexivity. }
  split; [exists data; split; [reflexivity | apply lookup_insert_eq]|].
  split; [rewrite lookup_insert_eq; reflexivity|].
  split; [reflexivity|].
  apply upload_path_plain.
Qed.

Lemma submitted_job_polls_pending_witness :
  (start_transcription E_ok sitzung (state boot) = (Ok response1, started)
   /\ get_transcription_status job1 started
      = (Ok (mkResponse job1 pending 0 "Audio hochgeladen" None None), started)
   /\ fs started !! "uploads/job_sitzung.mp3"%string = Some [73; 68; 51]%N
   /\ tasks started = [(job1, "uploads/job_sitzung.mp3"%string)])
  /\ (start_transcription E_ok slash_mp3 (state boot) = (Ok response1, started_slash)
      /\ tasks started_slash = [(job1, "uploads/job_x.mp3"%string)]).
Proof.
  split.
  - split; [reflexivity|].
    destruct (submitted_job_polls_pending E_ok sitzung (state boot) response1 started
                eq_refl) as (_ & Hpoll & (data & Hread & Hfs) & _ & Htasks & _).
    split; [exact Hpoll|]. split; [|exact Htasks].
    injection Hread as <-. exact Hfs.
  - split; [reflexivity|].
    destruct (submitted_job_polls_pending E_ok slash_mp3 (state boot) response1
                started_slash eq_refl) as (_ & _ & _ & _ & Htasks & _).
    exact Htasks.
Defined.

(** X: an allowed content type or an allowed suffix is enough: either
    one lets the submission through, which then creates the job under
    the next identifier, provided the upload can be read and written. *)
Theorem allowed_type_or_suffix_is_accepted E audio s data :
  (exists t, content_type audio = Some t /\ In t allowed_types)
  \/ (exists suffix, In suffix allowed_suffixes
                     /\ endswith (filename audio) suffix = true) ->
  let id := uuid4 E (uuids_drawn s) in
  let path := upload_path id (filename audio) in
  open_error E path = None ->
  read audio = Ok data ->
  write_error E path data = None ->
  exists s',
    start_transcription E audio s
    = (Ok (mkResponse id pending 0 "Transkription gestartet" None None), s')
    /\ jobs s' !! id = Some (mkJob pending 0 "Audio hochgeladen" path None None).
Proof.
  intros Hallowed. cbv zeta. intros Hopen Hread Hwrite.
  assert (Hg : type_not_allowed (content_type audio)
               && negb (existsb (endswith (filename audio)) allowed_suffixes) = false).
  { destruct Hallowed as [(t & Ht & Hin) | (suffix & Hin & Hs)].
    - rewrite Ht. cbn [type_not_allowed].
      assert (Hex : existsb (String.eqb t) allowed_types = true).
      { apply existsb_exists. exists t. split; [exact Hin | apply String.eqb_refl]. }
      rewrite Hex. reflexivity.
    - assert (Hex : existsb (endswith (filename audio)) allowed_suffixes = true).
      { apply existsb_exists. exists suffix. split; assumption. }
      rewrite Hex. apply andb_false_r. }
  rewrite (start_transcription_accepts E audio s Hg). cbv zeta.
  rewrite Hopen, Hread, Hwrite.
  eexists. split; [reflexivity|]. cbn [jobs]. apply lookup_insert_eq.
Qed.

Lemma allowed_type_or_suffix_is_accepted_witness :
  ((exists t, content_type octet_mp3 = Some t /\ In t allowed_types)
   \/ (exists suffix, In suffix allowed_suffixes
                      /\ endswith (filename octet_mp3) suffix = true))
  /\ type_not_allowed (content_type octet_mp3) = true
  /\ open_error E_ok (upload_path (uuid4 E_ok (uuids_drawn started))
                        (filename octet_mp3)) = None
  /\ read octet_mp3 = Ok [1; 2]%N
  /\ write_error E_ok (upload_path (uuid4 E_ok (uuids_drawn started))
                         (filename octet_mp3)) [1; 2]%N = None
  /\ exists s',
       start_transcription E_ok octet_mp3 started
       = (Ok (mkResponse (uuid4 E_ok (uuids_drawn started)) pending 0
                "Transkription gestartet" None None), s')
       /\ jobs s' !! uuid4 E_ok (uuids_drawn started)
          = Some (mkJob pending 0 "Audio hochgeladen"
                    (upload_path (uuid4 E_ok (uuids_drawn started))
                       (filename octet_mp3)) None None).
Proof.
  assert (H : (exists t, content_type octet_mp3 = Some t /\ In t allowed_types)
   \/ (exists suffix, In suffix allowed_suffixes
                      /\ endswith (filename octet_mp3) suffix = true)).
  { right. exists ".mp3"%string. split; [left; reflexivity | reflexivity]. }
  split; [exact H|]. split; [reflexivity|]. split; [reflexivity|].
  split; [reflexivity|]. split; [reflexivity|].
  apply (allowed_type_or_suffix_is_accepted E_ok octet_mp3 started [1; 2]%N H);
    reflexivity.
Defined.

(** X: when saving the upload fails, the submission raises the error
    after an identifier has been drawn, and in every case no job is
    stored, nothing is logged and no task is scheduled. When the file
    cannot be opened the upload directory is left as it was; when
    reading the upload fails the file that was opened is left behind
    empty, and when writing fails it is left behind with what had been
    written: nothing removes it. *)
Theorem failed_save_creates_no_job E audio s e :
  type_not_allowed (content_type audio)
  && negb (existsb (endswith (filename audio)) allowed_suffixes) = false ->
  let path := upload_path (uuid4 E (uuids_drawn s)) (filename audio) in
  let stopped f := (@Raise TranscriptionJob e,
                    mkSys (jobs s) f (S (uuids_drawn s)) (tasks s) (log s)) in
  (open_error E path = Some e ->
   start_transcription E audio s = stopped (fs s))
  /\ (open_error E path = None -> read audio = Raise e ->
      start_transcription E audio s = stopped (<[path := []]> (fs s)))
  /\ (forall data n,
        open_error E path = None -> read audio = Ok data ->
        write_error E path data = Some (e, n) ->
        start_transcription E audio s = stopped (<[path := take n data]> (fs s))).
Proof.
  intros Hg. cbv zeta. rewrite (start_transcription_accepts E audio s Hg). cbv zeta.
  split; [|split].
  - intros ->. reflexivity.
  - intros -> ->. reflexivity.
  - intros data n -> -> ->. reflexivity.
Qed.

Lemma failed_save_creates_no_job_witness :
  start_transcription E_read_only sitzung (state boot)
  = (Raise (OSError "Read-only file system"), mkSys ∅ ∅ 1 [] [])
  /\ start_transcription E_ok unreadable (state boot)
     = (Raise (OSError "read failed"),
        mkSys ∅ {[ "uploads/job_sitzung.mp3"%string := [] ]} 1 [] [])
  /\ start_transcription E_disk_full sitzung (state boot)
     = (Raise (OSError "[Errno 28] No space left on device"),
        mkSys ∅ {[ "uploads/job_sitzung.mp3"%string := [73; 68]%N ]} 1 [] []).
Proof.
  split; [|split].
  - exact (proj1 (failed_save_creates_no_job E_read_only sitzung (state boot)
                    (OSError "Read-only file system") eq_refl) eq_refl).
  - exact (proj1 (proj2 (failed_save_creates_no_job E_ok unreadable (state boot)
                           (OSError "read failed") eq_refl)) eq_refl eq_refl).
  - exact (proj2 (proj2 (failed_save_creates_no_job E_disk_full sitzung (state boot)
                           (OSError "[Errno 28] No space left on device") eq_refl))
             [73; 68; 51]%N 2%nat eq_refl eq_refl eq_refl).
Defined.

End MainExtras.

(* ===================================================================== *)
(** * More about the server                                                *)
(* ===================================================================== *)

Module ServerExtras.
Import Py Transcribe Runtime Pipeline Main Lifecycle Server Sample Machine.
Import RunFacts MainFacts ServerFacts RunExtras.
Local Open Scope list_scope.

(** X: in every state of the server, polling an identifier that no
    submission has drawn is answered with the HTTP error 404, never with
    a default job. *)
Theorem never_issued_id_is_not_found E c id :
  reachable E c ->
  (forall k, (k < uuids_drawn (state c))%nat -> uuid4 E k <> id) ->
  seen id c = Raise (HTTPException 404 "Job nicht gefunden").
Proof.
  intros Hreach Hfresh. destruct (reachable_inv E c Hreach) as (I1 & _).
  unfold seen, poll, get_transcription_status, bind, get_sys.
  destruct (jobs (state c) !! id) as [j|] eqn:Hj; [|reflexivity].
  destruct (I1 id j Hj) as (k & Hk & ->). exfalso. exact (Hfresh k Hk eq_refl).
Qed.

Lemma never_issued_id_is_not_found_witness :
  reachable E_ok mid_update
  /\ (forall k, (k < uuids_drawn (state mid_update))%nat -> uuid4 E_ok k <> "job2")
  /\ seen "job2" mid_update = Raise (HTTPException 404 "Job nicht gefunden").
Proof.
  assert (H : forall k, (k < uuids_drawn (state mid_update))%nat
                        -> uuid4 E_ok k <> "job2").
  { intros [|k] Hk; [discriminate|]. exfalso.
    change (uuids_drawn (state mid_update)) with 1%nat in Hk. lia. }
  split; [exact reachable_mid_update|]. split; [exact H|].
  apply (never_issued_id_is_not_found E_ok mid_update "job2");
    [exact reachable_mid_update | exact H].
Defined.

Lemma perform_keeps_jobs ev s id :
  is_Some (jobs s !! id) -> is_Some (jobs (perform ev s) !! id).
Proof.
  intros Hid. destruct ev as [i j|i w|st]; try exact Hid.
  unfold perform, setitem, bind, get_sys, set_jobs, emit, raise.
  destruct (jobs s !! i) as [j|] eqn:Hi; cbn; [|exact Hid].
  destruct (decide (i = id)) as [->|Hne].
  - rewrite lookup_insert_eq. eauto.
  - rewrite lookup_insert_ne by exact Hne. exact Hid.
Qed.

Lemma step_keeps_jobs E c c' id :
  step E c c' -> is_Some (jobs (state c) !! id) -> is_Some (jobs (state c') !! id).
Proof.
  intros Hstep. destruct Hstep as [audio c|id' c|id' c]; intros Hid.
  - unfold submit.
    destruct (start_transcription E audio (state c)) as [[resp|e] s'] eqn:Hst.
    + destruct (start_transcription_ok E audio (state c) resp s' Hst)
        as (_ & Hjobs & _ & _ & Htasks & _).
      rewrite Htasks, last_snoc. cbn [state]. rewrite Hjobs.
      destruct (decide (uuid4 E (uuids_drawn (state c)) = id)) as [->|Hne].
      * rewrite lookup_insert_eq. eauto.
      * rewrite lookup_insert_ne by exact Hne. exact Hid.
    + destruct (start_transcription_raise E audio (state c) e s' Hst) as (Hjobs & _).
      cbn [state]. rewrite Hjobs. exact Hid.
  - unfold advance. destruct (todo c !! id') as [[|ev evs]|]; try exact Hid.
    cbn [state]. apply perform_keeps_jobs. exact Hid.
  - rewrite poll_reads. exact Hid.
Qed.

(** X: no step of the server removes a job: once a job is in the store,
    every later poll of its identifier is answered with a job of that
    identifier, never with 404. *)
Theorem stored_job_stays_pollable E c c' id :
  rtc (step E) c c' ->
  is_Some (jobs (state c) !! id) ->
  exists r, seen id c' = Ok r /\ r_job_id r = id.
Proof.
  intros Hsteps Hid.
  assert (Hid' : is_Some (jobs (state c') !! id)).
  { induction Hsteps as [|c c1 c' Hstep _ IH]; [exact Hid|].
    apply IH. eapply step_keeps_jobs; eassumption. }
  destruct Hid' as [j Hj]. rewrite (seen_record id c' j Hj).
  eexists. split; reflexivity.
Qed.

Lemma stored_job_stays_pollable_witness :
  rtc (step E_ok) mid_update next_update
  /\ is_Some (jobs (state mid_update) !! job1)
  /\ exists r, seen job1 next_update = Ok r /\ r_job_id r = job1.
Proof.
  assert (Hs : rtc (step E_ok) mid_update next_update).
  { apply rtc_once. exact (step_advance E_ok job1 mid_update). }
  assert (Hj : is_Some (jobs (state mid_update) !! job1)).
  { eexists. vm_compute. reflexivity. }
  split; [exact Hs|]. split; [exact Hj|].
  apply (stored_job_stays_pollable E_ok mid_update next_update job1 Hs Hj).
Defined.

(** X: a recording without words completes with an empty transcript,
    which the status endpoint reports as no transcript at all: the poll
    of the completed job shows neither transcript nor error. *)
Theorem empty_transcript_is_reported_absent E id path s j :
  jobs s !! id = Some j ->
  error j = None ->
  pipeline_outcome E path = Ok [] ->
  let s' := (run_transcription E id path s).2 in
  transcript <$> jobs s' !! id = Some (Some [])
  /\ (get_transcription_status id s').1
     = Ok (mkResponse id completed 100 "Transkription abgeschlossen" None None).
Proof.
  intros Hj Herr Hok. rewrite (run_transcription_exact E id path s j Hj). cbv zeta.
  unfold get_transcription_status, bind, get_sys. cbn [snd fst jobs].
  rewrite lookup_insert_eq.
  destruct (script_writes E id path) as (n & _ & Hw & _ & Hn & _).
  rewrite Hw, Hok, (Hn [] Hok). destruct j as [st pr msg fp tr er].
  cbn [error] in Herr. subst er. split; vm_compute; reflexivity.
Qed.

Lemma empty_transcript_is_reported_absent_witness :
  jobs started_silent !! job1 = Some (initial_job path1)
  /\ error (initial_job path1) = None
  /\ pipeline_outcome E_silent path1 = Ok []
  /\ let s' := (run_transcription E_silent job1 path1 started_silent).2 in
     transcript <$> jobs s' !! job1 = Some (Some [])
     /\ (get_transcription_status job1 s').1
        = Ok (mkResponse job1 completed 100 "Transkription abgeschlossen" None None).
Proof.
  split; [reflexivity|]. split; [reflexivity|]. split; [reflexivity|].
  apply (empty_transcript_is_reported_absent E_silent job1 path1 started_silent
           (initial_job path1)); reflexivity.
Defined.

(** X: the poll of a job that completed with a transcript shows the
    whole transcript the pipeline returned, line for line and in order. *)
Theorem completed_job_shows_whole_transcript E id path s j t :
  jobs s !! id = Some j ->
  pipeline_outcome E path = Ok t ->
  t <> [] ->
  (get_transcription_status id (run_transcription E id path s).2).1
  = Ok (mkResponse id completed 100 "Transkription abgeschlossen" (Some t) (error j)).
Proof.
  intros Hj Hok Hne. rewrite (run_transcription_exact E id path s j Hj).
  unfold get_transcription_status, bind, get_sys. cbn [snd fst jobs].
  rewrite lookup_insert_eq.
  destruct (script_writes E id path) as (n & _ & Hw & _ & Hn & _).
  rewrite Hw, Hok, (Hn t Hok). destruct j as [st pr msg fp tr er].
  destruct t as [|l t']; [congruence|].
  unfold ret. cbn [fst]. f_equal.
  change (replay (writes_upto E id 23 (Ok (l :: t'))) (mkJob st pr msg fp tr er))
    with (mkJob completed 100 "Transkription abgeschlossen" fp (Some (l :: t')) er).
  cbn [status progress message transcript error]. rewrite map_id. reflexivity.
Qed.

Lemma completed_job_shows_whole_transcript_witness :
  jobs started !! job1 = Some (initial_job path1)
  /\ pipeline_outcome E_ok path1 = Ok (convert_segments two_segments)
  /\ convert_segments two_segments <> []
  /\ (get_transcription_status job1 (run_transcription E_ok job1 path1 started).2).1
     = Ok (mkResponse job1 completed 100 "Transkription abgeschlossen"
             (Some (convert_segments two_segments)) (error (initial_job path1))).
Proof.
  split; [reflexivity|]. split; [reflexivity|]. split; [discriminate|].
  apply (completed_job_shows_whole_transcript E_ok job1 path1 started
           (initial_job path1) (convert_segments two_segments));
    [reflexivity | reflexivity | discriminate].
Defined.

End ServerExtras.

(* ===================================================================== *)
(** * More about the conversion loop and the parser                        *)
(* ===================================================================== *)

Module TranscribeExtras.
Import Py Transcribe PyFacts TranscribeFacts Format.
Local Open Scope list_scope.
Local Open Scope nat_scope.

Lemma lstrip_length (s : pystr) : length (lstrip s) <= length s.
Proof.
  destruct (lstrip_suffix s) as [p Hp]. rewrite Hp at 2.
  rewrite length_app. lia.
Qed.

Lemma lstrip_fixed (s : pystr) : length (lstrip s) = length s -> lstrip s = s.
Proof.
  destruct (lstrip_suffix s) as [p Hp]. intros Hlen.
  rewrite Hp in Hlen at 2. rewrite length_app in Hlen.
  destruct p as [|x p]; [symmetry; exact Hp | simpl in Hlen; lia].
Qed.

Lemma rstrip_length (s : pystr) : length (rstrip s) <= length s.
Proof.
  unfold rstrip. rewrite length_rev. etransitivity; [apply lstrip_length|].
  rewrite length_rev. reflexivity.
Qed.

Lemma rstrip_idem (s : pystr) : rstrip (rstrip s) = rstrip s.
Proof. unfold rstrip. rewrite rev_involutive, lstrip_idem. reflexivity. Qed.

(** What [rstrip] leaves starts as the string started. *)
Lemma rstrip_prefix (s : pystr) : exists q, s = rstrip s ++ q.
Proof.
  unfold rstrip. destruct (lstrip_suffix (rev s)) as [p Hp].
  exists (rev p). rewrite <- rev_app_distr, <- Hp, rev_involutive. reflexivity.
Qed.

Lemma lstrip_head (c : N) (r : pystr) :
  is_space c = false -> lstrip (c :: r) = c :: r.
Proof. intros H. simpl. rewrite H. reflexivity. Qed.

Lemma lstrip_rstrip_lstrip (s : pystr) : lstrip (rstrip (lstrip s)) = rstrip (lstrip s).
Proof.
  destruct (rstrip_prefix (lstrip s)) as [q Hq].
  destruct (rstrip (lstrip s)) as [|c r] eqn:Hr; [reflexivity|].
  apply lstrip_head.
  assert (Hl : lstrip (lstrip s) = lstrip s) by apply lstrip_idem.
  rewrite Hq in Hl. simpl in Hl.
  destruct (is_space c) eqn:Hc; [|reflexivity].
  exfalso. pose proof (lstrip_length (r ++ q)) as Hlen.
  rewrite Hl in Hlen. simpl in Hlen. lia.
Qed.

Lemma strip_idem (s : pystr) : strip (strip s) = strip s.
Proof.
  unfold strip. rewrite lstrip_rstrip_lstrip. apply rstrip_idem.
Qed.

(** X: every line the conversion loop produces has a text that is not
    empty and has no white space at either end, and the loop works
    segment by segment: converting two lists one after the other is
    converting their concatenation. *)
Theorem convert_segments_lines_trimmed (a b : list segment) :
  Forall (fun l => trimmed (text l)) (convert_segments a)
  /\ convert_segments (a ++ b) = convert_segments a ++ convert_segments b.
Proof.
  unfold convert_segments. rewrite !convert_fold. simpl. split.
  - apply List.Forall_forall. intros l Hl. apply in_map_iff in Hl as (seg & <- & Hseg).
    apply filter_In in Hseg as [_ Hk]. unfold seg_kept in Hk.
    unfold seg_line, seg_trimmed in *. simpl. split.
    + intros H. rewrite H in Hk. discriminate Hk.
    + apply strip_idem.
  - rewrite List.filter_app, map_app. reflexivity.
Qed.

Lemma span_forallb (p : N -> bool) (s a b : pystr) :
  span p s = (a, b) -> forallb p a = true.
Proof.
  revert a b. induction s as [|c r IH]; intros a b; simpl.
  - intros [= <- _]. reflexivity.
  - destruct (p c) eqn:Hc.
    + destruct (span p r) as [a' b'] eqn:Hs. intros [= <- _]. simpl.
      rewrite Hc. exact (IH a' b' eq_refl).
    + intros [= <- _]. reflexivity.
Qed.

(** Universal newlines leave no carriage return. *)
Lemma translate_newlines_no_cr (s : pystr) : ~ In 13%N (translate_newlines s).
Proof.
  assert (H : forall n s, length s <= n -> ~ In 13%N (translate_newlines s)).
  { clear s. induction n as [|n IH]; intros s Hlen.
    - destruct s as [|c r]; [simpl; tauto | simpl in Hlen; lia].
    - destruct s as [|c r]; [simpl; tauto|]. simpl in Hlen.
      cbn [translate_newlines]. destruct (c =? 13)%N eqn:Hc.
      + destruct r as [|d r'].
        * intros [H|[]]. discriminate H.
        * simpl in Hlen. destruct (d =? 10)%N.
          -- intros [H|H]; [discriminate H|]. revert H. apply IH. lia.
          -- intros [H|H]; [discriminate H|]. revert H. apply IH. simpl. lia.
      + apply N.eqb_neq in Hc. intros [H|H]; [congruence|].
        revert H. apply IH. lia. }
  apply (H (length s)). lia.
Qed.

Lemma split_lines_In (s cur l : pystr) (c : N) :
  In l (split_lines cur s) -> In c l -> In c cur \/ In c s.
Proof.
  revert cur. induction s as [|x r IH]; intros cur; simpl.
  - destruct cur as [|y cur']; [tauto|]. intros [<-|[]]. tauto.
  - destruct (x =? 10)%N eqn:Hx.
    + intros [<-|Hl] Hc.
      * apply in_app_or in Hc as [Hc|[Hc|[]]]; auto.
      * destruct (IH [] Hl Hc) as [[]|H]. auto.
    + intros Hl Hc. destruct (IH _ Hl Hc) as [H|H]; [|auto].
      apply in_app_or in H as [H|[H|[]]]; auto.
Qed.

Lemma file_lines_no_cr (content l : pystr) :
  In l (file_lines content) -> ~ In 13%N l.
Proof.
  unfold file_lines. intros Hl Hc.
  destruct (split_lines_In _ [] l 13%N Hl Hc) as [[]|H].
  exact (translate_newlines_no_cr content H).
Qed.

(** What the line format yields can be written back. *)
Lemma spec_line_writable (is_decimal : N -> bool) (line : pystr) (l : TranscriptLine) :
  ~ In 10%N (strip line) -> ~ In 13%N line ->
  spec_line is_decimal line = Some l -> writable is_decimal l.
Proof.
  intros Hnl Hcr. unfold spec_line.
  destruct (strip_prefix (of_string "[SPEAKER_") (strip line)) as [r|] eqn:Hr;
    [|discriminate].
  destruct (span is_decimal r) as [digits r'] eqn:Hsp.
  destruct digits as [|d ds]; [discriminate|].
  destruct (strip_prefix (of_string "]:") r') as [t|] eqn:Ht; [|discriminate].
  destruct (truthy (strip t)) eqn:Htr; [|discriminate].
  intros [= <-]. exists (d :: ds). simpl speaker. simpl text.
  assert (Hin : forall c, In c (strip t) -> In c (strip line)).
  { intros c Hc. eapply strip_prefix_In; [exact Hr|].
    eapply span_In_r; [exact Hsp|].
    eapply strip_prefix_In; [exact Ht|]. apply strip_In. exact Hc. }
  split; [reflexivity|]. split; [discriminate|].
  split; [exact (span_forallb _ _ _ _ Hsp)|].
  split; [|split].
  - split; [|apply strip_idem]. intros H. rewrite H in Htr. discriminate Htr.
  - intros H. exact (Hnl (Hin _ H)).
  - intros H. apply Hcr. apply strip_In. exact (Hin _ H).
Qed.

(** X: every line the parser returns has a speaker of the form
    "SPEAKER_" followed by at least one decimal digit and a text that is
    not empty, has no white space at either end and contains no line
    break. *)
Theorem parsed_lines_are_writable (is_decimal : N -> bool) (content : pystr) :
  (forall c, (c < 128)%N -> is_decimal c = ascii_digit c) ->
  Forall (writable is_decimal) (parse_transcript_file is_decimal content).
Proof.
  intros Hd. unfold parse_transcript_file.
  rewrite (parse_fold is_decimal Hd) by apply file_lines_strip. simpl.
  apply Forall_forall. intros l Hl.
  apply list_elem_of_omap in Hl as (line & Hline & Hspec).
  apply list_elem_of_In in Hline.
  eapply spec_line_writable; [| |exact Hspec].
  - pose proof (file_lines_strip content) as H.
    rewrite List.Forall_forall in H. apply H. exact Hline.
  - eapply file_lines_no_cr. exact Hline.
Qed.

Lemma parsed_lines_are_writable_witness :
  (forall c, (c < 128)%N -> ascii_digit c = ascii_digit c)
  /\ Forall (writable ascii_digit) (parse_transcript_file ascii_digit example_text).
Proof.
  split; [reflexivity|].
  apply (parsed_lines_are_writable ascii_digit example_text). reflexivity.
Defined.

Lemma translate_newlines_id (s : pystr) :
  ~ In 13%N s -> translate_newlines s = s.
Proof.
  induction s as [|c r IH]; intros H; [reflexivity|].
  cbn [translate_newlines]. destruct (c =? 13)%N eqn:Hc.
  - apply N.eqb_eq in Hc. subst c. exfalso. apply H. left. reflexivity.
  - rewrite IH; [reflexivity|]. intros Hr. apply H. right. exact Hr.
Qed.

Lemma split_lines_line (b cur rest : pystr) :
  ~ In 10%N b ->
  split_lines cur (b ++ 10%N :: rest) = (cur ++ b ++ [10%N]) :: split_lines [] rest.
Proof.
  revert cur. induction b as [|c b IH]; intros cur Hb; simpl.
  - reflexivity.
  - destruct (c =? 10)%N eqn:Hc.
    + apply N.eqb_eq in Hc. subst c. exfalso. apply Hb. left. reflexivity.
    + rewrite IH by (intros H; apply Hb; right; exact H).
      rewrite <- app_assoc. reflexivity.
Qed.

Lemma strip_prefix_app (pre r : pystr) : strip_prefix pre (pre ++ r) = Some r.
Proof.
  induction pre as [|p pre IH]; simpl; [reflexivity|].
  rewrite N.eqb_refl. exact IH.
Qed.

Lemma span_app_stop (p : N -> bool) (a : pystr) (c : N) (b : pystr) :
  forallb p a = true -> p c = false -> span p (a ++ c :: b) = (a, c :: b).
Proof.
  intros Ha Hc. induction a as [|x a IH]; simpl.
  - rewrite Hc. reflexivity.
  - simpl in Ha. apply andb_prop in Ha as [Hx Ha]. rewrite Hx, (IH Ha). reflexivity.
Qed.

Lemma lstrip_app_fixed (a b : pystr) :
  lstrip a = a -> a <> [] -> lstrip (a ++ b) = a ++ b.
Proof.
  destruct a as [|c a']; [congruence|]. intros H _. simpl in *.
  destruct (is_space c); [|reflexivity].
  exfalso. pose proof (lstrip_length a') as Hlen. rewrite H in Hlen.
  simpl in Hlen. lia.
Qed.

Lemma trimmed_ends (s : pystr) : trimmed s -> lstrip s = s /\ rstrip s = s.
Proof.
  intros [_ Hs]. unfold strip in Hs.
  assert (Hl : lstrip s = s).
  { apply lstrip_fixed. pose proof (lstrip_length s) as H1.
    pose proof (rstrip_length (lstrip s)) as H2. rewrite Hs in H2. lia. }
  split; [exact Hl|]. rewrite Hl in Hs. exact Hs.
Qed.

Lemma rstrip_app_fixed (pre s : pystr) :
  trimmed s -> rstrip (pre ++ s) = pre ++ s.
Proof.
  intros Hs. destruct (trimmed_ends s Hs) as [_ Hr]. destruct Hs as [Hne _].
  unfold rstrip in *. rewrite rev_app_distr.
  assert (Hrev : lstrip (rev s) = rev s).
  { rewrite <- (rev_involutive (lstrip (rev s))), Hr. reflexivity. }
  rewrite lstrip_app_fixed.
  - rewrite <- rev_app_distr, rev_involutive. reflexivity.
  - exact Hrev.
  - intros H. apply Hne. rewrite <- (rev_involutive s), H. reflexivity.
Qed.

Section RoundTrip.
Variable is_decimal : N -> bool.
Hypothesis decimal_ascii :
  forall c, (c < 128)%N -> is_decimal c = ascii_digit c.

Lemma digits_clean (digits : pystr) (c : N) :
  forallb is_decimal digits = true -> In c digits -> c <> 10%N /\ c <> 13%N.
Proof.
  intros Hall Hc. rewrite forallb_forall in Hall. specialize (Hall c Hc).
  split; intros ->; rewrite decimal_ascii in Hall by reflexivity; discriminate Hall.
Qed.

Lemma format_line_clean (l : TranscriptLine) :
  writable is_decimal l ->
  ~ In 10%N (format_line l) /\ ~ In 13%N (format_line l).
Proof.
  intros (digits & Hsp & _ & Hall & _ & Hnl & Hcr). unfold format_line. rewrite Hsp.
  split; intros H;
    repeat (apply in_app_or in H as [H|H]);
    try (vm_compute in H; intuition discriminate);
    try (destruct (digits_clean digits _ Hall H); congruence);
    tauto.
Qed.

(** A written line is read back as the line it was written from. *)
Lemma spec_line_format (l : TranscriptLine) :
  writable is_decimal l ->
  spec_line is_decimal (format_line l ++ [10%N]) = Some l.
Proof.
  intros (digits & Hsp & Hne & Hall & Htr & Hnl & Hcr).
  destruct l as [sp tx]. cbn [speaker text] in *. subst sp.
  assert (Hfl : format_line (mkLine (of_string "SPEAKER_" ++ digits) tx)
                = of_string "[SPEAKER_" ++ digits ++ 93%N :: 58%N :: 32%N :: tx).
  { unfold format_line. simpl speaker. simpl text.
    change (of_string "[SPEAKER_") with (of_string "[" ++ of_string "SPEAKER_").
    rewrite <- !app_assoc. reflexivity. }
  assert (Hstrip : strip (format_line (mkLine (of_string "SPEAKER_" ++ digits) tx)
                          ++ [10%N])
                   = of_string "[SPEAKER_" ++ digits ++ 93%N :: 58%N :: 32%N :: tx).
  { rewrite Hfl. unfold strip.
    change (lstrip ((of_string "[SPEAKER_" ++ digits ++ 93%N :: 58%N :: 32%N :: tx)
                    ++ [10%N]))
      with ((of_string "[SPEAKER_" ++ digits ++ 93%N :: 58%N :: 32%N :: tx) ++ [10%N]).
    rewrite rstrip_line.
    replace (of_string "[SPEAKER_" ++ digits ++ 93%N :: 58%N :: 32%N :: tx)
      with ((of_string "[SPEAKER_" ++ digits ++ [93%N; 58%N; 32%N]) ++ tx)
      by (rewrite <- !app_assoc; reflexivity).
    apply rstrip_app_fixed. exact Htr. }
  unfold spec_line. rewrite Hstrip, strip_prefix_app.
  rewrite span_app_stop;
    [| exact Hall | rewrite decimal_ascii by reflexivity; reflexivity].
  destruct digits as [|d ds]; [congruence|].
  change (strip_prefix (of_string "]:") (93%N :: 58%N :: 32%N :: tx))
    with (Some (32%N :: tx)).
  assert (Ht : strip (32%N :: tx) = tx).
  { change (strip (32%N :: tx)) with (strip tx). apply Htr. }
  cbv beta iota zeta. rewrite Ht. destruct Htr as [Hne' _].
  destruct tx as [|c tx']; [congruence|]. reflexivity.
Qed.

Lemma file_lines_format (ls : list TranscriptLine) :
  Forall (writable is_decimal) ls ->
  file_lines (format_transcript ls) = map (fun l => format_line l ++ [10%N]) ls.
Proof.
  intros Hls. unfold file_lines.
  assert (Hcr : ~ In 13%N (format_transcript ls)).
  { unfold format_transcript. induction Hls as [|l ls Hl _ IH]; [simpl; tauto|].
    rewrite map_cons, concat_cons. intros H.
    apply in_app_or in H as [H|H]; [|exact (IH H)].
    apply in_app_or in H as [H|H].
    - exact (proj2 (format_line_clean l Hl) H).
    - destruct H as [H|[]]. discriminate H. }
  rewrite translate_newlines_id by exact Hcr. clear Hcr.
  unfold format_transcript. induction Hls as [|l ls Hl _ IH]; [reflexivity|].
  rewrite !map_cons, concat_cons, <- app_assoc.
  change ([10%N] ++ ?x) with (10%N :: x).
  rewrite split_lines_line by exact (proj1 (format_line_clean l Hl)).
  rewrite IH. reflexivity.
Qed.

End RoundTrip.

(** X: a transcript written in the file format is read back unchanged:
    when every line has a speaker "SPEAKER_<digits>" and a trimmed,
    non-empty text without line breaks, parsing the text made of the
    lines "[speaker]: text" returns exactly these lines, in order. *)
Theorem written_transcript_parses_back (is_decimal : N -> bool)
    (ls : list TranscriptLine) :
  (forall c, (c < 128)%N -> is_decimal c = ascii_digit c) ->
  Forall (writable is_decimal) ls ->
  parse_transcript_file is_decimal (format_transcript ls) = ls.
Proof.
  intros Hd Hls. unfold parse_transcript_file.
  rewrite (parse_fold is_decimal Hd) by apply file_lines_strip. simpl.
  rewrite (file_lines_format is_decimal Hd ls Hls).
  induction Hls as [|l ls Hl _ IH]; [reflexivity|].
  change (omap (spec_line is_decimal) (map (fun l => format_line l ++ [10%N]) (l :: ls)))
    with (match spec_line is_decimal (format_line l ++ [10%N]) with
          | Some y => y :: omap (spec_line is_decimal)
                             (map (fun l => format_line l ++ [10%N]) ls)
          | None => omap (spec_line is_decimal)
                      (map (fun l => format_line l ++ [10%N]) ls)
          end).
  rewrite (spec_line_format is_decimal Hd l Hl), IH. reflexivity.
Qed.

Lemma sample_lines_writable : Forall (writable ascii_digit) [hallo; antwort].
Proof.
  repeat constructor.
  - exists (of_string "00"). repeat split; try reflexivity; try discriminate;
      vm_compute; intuition discriminate.
  - exists (of_string "12"). repeat split; try reflexivity; try discriminate;
      vm_compute; intuition discriminate.
Qed.

Lemma written_transcript_parses_back_witness :
  (forall c, (c < 128)%N -> ascii_digit c = ascii_digit c)
  /\ Forall (writable ascii_digit) [hallo; antwort]
  /\ parse_transcript_file ascii_digit (format_transcript [hallo; antwort])
     = [hallo; antwort].
Proof.
  split; [reflexivity|]. split; [exact sample_lines_writable|].
  apply (written_transcript_parses_back ascii_digit [hallo; antwort]);
    [reflexivity | exact sample_lines_writable].
Defined.

End TranscribeExtras.


(* ===================================================================== *)
(** * The summaries                                                        *)
(* ===================================================================== *)

Module SummarizeExtras.
Import Py Transcribe Runtime Summarize.
Local Open Scope list_scope.

(** [summarize_segment] when the client library is there and the service
    answers with at least one choice. *)
Lemma summarize_segment_answered W title body content more sent :
  import_openai W = Ok tt ->
  chat W (request_for W title body) = Ok (content :: more) ->
  summarize_segment W title body sent
  = (Ok (summary_of W (request_for W title body)),
     sent ++ [request_for W title body]).
Proof.
  intros Him Hchat. unfold summarize_segment, lbind, ltry, create, lret, summary_of.
  rewrite Him, Hchat. reflexivity.
Qed.

Lemma summarize_segment_refused W title body e sent :
  import_openai W = Ok tt ->
  chat W (request_for W title body) = Raise e ->
  summarize_segment W title body sent
  = (Raise e, sent ++ [request_for W title body]).
Proof.
  intros Him Hchat. unfold summarize_segment, lbind, ltry, create.
  rewrite Him, Hchat. reflexivity.
Qed.

(** X: the summary endpoint raises nothing but HTTP errors and sends at
    most one request. Without lines it answers 400 and sends none. With
    lines: when the client library cannot be imported no request is
    sent and the answer is 500 with the text of the exception of the
    import (for an [ImportError], the text of the [RuntimeError] that
    replaces it); otherwise exactly one request is sent, for the lines
    joined as "speaker: text", and the answer is 500 with the text of
    the exception the service raised, 500 with the text of the
    [IndexError] when the response has no choice, and else the content
    of the first choice (the empty string when it has none). *)
Theorem generate_summary_outcomes W request sent :
  let req := request_for W (top_title request) (joined request) in
  let failed cause :=
    @Raise pystr
      (HTTPException 500
         ("Fehler bei der Zusammenfassung: " ++ str_exn (llm_texts W) cause)%string) in
  (lines request = [] ->
   generate_summary W request sent
   = (Raise (HTTPException 400 "Keine Zeilen zum Zusammenfassen"), sent))
  /\ (lines request <> [] ->
      (forall e, import_openai W = Raise e ->
         generate_summary W request sent
         = (failed (match e with
                    | ImportError _ =>
                        RuntimeError
                          "OpenAI client nicht installiert. Installieren Sie mit: uv add openai"
                    | _ => e
                    end), sent))
      /\ (import_openai W = Ok tt ->
          (forall e, chat W req = Raise e ->
             generate_summary W request sent = (failed e, sent ++ [req]))
          /\ (chat W req = Ok [] ->
              generate_summary W request sent
              = (failed (OtherError "list index out of range"), sent ++ [req]))
          /\ (forall choice more, chat W req = Ok (choice :: more) ->
                generate_summary W request sent
                = (Ok (summary_of W req), sent ++ [req])))).
Proof.
  cbv zeta. unfold generate_summary, joined.
  destruct (lines request) as [|l ls] eqn:Hlines.
  { split; [reflexivity|]. intros H. congruence. }
  split; [discriminate|]. intros _.
  set (body := join [10%N]
                 (map (fun line => speaker line ++ of_string ": " ++ text line)
                      (l :: ls))).
  unfold ltry, summarize_segment, lbind, create, lraise, lret, summary_of.
  split.
  - intros e ->. destruct e; reflexivity.
  - intros ->. split; [|split].
    + intros e ->. reflexivity.
    + intros ->. reflexivity.
    + intros choice more ->. reflexivity.
Qed.

Lemma generate_summary_outcomes_witness :
  generate_summary W_down haushalt []
  = (Raise (HTTPException 500 "Fehler bei der Zusammenfassung: Connection error."),
     [request_for W_down (top_title haushalt) (joined haushalt)])
  /\ generate_summary W_echo haushalt []
     = (Ok (of_string "Der Rat beschliesst den Haushalt."),
        [request_for W_echo (top_title haushalt) (joined haushalt)]).
Proof.
  split.
  - destruct (generate_summary_outcomes W_down haushalt []) as (_ & Hlines).
    destruct (Hlines ltac:(discriminate)) as (_ & Hsent).
    destruct (Hsent eq_refl) as (Hraise & _).
    exact (Hraise (OtherError "Connection error.") eq_refl).
  - destruct (generate_summary_outcomes W_echo haushalt []) as (_ & Hlines).
    destruct (Hlines ltac:(discriminate)) as (_ & Hsent).
    destruct (Hsent eq_refl) as (_ & _ & Hanswer).
    exact (Hanswer (Some (of_string "Der Rat beschliesst den Haushalt.")) [] eq_refl).
Defined.

Lemma top_title_nonneg (W : LLM) (tops : list pystr) (idx : Z) :
  (0 <= idx)%Z -> top_title_for tops idx = Ok (title_of tops idx).
Proof.
  intros Hidx. unfold top_title_for, title_of.
  destruct (idx <? Z.of_nat (length tops))%Z eqn:Hlt.
  - apply Z.ltb_lt in Hlt.
    assert (H0 : (idx <? 0)%Z = false) by (apply Z.ltb_ge; lia).
    rewrite H0. cbv zeta. rewrite H0.
    destruct (tops !! Z.to_nat idx) as [t|] eqn:Ht; [reflexivity|].
    apply lookup_ge_None in Ht. lia.
  - apply Z.ltb_ge in Hlt.
    rewrite (proj2 (lookup_ge_None tops (Z.to_nat idx))) by lia. reflexivity.
Qed.

Lemma dict_set_fresh (d : list (Z * pystr)) (k : Z) (v : pystr) :
  ~ In k (map fst d) -> dict_set d k v = d ++ [(k, v)].
Proof.
  induction d as [|[k' v'] d IH]; intros Hk; simpl; [reflexivity|].
  destruct (k' =? k)%Z eqn:E.
  - apply Z.eqb_eq in E. subst k'. exfalso. apply Hk. left. reflexivity.
  - rewrite IH; [reflexivity|]. intros H. apply Hk. right. exact H.
Qed.

Lemma summarize_items_spoken W tops items :
  always_answers W ->
  forall acc sent,
    NoDup (map fst items) ->
    (forall k, In k (map fst items) -> ~ In k (map fst acc)) ->
    Forall (fun item => (0 <= item.1)%Z) items ->
    summarize_items W tops items acc sent
    = (Ok (acc ++ map (entry_of W tops) (List.filter spoken items)),
       sent ++ map (request_of W tops) (List.filter spoken items)).
Proof.
  intros [Him Hchat]. induction items as [|[idx body] items IH];
    intros acc sent Hnd Hfresh Hpos.
  - simpl. unfold lret. rewrite !app_nil_r. reflexivity.
  - apply NoDup_cons in Hnd as [Hidx Hnd].
    apply Forall_cons in Hpos as [Hi Hpos]. cbn [fst] in Hi.
    change (List.filter spoken ((idx, body) :: items))
      with (if truthy (strip body) then (idx, body) :: List.filter spoken items
            else List.filter spoken items).
    cbn [summarize_items]. destruct (truthy (strip body)) eqn:Hsp.
    + rewrite (top_title_nonneg W tops idx Hi).
      destruct (Hchat (request_for W (title_of tops idx) body)) as (c & more & Hc).
      unfold lbind.
      rewrite (summarize_segment_answered W _ _ c more sent Him Hc).
      rewrite dict_set_fresh by (apply Hfresh; left; reflexivity).
      rewrite IH; [| exact Hnd | | exact Hpos].
      * rewrite <- !app_assoc. reflexivity.
      * intros k Hk. rewrite map_app. intros H.
        apply in_app_or in H as [H|[H|[]]].
        -- exact (Hfresh k (or_intror Hk) H).
        -- cbn in H. subst k. apply Hidx. apply list_elem_of_In. exact Hk.
    + apply IH; [exact Hnd | | exact Hpos].
      intros k Hk. apply Hfresh. right. exact Hk.
Qed.

(** X: when the service answers every request, [summarize_all_segments]
    returns one summary for each segment whose text is not blank, under
    the index of the segment and in the order of the segments, after one
    request per such segment; blank segments are passed over without a
    request; the title is the one at the index, or "TOP <index+1>" when
    the list of titles is too short. *)
Theorem summarize_all_segments_answers_spoken W tops segments sent :
  always_answers W ->
  NoDup (map fst segments) ->
  Forall (fun item => (0 <= item.1)%Z) segments ->
  summarize_all_segments W tops segments sent
  = (Ok (map (entry_of W tops) (List.filter spoken segments)),
     sent ++ map (request_of W tops) (List.filter spoken segments)).
Proof.
  intros HW Hnd Hpos. unfold summarize_all_segments.
  rewrite (summarize_items_spoken W tops segments HW [] sent Hnd); [reflexivity | | exact Hpos].
  intros k _ [].
Qed.

Lemma W_echo_answers : always_answers W_echo.
Proof. split; [reflexivity|]. intros req. eexists _, _. reflexivity. Qed.

Lemma summarize_all_segments_answers_spoken_witness :
  always_answers W_echo
  /\ NoDup (map fst abschnitte)
  /\ Forall (fun item => (0 <= item.1)%Z) abschnitte
  /\ List.filter spoken abschnitte
     = [(0%Z, of_string "Die Sitzung ist eroeffnet.");
        (2%Z, of_string "Verschiedenes wurde besprochen.")]
  /\ title_of tagesordnung 2 = of_string "TOP 3"
  /\ summarize_all_segments W_echo tagesordnung abschnitte []
     = (Ok (map (entry_of W_echo tagesordnung) (List.filter spoken abschnitte)),
        [] ++ map (request_of W_echo tagesordnung) (List.filter spoken abschnitte)).
Proof.
  assert (Hnd : NoDup (map fst abschnitte)).
  { apply NoDup_ListNoDup. vm_compute.
    repeat constructor; simpl; intuition discriminate. }
  assert (Hpos : Forall (fun item => (0 <= item.1)%Z) abschnitte).
  { repeat constructor; vm_compute; discriminate. }
  split; [exact W_echo_answers|]. split; [exact Hnd|]. split; [exact Hpos|].
  split; [reflexivity|]. split; [reflexivity|].
  apply (summarize_all_segments_answers_spoken W_echo tagesordnung abschnitte []
           W_echo_answers Hnd Hpos).
Defined.

Lemma summarize_items_fails W tops before idx body after e :
  import_openai W = Ok tt ->
  Forall (fun item => (0 <= item.1)%Z) before ->
  (forall item, In item before -> spoken item = true ->
     exists content more, chat W (request_of W tops item) = Ok (content :: more)) ->
  spoken (idx, body) = true ->
  (0 <= idx)%Z ->
  chat W (request_of W tops (idx, body)) = Raise e ->
  forall acc sent,
    summarize_items W tops (before ++ (idx, body) :: after) acc sent
    = (Raise e,
       sent ++ map (request_of W tops) (List.filter spoken before)
            ++ [request_of W tops (idx, body)]).
Proof.
  intros Him Hpos Hans Hsp Hidx Hfail.
  change (request_of W tops (idx, body))
    with (request_for W (title_of tops idx) body) in Hfail.
  induction before as [|[i b] before IH]; intros acc sent.
  - change (spoken (idx, body)) with (truthy (strip body)) in Hsp.
    cbn [app summarize_items List.filter map].
    rewrite Hsp, (top_title_nonneg W tops idx Hidx). unfold lbind.
    rewrite (summarize_segment_refused W _ _ e sent Him Hfail). reflexivity.
  - apply Forall_cons in Hpos as [Hi Hpos]. cbn [fst] in Hi.
    change (List.filter spoken ((i, b) :: before))
      with (if truthy (strip b) then (i, b) :: List.filter spoken before
            else List.filter spoken before).
    cbn [app summarize_items].
    destruct (truthy (strip b)) eqn:Hb.
    + rewrite (top_title_nonneg W tops i Hi).
      destruct (Hans (i, b) (or_introl eq_refl) Hb) as (c & more & Hc).
      unfold lbind. change (request_of W tops (i, b))
        with (request_for W (title_of tops i) b) in Hc.
      rewrite (summarize_segment_answered W _ _ c more sent Him Hc).
      rewrite IH; [| exact Hpos | intros item Hin; apply Hans; right; exact Hin].
      rewrite <- !app_assoc. reflexivity.
    + apply IH; [exact Hpos | intros item Hin; apply Hans; right; exact Hin].
Qed.

(** X: [summarize_all_segments] stops at the first segment whose request
    fails: the error of the service is raised as it is, the summaries
    obtained so far are not returned, and no request is sent for the
    segments after the failing one. *)
Theorem summarize_all_segments_stops_at_failure W tops before idx body after e sent :
  import_openai W = Ok tt ->
  Forall (fun item => (0 <= item.1)%Z) before ->
  (forall item, In item before -> spoken item = true ->
     exists content more, chat W (request_of W tops item) = Ok (content :: more)) ->
  spoken (idx, body) = true ->
  (0 <= idx)%Z ->
  chat W (request_of W tops (idx, body)) = Raise e ->
  summarize_all_segments W tops (before ++ (idx, body) :: after) sent
  = (Raise e,
     sent ++ map (request_of W tops) (List.filter spoken before)
          ++ [request_of W tops (idx, body)]).
Proof.
  intros Him Hpos Hans Hsp Hidx Hfail. unfold summarize_all_segments.
  apply summarize_items_fails; assumption.
Qed.

Lemma summarize_all_segments_stops_at_failure_witness :
  import_openai W_down = Ok tt
  /\ spoken (0%Z, of_string "Die Sitzung ist eroeffnet.") = true
  /\ chat W_down (request_of W_down tagesordnung (0%Z, of_string "Die Sitzung ist eroeffnet."))
     = Raise (OtherError "Connection error.")
  /\ summarize_all_segments W_down tagesordnung
       ([] ++ (0%Z, of_string "Die Sitzung ist eroeffnet.")
           :: [(1%Z, of_string "   "); (2%Z, of_string "Verschiedenes wurde besprochen.")])
       []
     = (Raise (OtherError "Connection error."),
        [] ++ map (request_of W_down tagesordnung) (List.filter spoken [])
           ++ [request_of W_down tagesordnung (0%Z, of_string "Die Sitzung ist eroeffnet.")]).
Proof.
  split; [reflexivity|]. split; [reflexivity|]. split; [reflexivity|].
  apply (summarize_all_segments_stops_at_failure W_down tagesordnung []);
    [reflexivity | constructor | intros item [] | reflexivity | lia | reflexivity].
Defined.

End SummarizeExtras.

(* ===================================================================== *)
(** * The telemetry                                                        *)
(* ===================================================================== *)

Module TelemetryExtras.
Import Py Runtime Telemetry.
Local Open Scope list_scope.

Section WithHost.
Context {float : Type} (H : Host float).

(** The request [_send_to_webhook] makes for a JSON text. *)
Local Abbreviation hook_request data :=
  (mkHttp (TELEMETRY_WEBHOOK_URL float H) data [("Content-Type", "application/json")]
          "POST" 10).

Lemma webhook_result (ev : TelemetryEvent float) (w : world) :
  exists b new,
    _send_to_webhook H ev w
    = (Ok b, mkWorld (files w) (posts w ++ new) (logged (_send_to_webhook H ev w).2))
    /\ (b = true <->
        TELEMETRY_WEBHOOK_URL float H <> ""%string
        /\ exists data, json_dumps float H ev = Ok data /\ encodable data = true
                        /\ urlopen float H (hook_request data) = Ok 200%Z)
    /\ (new = [] \/ exists data, json_dumps float H ev = Ok data /\ encodable data = true
                                 /\ new = [hook_request data])
    /\ (TELEMETRY_WEBHOOK_URL float H = ""%string -> new = []).
Proof.
  unfold _send_to_webhook.
  destruct (TELEMETRY_WEBHOOK_URL float H) as [|c u] eqn:Hurl.
  { exists false, []. unfold tbind, log_at, tret. cbn. rewrite app_nil_r.
    split; [reflexivity|]. split; [|split; [left; reflexivity | reflexivity]].
    split; [discriminate | intros [Hne _]; congruence]. }
  unfold ttry, tbind, tlift, post, log_at, tret, encode_utf8.
  cbn [fst snd files posts logged].
  destruct (json_dumps float H ev) as [data|e] eqn:Hd.
  - destruct (encodable data) eqn:He.
    + destruct (urlopen float H (mkHttp (String c u) data _ _ _)) as [status|e] eqn:Hu.
      * destruct (status =? 200)%Z eqn:Hs.
        -- apply Z.eqb_eq in Hs. subst status.
           exists true, [mkHttp (String c u) data
                           [("Content-Type", "application/json")] "POST" 10].
           cbn. split; [reflexivity|]. split; [|split; [right; eauto | discriminate]].
           split; [|reflexivity]. intros _. split; [discriminate | eauto].
        -- apply Z.eqb_neq in Hs.
           exists false, [mkHttp (String c u) data
                            [("Content-Type", "application/json")] "POST" 10].
           cbn. split; [reflexivity|]. split; [|split; [right; eauto | discriminate]].
           split; [discriminate|].
           intros (_ & data' & [= <-] & _ & Hu'). rewrite Hu in Hu'. congruence.
      * exists false, [mkHttp (String c u) data
                         [("Content-Type", "application/json")] "POST" 10].
        cbn. split; [reflexivity|]. split; [|split; [right; eauto | discriminate]].
        split; [discriminate|].
        intros (_ & data' & [= <-] & _ & Hu'). rewrite Hu in Hu'. discriminate.
    + exists false, []. cbn. rewrite app_nil_r.
      split; [reflexivity|]. split; [|split; [left; reflexivity | discriminate]].
      split; [discriminate|]. intros (_ & data' & [= <-] & He' & _). congruence.
  - exists false, []. cbn. rewrite app_nil_r.
    split; [reflexivity|]. split; [|split; [left; reflexivity | discriminate]].
    split; [discriminate|]. intros (_ & data' & Hd' & _). discriminate.
Qed.

(** X: [_send_to_webhook] never raises and never touches a file; it
    returns True exactly when a webhook is configured, the event could
    be serialized and encoded as UTF-8, and the webhook answered with
    status 200; it makes at most one request, a POST to the configured
    address, and none when no webhook is configured. *)
Theorem webhook_true_only_on_200 (ev : TelemetryEvent float) (w : world) :
  exists b new,
    (_send_to_webhook H ev w).1 = Ok b
    /\ files (_send_to_webhook H ev w).2 = files w
    /\ posts (_send_to_webhook H ev w).2 = posts w ++ new
    /\ (b = true <->
        TELEMETRY_WEBHOOK_URL float H <> ""%string
        /\ exists data, json_dumps float H ev = Ok data /\ encodable data = true
                        /\ urlopen float H (hook_request data) = Ok 200%Z)
    /\ (length new <= 1)%nat
    /\ Forall (fun r => url r = TELEMETRY_WEBHOOK_URL float H /\ method r = "POST"%string) new
    /\ (TELEMETRY_WEBHOOK_URL float H = ""%string -> new = []).
Proof.
  destruct (webhook_result ev w) as (b & new & Hrun & Hb & Hnew & Hurl).
  exists b, new. rewrite Hrun. cbn [fst snd files posts].
  split; [reflexivity|]. split; [reflexivity|]. split; [reflexivity|].
  split; [exact Hb|]. split; [|split; [|exact Hurl]].
  - destruct Hnew as [->|(data & _ & _ & ->)]; simpl; lia.
  - destruct Hnew as [->|(data & _ & _ & ->)]; repeat constructor.
Qed.

(** What [_save_backup] does to the backup file. *)
Lemma save_backup_result (ev : TelemetryEvent float) (w : world) :
  exists content,
    _save_backup H ev w
    = (Ok tt,
       mkWorld (match content with
                | Some c => <[backup_file H := c]> (files w)
                | None => files w
                end)
               (posts w) (logged (_save_backup H ev w).2))
    /\ (forall c, content = Some c ->
          exists added, c = default [] (files w !! backup_file H) ++ added)
    /\ (mkdir_error float H = None ->
        open_append_error float H (backup_file H) = None ->
        forall text, json_dumps float H ev = Ok text -> encodable text = true ->
          content = Some (default [] (files w !! backup_file H) ++ text ++ [10%N])).
Proof.
  unfold _save_backup, ttry, tbind, tlift, open_append, write_append, log_at,
    encode_utf8.
  destruct (mkdir_error float H) as [e|] eqn:Hmk.
  { exists None. cbn. split; [reflexivity|]. split; [discriminate | discriminate]. }
  destruct (open_append_error float H (backup_file H)) as [e|] eqn:Hop.
  { exists None. cbn. split; [reflexivity|]. split; [discriminate | discriminate]. }
  destruct (json_dumps float H ev) as [text|e] eqn:Hd.
  - destruct (encodable (text ++ [10%N])) eqn:He.
    + exists (Some (default [] (files w !! backup_file H) ++ text ++ [10%N])).
      cbn. rewrite lookup_insert_eq, insert_insert_eq. cbn.
      split; [reflexivity|]. split.
      * intros c [= <-]. eauto.
      * intros _ _ text' [= <-] _. reflexivity.
    + exists (Some (default [] (files w !! backup_file H))).
      cbn. split; [reflexivity|]. split.
      * intros c [= <-]. exists []. rewrite app_nil_r. reflexivity.
      * intros _ _ text' [= <-] He'. exfalso.
        unfold encodable in He, He'. rewrite forallb_app, He' in He.
        discriminate He.
  - exists (Some (default [] (files w !! backup_file H))).
    cbn. split; [reflexivity|]. split.
    + intros c [= <-]. exists []. rewrite app_nil_r. reflexivity.
    + intros _ _ text' Ht. discriminate Ht.
Qed.

(** X: [_save_backup] never raises, makes no request and touches no file
    but the backup file of the day, whose earlier content it keeps: it
    only ever appends. When the directory and the file can be opened and
    the event is serialized to a text that UTF-8 can encode, exactly the
    JSON text and a line feed are appended. *)
Theorem backup_only_appends (ev : TelemetryEvent float) (w : world) :
  let w' := (_save_backup H ev w).2 in
  (_save_backup H ev w).1 = Ok tt
  /\ posts w' = posts w
  /\ (forall other, other <> backup_file H -> files w' !! other = files w !! other)
  /\ (exists added,
        default [] (files w' !! backup_file H)
        = default [] (files w !! backup_file H) ++ added)
  /\ (mkdir_error float H = None ->
      open_append_error float H (backup_file H) = None ->
      forall text, json_dumps float H ev = Ok text -> encodable text = true ->
        files w' !! backup_file H
        = Some (default [] (files w !! backup_file H) ++ text ++ [10%N])).
Proof.
  cbv zeta. destruct (save_backup_result ev w) as (content & Hrun & Hkeep & Hfull).
  rewrite Hrun. cbn [fst snd files posts].
  split; [reflexivity|]. split; [reflexivity|]. split; [|split].
  - intros other Hne. destruct content; [|reflexivity].
    apply lookup_insert_ne. congruence.
  - destruct content as [c|].
    + rewrite lookup_insert_eq. cbn. exact (Hkeep c eq_refl).
    + exists []. rewrite app_nil_r. reflexivity.
  - intros Hmk Hop text Ht He. rewrite (Hfull Hmk Hop text Ht He).
    apply lookup_insert_eq.
Qed.

(** X: the worker of [send_telemetry] never raises; it leaves the files
    exactly as [_save_backup] alone leaves them, whatever the webhook
    does, and makes at most one request. *)
Theorem send_keeps_backup_whatever_the_webhook (ev : TelemetryEvent float) (w : world) :
  (_send H ev w).1 = Ok tt
  /\ files (_send H ev w).2 = files (_save_backup H ev w).2
  /\ exists new, posts (_send H ev w).2 = posts w ++ new /\ (length new <= 1)%nat.
Proof.
  unfold _send, tbind.
  destruct (save_backup_result ev w) as (content & Hrun & _).
  rewrite Hrun. cbn [snd files].
  set (w1 := mkWorld _ (posts w) _).
  destruct (webhook_result ev w1) as (b & new & Hweb & _ & Hnew & _).
  rewrite Hweb. unfold tret. cbn [fst snd files posts].
  split; [reflexivity|]. split; [reflexivity|].
  exists new. split; [reflexivity|].
  destruct Hnew as [->|(data & _ & _ & ->)]; simpl; lia.
Qed.

Lemma gpu_info_result (w : world) :
  exists r, get_gpu_info H w
            = (Ok r, mkWorld (files w) (posts w) (logged (get_gpu_info H w).2)).
Proof.
  destruct w as [f p l].
  unfold get_gpu_info, ttry, tbind, tlift, tret, log_at.
  destruct (import_torch float H) as [[]|e]; [|eexists; reflexivity].
  destruct (cuda_available float H) as [[|]|e]; [|eexists; reflexivity..].
  destruct (device_name float H) as [name|e]; [|eexists; reflexivity].
  destruct (total_memory float H) as [bytes|e]; eexists; reflexivity.
Qed.

(** X: [get_gpu_info] never raises and touches neither files nor the
    webhook; it reports "cuda" with the name and the memory of the
    device only when torch is imported, reports CUDA available and
    answers both queries, and (None, None, "cpu") in every other case. *)
Theorem gpu_info_falls_back_to_cpu (w : world) :
  exists r,
    (get_gpu_info H w).1 = Ok r
    /\ files (get_gpu_info H w).2 = files w
    /\ posts (get_gpu_info H w).2 = posts w
    /\ ((import_torch float H = Ok tt
         /\ cuda_available float H = Ok true
         /\ exists name bytes,
              device_name float H = Ok name /\ total_memory float H = Ok bytes
              /\ r = (Some name, Some (gigabytes float H bytes), "cuda"%string))
        \/ (r = (None, None, "cpu"%string)
            /\ ~ (import_torch float H = Ok tt
                  /\ cuda_available float H = Ok true
                  /\ (exists name, device_name float H = Ok name)
                  /\ (exists bytes, total_memory float H = Ok bytes)))).
Proof.
  unfold get_gpu_info, ttry, tbind, tlift, tret, log_at.
  destruct (import_torch float H) as [[]|e] eqn:Hi.
  2:{ eexists. cbn. repeat split. right. split; [reflexivity|].
      intros (Hc & _). discriminate Hc. }
  destruct (cuda_available float H) as [[|]|e] eqn:Ha.
  2:{ eexists. cbn. repeat split. right. split; [reflexivity|].
      intros (_ & Hc & _). discriminate Hc. }
  2:{ eexists. cbn. repeat split. right. split; [reflexivity|].
      intros (_ & Hc & _). discriminate Hc. }
  destruct (device_name float H) as [name|e] eqn:Hn.
  2:{ eexists. cbn. repeat split. right. split; [reflexivity|].
      intros (_ & _ & (n & Hc) & _). discriminate Hc. }
  destruct (total_memory float H) as [bytes|e] eqn:Hm.
  2:{ eexists. cbn. repeat split. right. split; [reflexivity|].
      intros (_ & _ & _ & (n & Hc)). discriminate Hc. }
  eexists. cbn. repeat split. left. repeat split. eauto.
Qed.

(** What a run of setter calls leaves of an event. *)
Lemma setters_effect (calls : list (setter float)) (ev : TelemetryEvent float) :
  let ev' := fold_left call_setter calls ev in
  timestamp float ev' = timestamp float ev
  /\ app_version float ev' = app_version float ev
  /\ gpu_name float ev' = gpu_name float ev
  /\ gpu_vram_gb float ev' = gpu_vram_gb float ev
  /\ device_type float ev' = device_type float ev
  /\ success float ev'
     = match error_messages calls with [] => success float ev | _ => false end
  /\ error float ev'
     = match last (error_messages calls) with
       | Some message => Some message
       | None => error float ev
       end.
Proof.
  cbv zeta. revert ev. induction calls as [|c calls IH]; intros ev.
  { cbn. repeat split. }
  cbn [fold_left].
  destruct (IH (call_setter ev c)) as (Ht & Hv & Hg & Hm & Hd & Hs & He).
  rewrite Ht, Hv, Hg, Hm, Hd, Hs, He.
  destruct c; cbn [call_setter error_messages omap list_omap timestamp app_version
                   gpu_name gpu_vram_gb device_type success error];
    fold (error_messages calls); repeat (split; [reflexivity|]).
  1-3: split; reflexivity.
  split.
  - destruct (error_messages calls); reflexivity.
  - rewrite last_cons. destruct (last (error_messages calls)); reflexivity.
Qed.

(** X: a collector is always constructed, as a successful session with
    no error; whatever setters are then called, in whatever order, the
    time stamp, the version and the hardware fields stay as they were at
    construction, the session counts as failed exactly when [set_error]
    was called at some point, and the error is the message of the last
    such call. *)
Theorem collector_fails_iff_set_error (w : world) (calls : list (setter float)) :
  exists ev0,
    (TelemetryCollector H w).1 = Ok ev0
    /\ success float ev0 = true /\ error float ev0 = None
    /\ timestamp float ev0 = now_utc_iso float H
    /\ let ev := fold_left call_setter calls ev0 in
       timestamp float ev = now_utc_iso float H
       /\ app_version float ev = APP_VERSION float H
       /\ gpu_name float ev = gpu_name float ev0
       /\ gpu_vram_gb float ev = gpu_vram_gb float ev0
       /\ device_type float ev = device_type float ev0
       /\ (success float ev = false <-> exists message, In (set_error message) calls)
       /\ error float ev = last (error_messages calls).
Proof.
  unfold TelemetryCollector, _set_hardware_info, tbind.
  destruct (gpu_info_result w) as (r & Hr). rewrite Hr.
  destruct r as [[name vram] device]. unfold tret. cbn [fst].
  eexists. split; [reflexivity|].
  cbn [success error timestamp new_event]. repeat (split; [reflexivity|]).
  cbv zeta.
  match goal with |- context [fold_left call_setter calls ?e] =>
    destruct (setters_effect calls e) as (Ht & Hv & Hg & Hm & Hd & Hs & He) end.
  rewrite Ht, Hv, Hg, Hm, Hd, Hs, He.
  cbn [success error timestamp app_version new_event].
  repeat (split; [reflexivity|]). split.
  - unfold error_messages. split.
    + destruct (omap _ calls) as [|m l] eqn:Ho; [discriminate|]. intros _.
      assert (Hin : m ∈ omap (fun c : setter float =>
                match c with set_error message => Some message | _ => None end) calls)
        by (rewrite Ho; left).
      apply list_elem_of_omap in Hin. destruct Hin as (c & Hc & Hm').
      destruct c; try discriminate Hm'. injection Hm' as ->.
      exists m. apply list_elem_of_In. exact Hc.
    + intros (m & Hin). apply list_elem_of_In in Hin.
      assert (Hm' : m ∈ omap (fun c : setter float =>
                match c with set_error message => Some message | _ => None end) calls).
      { apply list_elem_of_omap. exists (set_error m). split; [exact Hin | reflexivity]. }
      destruct (omap _ calls); [inversion Hm' | reflexivity].
  - destruct (last (error_messages calls)); reflexivity.
Qed.

End WithHost.

(** A session on a host without torch: the hardware is reported as CPU. *)
Lemma gpu_info_falls_back_to_cpu_witness :
  (get_gpu_info host_ok empty_world).1 = Ok (None, None, "cpu"%string).
Proof.
  destruct (gpu_info_falls_back_to_cpu host_ok empty_world)
    as (r & Hr & _ & _ & [(Hi & _) | (-> & _)]); [discriminate Hi | exact Hr].
Defined.

Lemma webhook_true_only_on_200_witness :
  (_send_to_webhook host_ok (new_event host_ok) empty_world).1 = Ok true
  /\ (_send_to_webhook host_offline (new_event host_offline) empty_world).1 = Ok false.
Proof.
  split.
  - destruct (webhook_true_only_on_200 host_ok (new_event host_ok) empty_world)
      as (b & new & Hr & _ & _ & Hb & _).
    rewrite Hr. f_equal. apply Hb. split; [discriminate|].
    eexists. split; [reflexivity|]. split; reflexivity.
  - destruct (webhook_true_only_on_200 host_offline (new_event host_offline) empty_world)
      as (b & new & Hr & _ & _ & Hb & _).
    rewrite Hr. f_equal. destruct b; [|reflexivity].
    destruct (proj1 Hb eq_refl) as (Hne & _). exfalso. apply Hne. reflexivity.
Defined.

Lemma backup_only_appends_witness :
  files (_save_backup host_ok (new_event host_ok) empty_world).2 !! backup_file host_ok
  = Some (of_string "2025-01-01T00:00:00+00:00" ++ [10%N]).
Proof.
  destruct (backup_only_appends host_ok (new_event host_ok) empty_world)
    as (_ & _ & _ & _ & Hfull).
  exact (Hfull eq_refl eq_refl _ eq_refl eq_refl).
Defined.

Lemma send_keeps_backup_whatever_the_webhook_witness :
  (_send host_offline (new_event host_offline) empty_world).1 = Ok tt
  /\ files (_send host_offline (new_event host_offline) empty_world).2
       !! backup_file host_offline
     = Some (of_string "2025-01-01T00:00:00+00:00" ++ [10%N]).
Proof.
  destruct (send_keeps_backup_whatever_the_webhook host_offline (new_event host_offline)
              empty_world) as (Hr & Hf & _).
  split; [exact Hr|]. rewrite Hf. reflexivity.
Defined.

Lemma collector_fails_iff_set_error_witness :
  exists ev0,
    (TelemetryCollector host_ok empty_world).1 = Ok ev0
    /\ success unit (fold_left call_setter
                       [set_error "kaputt"; set_whisper_config "large-v2" 16] ev0)
       = false.
Proof.
  destruct (collector_fails_iff_set_error host_ok empty_world
              [set_error "kaputt"; set_whisper_config "large-v2" 16])
    as (ev0 & Hr & _ & _ & _ & _ & _ & _ & _ & _ & Hs & _).
  exists ev0. split; [exact Hr|]. apply Hs. exists "kaputt"%string. left. reflexivity.
Defined.

End TelemetryExtras.
